(** * A linear Kalman filter fusing odometry, IMU and GPS readings

    Shallow embedding of [Project1_Kalman/kalman_filter.py] (class
    [Kalman_filter]) and the properties of its fusion primitive, its
    measurement composer, its prediction and update steps and its loader.

    Modelling conventions.
    - Python / numpy floating point numbers are read as real numbers ([R]):
      rounding and overflow are outside the model. [float] reads the texts
      [inf] and [nan] as the code does, as numbers of which nothing is said.
      Where the control flow depends on the floating point, in the matrices
      that [np.linalg.inv] rejects, the properties are stated for any
      routine in its place.
    - The 5x5 numpy matrices are records of five rows of five reals; the
      (1,5) and (5,1) matrices holding a state are both a [vec5], so the
      [transpose()] calls on them are the identity of the representation.
    - The (N,k) data arrays are lists of rows.
    - A method that mutates [self] is a function from the object to the
      object after the call and either a value or the exception raised:
      the mutations done before a [raise] stay visible, as in Python. *)

From Stdlib Require Import Reals Lra Lia ZArith String Ascii List ClassicalEpsilon.
From stdpp Require Import base option list gmap strings.

#[local] Open Scope R_scope.

(** ** Exceptions and results *)

(** The exceptions the class can raise: [KeyError] and [TypeError] and
    [ValueError] from [float(line[key])], [IndexError] from an array access,
    [LinAlgError] from [np.linalg.inv]. *)
Inductive exn : Type :=
  | KeyError (key : string)
  | TypeError
  | ValueError (text : string)
  | IndexError
  | LinAlgError.

Inductive result (A : Type) : Type :=
  | Ok (a : A)
  | Raise (e : exn).
Arguments Ok {A} a.
Arguments Raise {A} e.

#[global] Instance result_ret : MRet result := fun A a => Ok a.
#[global] Instance result_bind : MBind result := fun A B f r =>
  match r with
  | Ok a => f a
  | Raise e => Raise e
  end.

Definition of_option {A : Type} (e : exn) (o : option A) : result A :=
  match o with
  | Some a => Ok a
  | None => Raise e
  end.

(** ** numpy: scalars *)

Module Np.

(** [np.finfo(np.float32).eps]: the gap between 1 and the next float32. *)
Definition float32_eps : R := / 2 ^ 23.

(** [np.radians]. *)
Definition radians (deg : R) : R := deg * (PI / 180).

(** ** numpy: 5-vectors and 5x5 matrices *)

Inductive ix : Type := I0 | I1 | I2 | I3 | I4.

Record vec5 : Type := Vec5 { c0 : R; c1 : R; c2 : R; c3 : R; c4 : R }.

Record mat5 : Type := Mat5 { r0 : vec5; r1 : vec5; r2 : vec5; r3 : vec5; r4 : vec5 }.

Definition vget (v : vec5) (j : ix) : R :=
  match j with
  | I0 => c0 v | I1 => c1 v | I2 => c2 v | I3 => c3 v | I4 => c4 v
  end.

Definition row (m : mat5) (i : ix) : vec5 :=
  match i with
  | I0 => r0 m | I1 => r1 m | I2 => r2 m | I3 => r3 m | I4 => r4 m
  end.

Definition mget (m : mat5) (i j : ix) : R := vget (row m i) j.

Definition mk_vec (f : ix -> R) : vec5 := Vec5 (f I0) (f I1) (f I2) (f I3) (f I4).

Definition mk_mat (f : ix -> ix -> R) : mat5 :=
  Mat5 (mk_vec (f I0)) (mk_vec (f I1)) (mk_vec (f I2)) (mk_vec (f I3)) (mk_vec (f I4)).

Definition sum5 (f : ix -> R) : R := f I0 + f I1 + f I2 + f I3 + f I4.

Definition ix_eqb (i j : ix) : bool :=
  match i, j with
  | I0, I0 | I1, I1 | I2, I2 | I3, I3 | I4, I4 => true
  | _, _ => false
  end.

(** [np.zeros(5)] and a zero column. *)
Definition vzero : vec5 := mk_vec (fun _ => 0).

(** [np.identity(5)]. *)
Definition identity : mat5 := mk_mat (fun i j => if ix_eqb i j then 1 else 0).

(** [m * val] for a scalar [val]. *)
Definition mscale (m : mat5) (val : R) : mat5 := mk_mat (fun i j => mget m i j * val).

Definition madd (a b : mat5) : mat5 := mk_mat (fun i j => mget a i j + mget b i j).
Definition msub (a b : mat5) : mat5 := mk_mat (fun i j => mget a i j - mget b i j).
Definition vadd (a b : vec5) : vec5 := mk_vec (fun i => vget a i + vget b i).
Definition vsub (a b : vec5) : vec5 := mk_vec (fun i => vget a i - vget b i).

(** [np.dot] of two matrices, and of a matrix and a column. *)
Definition dot (a b : mat5) : mat5 :=
  mk_mat (fun i j => sum5 (fun k => mget a i k * mget b k j)).
Definition dotv (a : mat5) (v : vec5) : vec5 :=
  mk_vec (fun i => sum5 (fun k => mget a i k * vget v k)).

Definition transpose (m : mat5) : mat5 := mk_mat (fun i j => mget m j i).

(** [deviation[i, i] = val] on a matrix. *)
Definition set_diag (m : mat5) (i : ix) (val : R) : mat5 :=
  mk_mat (fun a b => if ix_eqb a i && ix_eqb b i then val else mget m a b).

(** [mean[0, i] = val] on a row. *)
Definition vset (v : vec5) (i : ix) (val : R) : vec5 :=
  mk_vec (fun a => if ix_eqb a i then val else vget v a).

(** [np.diag(v)]. *)
Definition diag (v : vec5) : mat5 := mk_mat (fun i j => if ix_eqb i j then vget v i else 0).

Definition symmetric (m : mat5) : Prop := transpose m = m.

Definition diagonal (m : mat5) : Prop :=
  forall i j, ix_eqb i j = false -> mget m i j = 0.

(** A matrix is invertible when it has a two-sided inverse. *)
Definition invertible (m : mat5) : Prop :=
  exists b, dot m b = identity /\ dot b m = identity.

(** [np.linalg.inv] on real numbers: the inverse, or [LinAlgError] where
    there is none. In floating point the routine agrees with this up to
    rounding on the matrices it inverts, but it rejects fewer matrices: its
    factorisation fails on a pivot that is exactly zero and on nothing else,
    and on a matrix without inverse rounding can leave pivots that are not
    zero. What depends on which matrices are rejected is therefore stated
    below for any routine in the place of this one ([state_update_with],
    [run_with]). *)
Definition inv (m : mat5) : result mat5 :=
  match excluded_middle_informative (invertible m) with
  | left H => Ok (proj1_sig (constructive_indefinite_description _ H))
  | right _ => Raise LinAlgError
  end.

End Np.
Import Np.

(** ** The fusion primitive *)

(** [Kalman_filter.fuse]: the method does not read [self]. *)
Definition fuse (first_mean second_mean first_deviation second_deviation : R) : R * R :=
  let mean :=
    (first_mean / Rmax (first_deviation ^ 2) float32_eps
     + second_mean / Rmax (second_deviation ^ 2) float32_eps)
    / (1 / Rmax (first_deviation ^ 2) float32_eps
       + 1 / Rmax (second_deviation ^ 2) float32_eps) in
  let deviation :=
    Rpower (1 / Rmax (first_deviation ^ 2) float32_eps
            + 1 / Rmax (second_deviation ^ 2) float32_eps) (- 0.5) in
  (mean, deviation).

(** ** The data file *)

(** One line as [csv.DictReader] yields it: the header's keys, each with the
    text of its cell, or with [None] where the line is too short. *)
Abbreviation csv_line := (gmap string (option string)).

(** A decimal numeral: [mantissa * 10 ^ exponent]. *)
Record decimal : Type := Decimal { mantissa : Z; exponent : Z }.

Definition decimal_value (d : decimal) : R := IZR (mantissa d) * powerRZ 10 (exponent d).

Definition is_space (c : ascii) : bool :=
  let n := nat_of_ascii c in ((9 <=? n) && (n <=? 13) || (n =? 32))%nat.

Fixpoint lstrip (s : list ascii) : list ascii :=
  match s with
  | c :: s' => if is_space c then lstrip s' else s
  | [] => []
  end.

Definition strip (s : list ascii) : list ascii := rev (lstrip (rev (lstrip s))).

Definition digit (c : ascii) : option Z :=
  let n := nat_of_ascii c in
  if ((48 <=? n) && (n <=? 57))%nat then Some (Z.of_nat (n - 48)) else None.

(** The leading digits of [s], accumulated on [acc]; their number; the rest. *)
Fixpoint digits (s : list ascii) (acc : Z) (count : nat) : Z * nat * list ascii :=
  match s with
  | c :: s' =>
      match digit c with
      | Some d => digits s' (10 * acc + d)%Z (S count)
      | None => (acc, count, s)
      end
  | [] => (acc, count, [])
  end.

Definition sign (s : list ascii) : Z * list ascii :=
  match s with
  | c :: s' =>
      if Ascii.eqb c "-" then ((-1)%Z, s')
      else if Ascii.eqb c "+" then (1%Z, s') else (1%Z, s)
  | [] => (1%Z, [])
  end.

(** The decimal texts [float()] accepts: blanks, a sign, digits with an
    optional point, an optional exponent. (The other texts [float()]
    accepts, [inf], [infinity] and [nan], are those of [nonfinite_literal]
    below.) *)
Definition float_literal (text : string) : option decimal :=
  let s := strip (list_ascii_of_string text) in
  let '(sg, s) := sign s in
  let '(ip, n1, s) := digits s 0%Z 0%nat in
  let '(fp, n2, s) :=
    match s with
    | c :: s' => if Ascii.eqb c "." then digits s' ip 0%nat else (ip, 0%nat, s)
    | [] => (ip, 0%nat, s)
    end in
  if (n1 + n2 =? 0)%nat then None else
  match s with
  | [] => Some (Decimal (sg * fp) (- Z.of_nat n2))
  | c :: s' =>
      if Ascii.eqb c "e" || Ascii.eqb c "E" then
        let '(esg, s) := sign s' in
        let '(ev, n3, s) := digits s 0%Z 0%nat in
        if (n3 =? 0)%nat then None else
        match s with
        | [] => Some (Decimal (sg * fp) (esg * ev - Z.of_nat n2))
        | _ :: _ => None
        end
      else None
  end.

Definition lower (c : ascii) : ascii :=
  let n := nat_of_ascii c in
  if ((65 <=? n) && (n <=? 90))%nat then ascii_of_nat (n + 32) else c.

(** The texts of the floats that are no numbers: blanks, a sign, and [inf],
    [infinity] or [nan] in any case of letters. *)
Definition nonfinite_literal (text : string) : bool :=
  let '(_, s) := sign (strip (list_ascii_of_string text)) in
  let word := string_of_list_ascii (map lower s) in
  String.eqb word "inf" || String.eqb word "infinity" || String.eqb word "nan".

(** [float()] returns on these texts, with a float that is no real number.
    The model lets it return a real number of which it says nothing: the
    load goes on as in the code, and what the filter computes from such a
    value is outside the model. *)
Definition nonfinite_value (text : string) : R :=
  proj1_sig (constructive_indefinite_description
               (fun _ : R => text = text) (ex_intro _ 0 eq_refl)).

(** [float(cell)]: [TypeError] on [None], [ValueError] on a text that is
    neither a decimal numeral nor one of [inf], [infinity] and [nan]. *)
Definition float (cell : option string) : result R :=
  match cell with
  | None => Raise TypeError
  | Some text =>
      match float_literal text with
      | Some d => Ok (decimal_value d)
      | None =>
          if nonfinite_literal text then Ok (nonfinite_value text)
          else Raise (ValueError text)
      end
  end.

(** [float(line[key])]: [KeyError] when the header lacks [key]. *)
Definition field (line : csv_line) (key : string) : result R :=
  cell ← of_option (KeyError key) (line !! key); float cell.

(** The field names set by the constructor. *)
Definition time_index : string := "%time".
Definition odometer_x : string := "field.O_x".
Definition odometer_y : string := "field.O_y".
Definition odometer_theta : string := "field.O_t".
Definition imu_theta : string := "field.I_t".
Definition imu_cov_theta : string := "field.Co_I_t".
Definition gps_x : string := "field.G_x".
Definition gps_y : string := "field.G_y".
Definition gps_cov_x : string := "field.Co_gps_x".
Definition gps_cov_y : string := "field.Co_gps_y".

(** An (N,k) array: its rows. *)
Abbreviation array := (list (list R)).

(** [np.matrix(rows)]: no row at all gives the (1,0) matrix. *)
Definition np_matrix (rows : array) : array :=
  match rows with
  | [] => [[]]
  | _ :: _ => rows
  end.

(** [arr[i, j]]. *)
Definition at2 (arr : array) (i j : nat) : result R :=
  of_option IndexError (arr !! i ≫= (.!! j)).

(** [arr.shape[1]]. *)
Definition width (arr : array) : nat :=
  match arr with
  | r :: _ => length r
  | [] => 0%nat
  end.

(** [arr[:, index] = value]. *)
Definition set_column (arr : array) (index : nat) (value : R) : result array :=
  if decide (index < width arr)%nat
  then Ok ((fun r => <[index := value]> r) <$> arr)
  else Raise IndexError.

(** The six arrays [get_data] stores in [self]. *)
Record sensor_data : Type := SensorData {
  data_time : array;
  data_odometry : array;
  data_imu : array;
  data_imu_cov : array;
  data_gps : array;
  data_gps_cov : array
}.

(** The six values one line appends to the six lists, read in the order of
    the source. *)
Definition read_line (line : csv_line)
  : result (list R * list R * list R * list R * list R * list R) :=
  t ← field line time_index;
  ox ← field line odometer_x;
  oy ← field line odometer_y;
  ot ← field line odometer_theta;
  it ← field line imu_theta;
  ict ← field line imu_cov_theta;
  gx ← field line gps_x;
  gy ← field line gps_y;
  gcx ← field line gps_cov_x;
  gcy ← field line gps_cov_y;
  Ok ([t], [ox; oy; ot], [it], [ict], [gx; gy], [gcx; gcy]).

(** The loop of [get_data] over the lines of the file. *)
Fixpoint read_lines (lines : list csv_line)
  : result (array * array * array * array * array * array) :=
  match lines with
  | [] => Ok ([], [], [], [], [], [])
  | line :: rest =>
      '(t, o, i, ic, g, gc) ← read_line line;
      '(list_time, list_odometry, list_imu, list_imu_cov, list_gps, list_gps_cov)
        ← read_lines rest;
      Ok (t :: list_time, o :: list_odometry, i :: list_imu,
          ic :: list_imu_cov, g :: list_gps, gc :: list_gps_cov)
  end.

(** [Kalman_filter.get_data], on the lines [csv.DictReader] yields. *)
Definition get_data (file : list csv_line) : result sensor_data :=
  '(list_time, list_odometry, list_imu, list_imu_cov, list_gps, list_gps_cov)
    ← read_lines file;
  Ok (SensorData (np_matrix list_time) (np_matrix list_odometry) (np_matrix list_imu)
        (np_matrix list_imu_cov) (np_matrix list_gps) (np_matrix list_gps_cov)).

(** [Kalman_filter.override_cov]: the loop over [enumerate(override_value)],
    from position [index] on. *)
Fixpoint override_cov_from (to_override : array) (index : nat) (override_value : list R)
  : result array :=
  match override_value with
  | [] => Ok to_override
  | value :: rest =>
      arr ← set_column to_override index value;
      override_cov_from arr (S index) rest
  end.

Definition override_cov (to_override : array) (override_value : list R) : result array :=
  override_cov_from to_override 0 override_value.

(** [Kalman_filter.noise_gps], given the sample [np.random.normal] drew. *)
Definition noise_gps (gps noise : array) : array :=
  zip_with (zip_with Rplus) gps noise.

(** ** The filter object *)

Record Kalman_filter : Type := KalmanFilter {
  wheel_distance : R;
  delta_t : R;
  velocity : R;
  input_effect : mat5;
  control_input : vec5;
  process_noise : mat5;
  measurement_effect : mat5;
  measurement_cov : mat5;
  previous_cov : mat5;
  time : array;
  odometry : array;
  imu : array;
  imu_cov : array;
  gps : array;
  gps_cov : array;
  state : list vec5
}.

(** The defaults of the constructor's keyword arguments. *)
Definition default_process_noise_val : R := 0.0001.
Definition default_measurement_cov_val : R := 0.01.
Definition default_previous_cov_val : R := 0.01.

(** [if override:] on a tuple or [None]. *)
Definition truthy {A : Type} (o : option (list A)) : bool :=
  match o with
  | Some (_ :: _) => true
  | _ => false
  end.

(** [Kalman_filter.__init__], on the lines of the data file. [gps_noise] is
    [None], or the sample that [np.random.normal] draws for the given sigma.
    The object exists only when no statement of the constructor raises. *)
Definition __init__ (file : list csv_line)
    (process_noise_val measurement_cov_val previous_cov_val : R)
    (gps_cov_override imu_cov_override : option (list R))
    (gps_noise : option array) : result Kalman_filter :=
  data ← get_data file;
  gps_cov ←
    (if truthy gps_cov_override
     then override_cov (data_gps_cov data) (default [] gps_cov_override)
     else Ok (data_gps_cov data));
  imu_cov ←
    (if truthy imu_cov_override
     then override_cov (data_imu_cov data) (default [] imu_cov_override)
     else Ok (data_imu_cov data));
  let gps :=
    match gps_noise with
    | Some noise => noise_gps (data_gps data) noise
    | None => data_gps data
    end in
  Ok {| wheel_distance := 1;
        delta_t := 0.001;
        velocity := 0.14;
        input_effect := identity;
        control_input := vzero;
        process_noise := mscale identity process_noise_val;
        measurement_effect := identity;
        measurement_cov := mscale identity measurement_cov_val;
        previous_cov := mscale identity previous_cov_val;
        time := data_time data;
        odometry := data_odometry data;
        imu := data_imu data;
        imu_cov := imu_cov;
        gps := gps;
        gps_cov := gps_cov;
        state := [vzero] |}.

(** ** Methods that mutate the object *)

Definition Method (A : Type) : Type := Kalman_filter -> Kalman_filter * result A.

#[global] Instance method_ret : MRet Method := fun A a self => (self, Ok a).
#[global] Instance method_bind : MBind Method := fun A B f m self =>
  match m self with
  | (self', Ok a) => f a self'
  | (self', Raise e) => (self', Raise e)
  end.

(** The object as it is now. *)
Definition get_self : Method Kalman_filter := fun self => (self, Ok self).

(** A computation that reads values only. *)
Definition lift {A : Type} (r : result A) : Method A := fun self => (self, r).

(** The object with another [previous_cov], and with another [state]. *)
Definition with_previous_cov (self : Kalman_filter) (cov : mat5) : Kalman_filter :=
  {| wheel_distance := wheel_distance self;
     delta_t := delta_t self;
     velocity := velocity self;
     input_effect := input_effect self;
     control_input := control_input self;
     process_noise := process_noise self;
     measurement_effect := measurement_effect self;
     measurement_cov := measurement_cov self;
     previous_cov := cov;
     time := time self;
     odometry := odometry self;
     imu := imu self;
     imu_cov := imu_cov self;
     gps := gps self;
     gps_cov := gps_cov self;
     state := state self |}.

Definition with_state (self : Kalman_filter) (history : list vec5) : Kalman_filter :=
  {| wheel_distance := wheel_distance self;
     delta_t := delta_t self;
     velocity := velocity self;
     input_effect := input_effect self;
     control_input := control_input self;
     process_noise := process_noise self;
     measurement_effect := measurement_effect self;
     measurement_cov := measurement_cov self;
     previous_cov := previous_cov self;
     time := time self;
     odometry := odometry self;
     imu := imu self;
     imu_cov := imu_cov self;
     gps := gps self;
     gps_cov := gps_cov self;
     state := history |}.

(** [self.previous_cov = cov]. *)
Definition set_previous_cov (cov : mat5) : Method unit := fun self =>
  (with_previous_cov self cov, Ok ()).

(** [self.state.append(x)]. *)
Definition state_append (x : vec5) : Method unit := fun self =>
  (with_state self (state self ++ [x]), Ok ()).

(** ** The measurement composer *)

(** [Kalman_filter.fuse_readings]: it reads [self] and leaves it as it is. *)
Definition fuse_readings (self : Kalman_filter) (index : nat) : result (vec5 * mat5) :=
  let mean := vzero in
  let deviation := identity in
  ox ← at2 (odometry self) index 0;
  gx ← at2 (gps self) index 0;
  gcx ← at2 (gps_cov self) index 0;
  let '(m, d) := fuse ox gx (mget (measurement_cov self) I0 I0) gcx in
  let mean := vset mean I0 m in
  let deviation := set_diag deviation I0 d in
  oy ← at2 (odometry self) index 1;
  gy ← at2 (gps self) index 1;
  gcy ← at2 (gps_cov self) index 1;
  let '(m, d) := fuse oy gy (mget (measurement_cov self) I1 I1) gcy in
  let mean := vset mean I1 m in
  let deviation := set_diag deviation I1 d in
  let mean := vset mean I2 (velocity self) in
  let deviation := set_diag deviation I2 (mget (measurement_cov self) I2 I2) in
  ot ← at2 (odometry self) index 2;
  it ← at2 (imu self) index 0;
  ict ← at2 (imu_cov self) index 0;
  let '(m, d) := fuse ot it (mget (measurement_cov self) I2 I2) ict in
  let mean := vset mean I3 m in
  let deviation := set_diag deviation I3 d in
  ot ← at2 (odometry self) index 2;
  let mean := vset mean I4 (velocity self * tan (radians ot) / wheel_distance self) in
  let deviation := set_diag deviation I4 (mget (measurement_cov self) I4 I4) in
  Ok (mean, deviation).

(** ** The motion model *)

(** The transition matrix built by [model_predict] for the heading [theta]
    (in degrees) of the odometry. *)
Definition transition (dt theta : R) : mat5 :=
  Mat5 (Vec5 1 0 (dt * cos (radians theta)) 0 0)
       (Vec5 0 1 (dt * cos (radians theta)) 0 0)
       (Vec5 0 0 1 0 0)
       (Vec5 0 0 0 1 dt)
       (Vec5 0 0 0 0 1).

(** [Kalman_filter.model_predict]. *)
Definition model_predict (index : nat) : Method vec5 :=
  self ← get_self;
  theta ← lift (at2 (odometry self) index 2);
  let transition_matrix := transition (delta_t self) theta in
  set_previous_cov
    (madd (dot transition_matrix (dot (previous_cov self) (transpose transition_matrix)))
          (process_noise self));;
  self ← get_self;
  previous_state ← lift (of_option IndexError (last (state self)));
  mret (vadd (dotv transition_matrix previous_state)
             (dotv (input_effect self) (control_input self))).

(** ** The Kalman recursion *)

(** The value [state_update] binds to [cov_Y], on the object as
    [model_predict] left it. *)
Definition innovation_cov (self : Kalman_filter) : mat5 :=
  madd (measurement_cov self)
       (dot (measurement_effect self)
            (dot (previous_cov self) (transpose (measurement_effect self)))).

(** The value [state_update] binds to [kalman_gain], given the inverse of
    [cov_Y]. *)
Definition gain (self : Kalman_filter) (cov_Y_inv : mat5) : mat5 :=
  dot (previous_cov self) (dot (transpose (measurement_effect self)) cov_Y_inv).

(** [Kalman_filter.state_update], with [linalg_inv] for the routine it
    calls as [np.linalg.inv]. *)
Definition state_update_with (linalg_inv : mat5 -> result mat5) (index : nat) : Method unit :=
  predicted_state ← model_predict index;
  self ← get_self;
  '(measurement_readings, measurement_variance) ← lift (fuse_readings self index);
  let predicted_distribution_Y := dotv (measurement_effect self) predicted_state in
  let cov_Y := innovation_cov self in
  cov_Y_inv ← lift (linalg_inv cov_Y);
  let kalman_gain := gain self cov_Y_inv in
  state_append
    (vadd predicted_state
          (dotv kalman_gain (vsub measurement_readings predicted_distribution_Y)));;
  self ← get_self;
  set_previous_cov
    (msub (previous_cov self) (dot kalman_gain (dot cov_Y (transpose kalman_gain)))).

(** [Kalman_filter.state_update] on real numbers: the routine is [inv]. *)
Definition state_update (index : nat) : Method unit := state_update_with inv index.

(** [for index in indices: body(index)]. *)
Fixpoint for_each (indices : list nat) (body : nat -> Method unit) : Method unit :=
  match indices with
  | [] => mret ()
  | index :: rest => body index;; for_each rest body
  end.

(** [Kalman_filter.run], with [linalg_inv] for [np.linalg.inv]. *)
Definition run_with (linalg_inv : mat5 -> result mat5) : Method unit :=
  self ← get_self;
  for_each (seq 0 (length (time self))) (state_update_with linalg_inv).

(** [Kalman_filter.run] on real numbers. *)
Definition run : Method unit := run_with inv.

(** ** The figures *)

(** [arr[:, j]], as the list of its entries. *)
Definition column (arr : array) (j : nat) : result (list R) :=
  if decide (j < width arr)%nat
  then Ok ((fun r => default 0 (r !! j)) <$> arr)
  else Raise IndexError.

(** The series [show_plot] hands to [plt.plot]: abscissas and ordinates of
    the GPS, odometry and filter positions of figure 1 and of the IMU,
    odometry and filter headings of figure 2. *)
Record plot_data : Type := PlotData {
  plot_gps : list R * list R;
  plot_odometry : list R * list R;
  plot_kalman : list R * list R;
  plot_imu_heading : list nat * list R;
  plot_odometry_heading : list nat * list R;
  plot_kalman_heading : list nat * list R
}.

(** [Kalman_filter.show_plot], up to the drawing itself. *)
Definition show_plot (self : Kalman_filter) : result plot_data :=
  gx ← column (gps self) 0;
  gy ← column (gps self) 1;
  ox ← column (odometry self) 0;
  oy ← column (odometry self) 1;
  let x_state := (fun item => vget item I0) <$> state self in
  let y_state := (fun item => vget item I1) <$> state self in
  it ← column (imu self) 0;
  ot ← column (odometry self) 2;
  let heading_state := (fun item => vget item I3) <$> state self in
  Ok (PlotData (gx, gy) (ox, oy) (x_state, y_state)
        (seq 0 (length (imu self)), it)
        (seq 0 (length (odometry self)), ot)
        (seq 0 (length heading_state), heading_state)).

(** ** What the constructor fixes *)

(** The attributes that no method assigns after the constructor. *)
Definition same_configuration (self self' : Kalman_filter) : Prop :=
  wheel_distance self' = wheel_distance self /\
  delta_t self' = delta_t self /\
  velocity self' = velocity self /\
  input_effect self' = input_effect self /\
  control_input self' = control_input self /\
  process_noise self' = process_noise self /\
  measurement_effect self' = measurement_effect self /\
  measurement_cov self' = measurement_cov self /\
  time self' = time self /\
  odometry self' = odometry self /\
  imu self' = imu self /\
  imu_cov self' = imu_cov self /\
  gps self' = gps self /\
  gps_cov self' = gps_cov self.

(** The values the constructor gives to the model matrices: identity input
    and measurement effects, zero control input, and process noise and
    measurement covariance that are multiples of the identity. *)
Definition constructed (self : Kalman_filter) : Prop :=
  input_effect self = identity /\
  control_input self = vzero /\
  measurement_effect self = identity /\
  (exists q, process_noise self = mscale identity q) /\
  (exists m, measurement_cov self = mscale identity m).

(** The shape of the arrays after loading a file of at least one line: as
    many rows as [time], of the widths [get_data] builds; and a history that
    is not empty. *)
Definition rows_of_width (k : nat) (arr : array) : Prop :=
  Forall (fun r => length r = k) arr.

Definition loaded (self : Kalman_filter) : Prop :=
  (rows_of_width 3 (odometry self) /\ length (odometry self) = length (time self)) /\
  (rows_of_width 1 (imu self) /\ length (imu self) = length (time self)) /\
  (rows_of_width 1 (imu_cov self) /\ length (imu_cov self) = length (time self)) /\
  (rows_of_width 2 (gps self) /\ length (gps self) = length (time self)) /\
  (rows_of_width 2 (gps_cov self) /\ length (gps_cov self) = length (time self)) /\
  state self <> [].

(** The mean and the covariance the composer returns for the readings of one
    timestep. *)
Definition composed_mean (self : Kalman_filter) (ox oy ot it gx gy gcx gcy ict : R) : vec5 :=
  Vec5 (fst (fuse ox gx (mget (measurement_cov self) I0 I0) gcx))
       (fst (fuse oy gy (mget (measurement_cov self) I1 I1) gcy))
       (velocity self)
       (fst (fuse ot it (mget (measurement_cov self) I2 I2) ict))
       (velocity self * tan (radians ot) / wheel_distance self).

Definition composed_cov (self : Kalman_filter) (ox oy ot it gx gy gcx gcy ict : R) : mat5 :=
  Mat5 (Vec5 (snd (fuse ox gx (mget (measurement_cov self) I0 I0) gcx)) 0 0 0 0)
       (Vec5 0 (snd (fuse oy gy (mget (measurement_cov self) I1 I1) gcy)) 0 0 0)
       (Vec5 0 0 (mget (measurement_cov self) I2 I2) 0 0)
       (Vec5 0 0 0 (snd (fuse ot it (mget (measurement_cov self) I2 I2) ict)) 0)
       (Vec5 0 0 0 0 (mget (measurement_cov self) I4 I4)).

(** ** Malformed lines *)

(** The ten fields [get_data] reads from every line. *)
Definition field_names : list string :=
  [time_index; odometer_x; odometer_y; odometer_theta; imu_theta; imu_cov_theta;
   gps_x; gps_y; gps_cov_x; gps_cov_y].

(** A field is malformed when the header lacks it, when the line is too
    short to hold it, or when [float()] rejects its text: the text is
    neither a decimal numeral nor one of [inf], [infinity] and [nan]. *)
Definition malformed_field (line : csv_line) (key : string) : Prop :=
  match line !! key with
  | None => True
  | Some None => True
  | Some (Some text) => float_literal text = None /\ nonfinite_literal text = false
  end.

Definition malformed_line (line : csv_line) : Prop :=
  exists key, key ∈ field_names /\ malformed_field line key.

(** The exceptions of [float(line[key])]. *)
Definition load_error (e : exn) : Prop :=
  match e with
  | KeyError _ | TypeError | ValueError _ => True
  | IndexError | LinAlgError => False
  end.

(** The six lists [get_data] builds from a file without malformed line: one
    row per line, in the order of the file, of the widths 1, 3, 1, 1, 2, 2;
    the time and the GPS covariances are those of the line. *)
Definition read_from (file : list csv_line) (t o i ic g gc : array) : Prop :=
  Forall2 (fun line r => exists v, field line time_index = Ok v /\ r = [v]) file t /\
  Forall2 (fun line r => exists a b, field line gps_cov_x = Ok a /\
                                     field line gps_cov_y = Ok b /\ r = [a; b]) file gc /\
  (rows_of_width 3 o /\ length o = length file) /\
  (rows_of_width 1 i /\ length i = length file) /\
  (rows_of_width 1 ic /\ length ic = length file) /\
  (rows_of_width 2 g /\ length g = length file).

(** ** A data file of three timesteps *)

(** One line of the file, from the texts of its ten cells. *)
Definition scenario_line (t ox oy ot it ict gx gy gcx gcy : string) : csv_line :=
  list_to_map
    [(time_index, Some t); (odometer_x, Some ox); (odometer_y, Some oy);
     (odometer_theta, Some ot); (imu_theta, Some it); (imu_cov_theta, Some ict);
     (gps_x, Some gx); (gps_y, Some gy); (gps_cov_x, Some gcx); (gps_cov_y, Some gcy)].

(** The odometry moves along x with heading 0, the GPS agrees with it, and
    the reported variances are all 0.01. *)
Definition scenario_file : list csv_line :=
  [scenario_line "0" "0" "0" "0" "0" "0.01" "0" "0" "0.01" "0.01";
   scenario_line "1" "1" "0" "0" "0" "0.01" "1" "0" "0.01" "0.01";
   scenario_line "2" "2" "0" "0" "0" "0.01" "2" "0" "0.01" "0.01"].

(** The object the constructor builds from that file, for the three scales
    and the GPS covariances [gcx] and [gcy] of every row. *)
Definition scenario_filter (process_noise_val measurement_cov_val previous_cov_val gcx gcy : R)
  : Kalman_filter :=
  {| wheel_distance := 1;
     delta_t := 0.001;
     velocity := 0.14;
     input_effect := identity;
     control_input := vzero;
     process_noise := mscale identity process_noise_val;
     measurement_effect := identity;
     measurement_cov := mscale identity measurement_cov_val;
     previous_cov := mscale identity previous_cov_val;
     time := [[0]; [1]; [2]];
     odometry := [[0; 0; 0]; [1; 0; 0]; [2; 0; 0]];
     imu := [[0]; [0]; [0]];
     imu_cov := [[0.01]; [0.01]; [0.01]];
     gps := [[0; 0]; [1; 0]; [2; 0]];
     gps_cov := [[gcx; gcy]; [gcx; gcy]; [gcx; gcy]];
     state := [vzero] |}.

(** Two lines with the timesteps 2 and 0: index 1 is missing and the order
    is not that of time. *)
Definition unordered_file : list csv_line :=
  [scenario_line "2" "2" "0" "0" "0" "0.01" "2" "0" "0.01" "0.01";
   scenario_line "0" "0" "0" "0" "0" "0.01" "0" "0" "0.01" "0.01"].

(** A file whose second line holds a text that is not a number. *)
Definition malformed_file : list csv_line :=
  [scenario_line "0" "0" "0" "0" "0" "0.01" "0" "0" "0.01" "0.01";
   scenario_line "1" "abc" "0" "0" "0" "0.01" "1" "0" "0.01" "0.01"].

(** A file whose first line holds the texts [inf] and [NaN], which [float]
    reads, before a line with a text that is not a number. *)
Definition nonfinite_file : list csv_line :=
  [scenario_line "0" "0" "0" "0" "0" "0.01" "inf" "NaN" "0.01" "0.01";
   scenario_line "1" "abc" "0" "0" "0" "0.01" "1" "0" "0.01" "0.01"].

(** ** The inversion in floating point *)






(** ** The specification's reading of the same quantities *)

(** The fused mean and deviation in the specification's words, with the
    floor [eps] of the variances left open. *)
Definition fuse_floored (eps m1 m2 sigma1 sigma2 : R) : R * R :=
  let v1 := Rmax (sigma1 ^ 2) eps in
  let v2 := Rmax (sigma2 ^ 2) eps in
  ((m1 / v1 + m2 / v2) / (1 / v1 + 1 / v2), sqrt (/ (1 / v1 + 1 / v2))).

(** The smallest positive values of the two numpy float types: the least
    subnormal of [float32] and of [float64]. *)
Definition float32_smallest_positive : R := / 2 ^ 149.
Definition float64_smallest_positive : R := / 2 ^ 1074.

(** The innovation covariance in the specification's words: the covariance
    [R] composed by the measurement composer, plus [H * cov_pred * H^T]. *)
Definition composed_innovation_cov (self : Kalman_filter) (R : mat5) : mat5 :=
  madd R
       (dot (measurement_effect self)
            (dot (previous_cov self) (transpose (measurement_effect self)))).

(** * Properties *)

(** ** Matrix algebra *)

Ltac destruct_vec v :=
  let a := fresh v "0" in let b := fresh v "1" in let c := fresh v "2" in
  let d := fresh v "3" in let e := fresh v "4" in
  destruct v as [a b c d e].

Ltac destruct_mat m :=
  let a := fresh m "0" in let b := fresh m "1" in let c := fresh m "2" in
  let d := fresh m "3" in let e := fresh m "4" in
  destruct m as [a b c d e];
  destruct_vec a; destruct_vec b; destruct_vec c; destruct_vec d; destruct_vec e.

Ltac mat_unfold :=
  cbv [dot dotv madd msub vadd vsub mscale transpose identity vzero set_diag vset diag
       mk_mat mk_vec sum5 mget vget row ix_eqb andb
       c0 c1 c2 c3 c4 r0 r1 r2 r3 r4 transition].

(** Two matrices (or vectors) built from equal entries are equal. *)
Ltac mat_eq :=
  mat_unfold;
  repeat match goal with
    | |- Mat5 _ _ _ _ _ = Mat5 _ _ _ _ _ => f_equal
    | |- Vec5 _ _ _ _ _ = Vec5 _ _ _ _ _ => f_equal
    end;
  try ring.

Lemma dot_identity_l (m : mat5) : dot identity m = m.
Proof. destruct_mat m. mat_eq. Qed.

Lemma dot_identity_r (m : mat5) : dot m identity = m.
Proof. destruct_mat m. mat_eq. Qed.

Lemma dotv_identity (v : vec5) : dotv identity v = v.
Proof. destruct_vec v. mat_eq. Qed.

Lemma dotv_vzero (m : mat5) : dotv m vzero = vzero.
Proof. destruct_mat m. mat_eq. Qed.

Lemma vadd_vzero_r (v : vec5) : vadd v vzero = v.
Proof. destruct_vec v. mat_eq. Qed.

Lemma transpose_identity : transpose identity = identity.
Proof. reflexivity. Qed.

Lemma transpose_involutive (m : mat5) : transpose (transpose m) = m.
Proof. destruct_mat m. reflexivity. Qed.

Lemma transpose_dot (a b : mat5) : transpose (dot a b) = dot (transpose b) (transpose a).
Proof. destruct_mat a. destruct_mat b. mat_eq. Qed.

Lemma transpose_madd (a b : mat5) : transpose (madd a b) = madd (transpose a) (transpose b).
Proof. destruct_mat a. destruct_mat b. reflexivity. Qed.

Lemma transpose_msub (a b : mat5) : transpose (msub a b) = msub (transpose a) (transpose b).
Proof. destruct_mat a. destruct_mat b. reflexivity. Qed.

Lemma transpose_mscale (m : mat5) (val : R) : transpose (mscale m val) = mscale (transpose m) val.
Proof. destruct_mat m. reflexivity. Qed.

Lemma dot_assoc (a b c : mat5) : dot (dot a b) c = dot a (dot b c).
Proof. destruct_mat a. destruct_mat b. destruct_mat c. mat_eq. Qed.

Lemma madd_zero_l (m : mat5) : madd (mscale identity 0) m = m.
Proof. destruct_mat m. mat_eq. Qed.

Lemma msub_self (m : mat5) : msub m m = mscale identity 0.
Proof. destruct_mat m. mat_eq. Qed.

Lemma vadd_vsub (a z : vec5) : vadd a (vsub z a) = z.
Proof. destruct_vec a. destruct_vec z. mat_eq. Qed.

Lemma unit_prediction (F : mat5) :
  madd (dot F (dot (mscale identity 0) (transpose F))) (mscale identity 1) = identity.
Proof. destruct_mat F. mat_eq. Qed.

(** ** [np.linalg.inv] *)

Lemma inv_Ok (m b : mat5) : inv m = Ok b -> dot m b = identity /\ dot b m = identity.
Proof.
  unfold inv. destruct (excluded_middle_informative (invertible m)) as [H|H]; [|discriminate].
  intros [= <-]. exact (proj2_sig (constructive_indefinite_description _ H)).
Qed.

Lemma inv_singular (m : mat5) : ~ invertible m -> inv m = Raise LinAlgError.
Proof.
  intros H. unfold inv. destruct (excluded_middle_informative (invertible m)); [contradiction|reflexivity].
Qed.

Lemma inv_Raise (m : mat5) (e : exn) : inv m = Raise e -> e = LinAlgError /\ ~ invertible m.
Proof.
  unfold inv. destruct (excluded_middle_informative (invertible m)) as [H|H]; [discriminate|].
  intros [= <-]. split; [reflexivity|assumption].
Qed.

(** A matrix has at most one inverse, so [inv] returns it. *)
Lemma inv_unique (m b : mat5) : dot m b = identity -> dot b m = identity -> inv m = Ok b.
Proof.
  intros Hr Hl. destruct (inv m) as [b'|e] eqn:E.
  - apply inv_Ok in E as [Hr' Hl']. f_equal.
    rewrite <- (dot_identity_r b'), <- Hr, <- dot_assoc, Hl'. apply dot_identity_l.
  - apply inv_Raise in E as [_ H]. exfalso. apply H. exists b. split; assumption.
Qed.

Lemma inv_total (m : mat5) :
  (exists b, inv m = Ok b /\ dot m b = identity /\ dot b m = identity)
  \/ (inv m = Raise LinAlgError /\ ~ invertible m).
Proof.
  destruct (inv m) as [b|e] eqn:E.
  - left. exists b. split; [reflexivity|]. apply inv_Ok, E.
  - right. apply inv_Raise in E as [-> H]. split; [reflexivity|assumption].
Qed.

(** ** The fusion primitive *)

Lemma float32_eps_pos : 0 < float32_eps.
Proof. unfold float32_eps. lra. Qed.

Lemma floor_pos (x : R) : 0 < Rmax x float32_eps.
Proof. pose proof (Rmax_r x float32_eps). pose proof float32_eps_pos. lra. Qed.

Lemma precision_pos (x : R) : 0 < 1 / Rmax x float32_eps.
Proof. unfold Rdiv. rewrite Rmult_1_l. apply Rinv_0_lt_compat, floor_pos. Qed.

(** [x ** (-.5)] on a positive [x]. *)
Lemma Rpower_neg_half (x : R) : 0 < x -> Rpower x (- 0.5) = / sqrt x.
Proof.
  intros Hx. replace (- 0.5) with (- / 2) by lra.
  rewrite Rpower_Ropp, Rpower_sqrt by assumption. reflexivity.
Qed.

(** The code against the specification's formulas, at the floor of the code. *)
Lemma fuse_floored_eps (m1 m2 sigma1 sigma2 : R) :
  fuse m1 m2 sigma1 sigma2 = fuse_floored float32_eps m1 m2 sigma1 sigma2.
Proof.
  unfold fuse, fuse_floored. f_equal.
  rewrite Rpower_neg_half, sqrt_inv; [reflexivity|].
  pose proof (precision_pos (sigma1 ^ 2)). pose proof (precision_pos (sigma2 ^ 2)). lra.
Qed.

(** The square root of a floored variance is the floored deviation. *)
Lemma sqrt_floor (sigma : R) :
  0 <= sigma -> sqrt (Rmax (sigma ^ 2) float32_eps) = Rmax sigma (sqrt float32_eps).
Proof.
  intros Hs. pose proof float32_eps_pos as He.
  destruct (Rle_dec (sigma ^ 2) float32_eps) as [Hle|Hgt].
  - rewrite (Rmax_right _ _ Hle). rewrite Rmax_right; [reflexivity|].
    rewrite <- (sqrt_pow2 sigma Hs) at 1. apply sqrt_le_1_alt, Hle.
  - assert (float32_eps <= sigma ^ 2) as Hle by lra.
    rewrite (Rmax_left _ _ Hle). rewrite Rmax_left; [apply sqrt_pow2, Hs|].
    rewrite <- (sqrt_pow2 sigma Hs) at 1. apply sqrt_le_1_alt, Hle.
Qed.

(** A precision-weighted mean lies between the two means. *)
Lemma weighted_mean_bounds (m1 m2 a b : R) :
  0 < a -> 0 < b ->
  Rmin m1 m2 <= (m1 * a + m2 * b) / (a + b) <= Rmax m1 m2.
Proof.
  intros Ha Hb.
  assert (0 < a + b) as Hab by lra.
  assert ((m1 * a + m2 * b) / (a + b) = m1 + (m2 - m1) * (b / (a + b))) as E1 by (field; lra).
  assert ((m1 * a + m2 * b) / (a + b) = m2 + (m1 - m2) * (a / (a + b))) as E2 by (field; lra).
  assert (0 < a / (a + b)) as Hqa by (apply Rdiv_lt_0_compat; lra).
  assert (0 < b / (a + b)) as Hqb by (apply Rdiv_lt_0_compat; lra).
  destruct (Rle_dec m1 m2) as [Hle|Hgt].
  - rewrite (Rmin_left _ _ Hle), (Rmax_right _ _ Hle). split.
    + rewrite E1. nra.
    + rewrite E2. nra.
  - assert (m2 <= m1) as Hle by lra.
    rewrite (Rmin_right _ _ Hle), (Rmax_left _ _ Hle). split.
    + rewrite E2. nra.
    + rewrite E1. nra.
Qed.

(** The fused deviation is at most the square root of either floored variance. *)
Lemma fused_deviation_le (v1 v2 : R) :
  0 < v1 -> 0 < v2 -> sqrt (/ (1 / v1 + 1 / v2)) <= sqrt v1.
Proof.
  intros H1 H2. apply sqrt_le_1_alt.
  assert (0 < / v2) by (apply Rinv_0_lt_compat; assumption).
  assert (0 < / v1) by (apply Rinv_0_lt_compat; assumption).
  rewrite <- (Rinv_inv v1) at 2. apply Rinv_le_contravar; lra.
Qed.

(** C3 (as amended). For every two means and every two deviations, zero
    included, [fuse] returns the mean [(m1/v1 + m2/v2) / (1/v1 + 1/v2)] and
    the deviation [sqrt ((1/v1 + 1/v2)^(-1))], where [v1] and [v2] are the
    squared deviations floored at the float32 machine epsilon [2^(-23)]; the
    three divisors are positive, so no division by zero occurs. *)
Theorem fuse_formulas (m1 m2 sigma1 sigma2 : R) :
  let v1 := Rmax (sigma1 ^ 2) float32_eps in
  let v2 := Rmax (sigma2 ^ 2) float32_eps in
  float32_eps = / 2 ^ 23 /\
  Rmax (0 ^ 2) float32_eps = float32_eps /\
  0 < v1 /\ 0 < v2 /\ 0 < 1 / v1 + 1 / v2 /\
  fuse m1 m2 sigma1 sigma2
  = ((m1 / v1 + m2 / v2) / (1 / v1 + 1 / v2), sqrt (/ (1 / v1 + 1 / v2))).
Proof.
  intros v1 v2. subst v1 v2.
  pose proof (precision_pos (sigma1 ^ 2)). pose proof (precision_pos (sigma2 ^ 2)).
  repeat split.
  - apply Rmax_right. pose proof float32_eps_pos. lra.
  - apply floor_pos.
  - apply floor_pos.
  - lra.
  - apply fuse_floored_eps.
Qed.

(** With a deviation of [10^(-6)] the floor of the code and any floor of at
    most [10^(-12)] give different means. *)
Lemma fuse_floor_matters (eps : R) :
  0 < eps <= 1e-12 -> fuse 0 1 1 1e-6 <> fuse_floored eps 0 1 1 1e-6.
Proof.
  intros [Hpos Hle] E. apply (f_equal fst) in E. revert E.
  unfold fuse, fuse_floored, fst.
  replace (1e-6 ^ 2) with 1e-12 by lra.
  rewrite (Rmax_right 1e-12 float32_eps) by (unfold float32_eps; lra).
  rewrite (Rmax_left 1e-12 eps) by lra.
  rewrite (Rmax_left (1 ^ 2) float32_eps) by (unfold float32_eps; lra).
  rewrite (Rmax_left (1 ^ 2) eps) by lra.
  unfold float32_eps. lra.
Qed.

Lemma smallest_positive_small (n : nat) : (40 <= n)%nat -> 0 < / 2 ^ n <= 1e-12.
Proof.
  intros Hn. split.
  - apply Rinv_0_lt_compat, pow_lt. lra.
  - apply Rle_trans with (/ 2 ^ 40); [|lra].
    apply Rinv_le_contravar; [apply pow_lt; lra|].
    apply Rle_pow; [lra|assumption].
Qed.

(** C3 (counterexample). The floor of [fuse] is not the smallest positive
    float: that value is smaller, for float32 and for float64, and flooring
    there gives another mean than [fuse] for the means 0 and 1 and the
    deviations 1 and [10^(-6)]. *)
Lemma fuse_floor_not_smallest_positive :
  float32_smallest_positive < float32_eps /\
  float64_smallest_positive < float32_eps /\
  fuse 0 1 1 1e-6 <> fuse_floored float32_smallest_positive 0 1 1 1e-6 /\
  fuse 0 1 1 1e-6 <> fuse_floored float64_smallest_positive 0 1 1 1e-6.
Proof.
  pose proof (smallest_positive_small 149 ltac:(lia)) as H32.
  pose proof (smallest_positive_small 1074 ltac:(lia)) as H64.
  unfold float32_smallest_positive, float64_smallest_positive.
  repeat split.
  - unfold float32_eps. lra.
  - unfold float32_eps. lra.
  - apply fuse_floor_matters, H32.
  - apply fuse_floor_matters, H64.
Qed.

(** C4 (as amended). For strictly positive deviations the fused mean lies
    between the two means, and the fused deviation is at most the smaller of
    the two deviations once each is floored at [sqrt eps]; it is at most
    [min sigma1 sigma2] when both squared deviations are at least [eps]. *)
Theorem fuse_bounds (m1 m2 sigma1 sigma2 : R) :
  0 < sigma1 -> 0 < sigma2 ->
  Rmin m1 m2 <= fst (fuse m1 m2 sigma1 sigma2) <= Rmax m1 m2 /\
  snd (fuse m1 m2 sigma1 sigma2)
    <= Rmin (Rmax sigma1 (sqrt float32_eps)) (Rmax sigma2 (sqrt float32_eps)) /\
  (float32_eps <= sigma1 ^ 2 -> float32_eps <= sigma2 ^ 2 ->
   snd (fuse m1 m2 sigma1 sigma2) <= Rmin sigma1 sigma2).
Proof.
  intros H1 H2. rewrite fuse_floored_eps. unfold fuse_floored, fst, snd.
  set (v1 := Rmax (sigma1 ^ 2) float32_eps). set (v2 := Rmax (sigma2 ^ 2) float32_eps).
  assert (0 < v1) as Hv1 by apply floor_pos.
  assert (0 < v2) as Hv2 by apply floor_pos.
  assert (sqrt (/ (1 / v1 + 1 / v2)) <= Rmax sigma1 (sqrt float32_eps)) as B1.
  { rewrite <- sqrt_floor by lra. apply fused_deviation_le; assumption. }
  assert (sqrt (/ (1 / v1 + 1 / v2)) <= Rmax sigma2 (sqrt float32_eps)) as B2.
  { rewrite <- sqrt_floor by lra. rewrite (Rplus_comm (1 / v1)).
    apply fused_deviation_le; assumption. }
  split; [|split].
  - replace (m1 / v1 + m2 / v2) with (m1 * (1 / v1) + m2 * (1 / v2)) by (field; lra).
    apply weighted_mean_bounds; apply precision_pos.
  - apply Rmin_glb; assumption.
  - intros E1 E2. apply Rmin_glb.
    + rewrite <- (sqrt_pow2 sigma1) by lra. rewrite <- (Rmax_left _ _ E1).
      apply fused_deviation_le; assumption.
    + rewrite <- (sqrt_pow2 sigma2) by lra. rewrite <- (Rmax_left _ _ E2).
      rewrite (Rplus_comm (1 / v1)). apply fused_deviation_le; assumption.
Qed.

Lemma fuse_bounds_witness :
  0 < 1 /\ 0 < 2 /\
  Rmin 0 1 <= fst (fuse 0 1 1 2) <= Rmax 0 1 /\
  snd (fuse 0 1 1 2) <= Rmin (Rmax 1 (sqrt float32_eps)) (Rmax 2 (sqrt float32_eps)) /\
  (float32_eps <= 1 ^ 2 -> float32_eps <= 2 ^ 2 -> snd (fuse 0 1 1 2) <= Rmin 1 2).
Proof.
  split; [lra|]. split; [lra|]. apply (fuse_bounds 0 1 1 2); lra.
Defined.

(** C4 (counterexample). Two deviations of [10^(-6)] are strictly positive,
    and their fused deviation [2^(-12)] exceeds them. *)
Lemma fuse_deviation_above_min :
  0 < 1e-6 /\ snd (fuse 0 0 1e-6 1e-6) = / 2 ^ 12 /\
  ~ snd (fuse 0 0 1e-6 1e-6) <= Rmin 1e-6 1e-6.
Proof.
  assert (snd (fuse 0 0 1e-6 1e-6) = / 2 ^ 12) as E.
  { rewrite fuse_floored_eps. unfold fuse_floored, snd.
    replace (1e-6 ^ 2) with 1e-12 by lra.
    rewrite (Rmax_right 1e-12 float32_eps) by (unfold float32_eps; lra).
    unfold float32_eps.
    replace (/ (1 / / 2 ^ 23 + 1 / / 2 ^ 23)) with ((/ 2 ^ 12) ^ 2) by lra.
    apply sqrt_pow2. lra. }
  split; [lra|]. split; [exact E|].
  rewrite E, Rmin_left by lra. lra.
Qed.

(** ** Running the methods *)

Lemma bind_Ok {A B : Type} (m : Method A) (f : A -> Method B) (self self' : Kalman_filter) (a : A) :
  m self = (self', Ok a) -> (m ≫= f) self = f a self'.
Proof. intros E. unfold mbind, method_bind. rewrite E. reflexivity. Qed.

Lemma bind_Raise {A B : Type} (m : Method A) (f : A -> Method B) (self self' : Kalman_filter) (e : exn) :
  m self = (self', Raise e) -> (m ≫= f) self = (self', Raise e).
Proof. intros E. unfold mbind, method_bind. rewrite E. reflexivity. Qed.

(** The composer reads neither [previous_cov] nor [state]. *)
Lemma fuse_readings_with_previous_cov (self : Kalman_filter) (cov : mat5) (index : nat) :
  fuse_readings (with_previous_cov self cov) index = fuse_readings self index.
Proof. reflexivity. Qed.

Lemma same_configuration_refl (self : Kalman_filter) : same_configuration self self.
Proof. repeat split. Qed.

Lemma same_configuration_trans (a b c : Kalman_filter) :
  same_configuration a b -> same_configuration b c -> same_configuration a c.
Proof. unfold same_configuration. intros H1 H2. intuition congruence. Qed.

Lemma constructed_same_configuration (self self' : Kalman_filter) :
  same_configuration self self' -> constructed self -> constructed self'.
Proof.
  unfold same_configuration, constructed.
  intros (_ & _ & _ & -> & -> & -> & -> & -> & _). tauto.
Qed.

(** [model_predict], case by case. *)
Lemma model_predict_eq (self : Kalman_filter) (index : nat) :
  model_predict index self =
  match at2 (odometry self) index 2 with
  | Raise e => (self, Raise e)
  | Ok theta =>
      let F := transition (delta_t self) theta in
      let self' :=
        with_previous_cov self
          (madd (dot F (dot (previous_cov self) (transpose F))) (process_noise self)) in
      match last (state self) with
      | None => (self', Raise IndexError)
      | Some x => (self', Ok (vadd (dotv F x) (dotv (input_effect self) (control_input self))))
      end
  end.
Proof.
  unfold model_predict, mbind, method_bind, get_self, lift, set_previous_cov, mret, method_ret.
  destruct (at2 (odometry self) index 2) as [theta|e]; [|reflexivity].
  cbn. destruct (last (state self)); reflexivity.
Qed.

(** [state_update], case by case, after a prediction that succeeds. *)
Lemma state_update_with_eq (linalg_inv : mat5 -> result mat5) (self self1 : Kalman_filter)
    (index : nat) (x_pred : vec5) :
  model_predict index self = (self1, Ok x_pred) ->
  state_update_with linalg_inv index self =
  match fuse_readings self1 index with
  | Raise e => (self1, Raise e)
  | Ok (z, _) =>
      match linalg_inv (innovation_cov self1) with
      | Raise e => (self1, Raise e)
      | Ok cov_Y_inv =>
          let K := gain self1 cov_Y_inv in
          (with_previous_cov
             (with_state self1
                (state self1 ++
                 [vadd x_pred (dotv K (vsub z (dotv (measurement_effect self1) x_pred)))]))
             (msub (previous_cov self1)
                (dot K (dot (innovation_cov self1) (transpose K)))),
           Ok ())
      end
  end.
Proof.
  intros E. unfold state_update_with. rewrite (bind_Ok _ _ _ _ _ E).
  unfold mbind, method_bind, get_self, lift, state_append, set_previous_cov.
  destruct (fuse_readings self1 index) as [[z Rm]|e]; [|reflexivity].
  destruct (linalg_inv (innovation_cov self1)); reflexivity.
Qed.

Lemma state_update_eq (self self1 : Kalman_filter) (index : nat) (x_pred : vec5) :
  model_predict index self = (self1, Ok x_pred) ->
  state_update index self =
  match fuse_readings self1 index with
  | Raise e => (self1, Raise e)
  | Ok (z, _) =>
      match inv (innovation_cov self1) with
      | Raise e => (self1, Raise e)
      | Ok cov_Y_inv =>
          let K := gain self1 cov_Y_inv in
          (with_previous_cov
             (with_state self1
                (state self1 ++
                 [vadd x_pred (dotv K (vsub z (dotv (measurement_effect self1) x_pred)))]))
             (msub (previous_cov self1)
                (dot K (dot (innovation_cov self1) (transpose K)))),
           Ok ())
      end
  end.
Proof. apply state_update_with_eq. Qed.

Lemma state_update_with_predict_fails (linalg_inv : mat5 -> result mat5)
    (self self1 : Kalman_filter) (index : nat) (e : exn) :
  model_predict index self = (self1, Raise e) ->
  state_update_with linalg_inv index self = (self1, Raise e).
Proof. intros E. unfold state_update_with. apply bind_Raise, E. Qed.

Lemma state_update_predict_fails (self self1 : Kalman_filter) (index : nat) (e : exn) :
  model_predict index self = (self1, Raise e) ->
  state_update index self = (self1, Raise e).
Proof. apply state_update_with_predict_fails. Qed.

(** ** Array accesses *)

Lemma at2_Ok (arr : array) (i j : nat) (r : list R) (v : R) :
  arr !! i = Some r -> r !! j = Some v -> at2 arr i j = Ok v.
Proof. intros Hi Hj. unfold at2. rewrite Hi. cbn. rewrite Hj. reflexivity. Qed.

Lemma at2_inv (arr : array) (i j : nat) (v : R) :
  at2 arr i j = Ok v -> exists r, arr !! i = Some r /\ r !! j = Some v.
Proof.
  unfold at2. destruct (arr !! i) as [r|]; [|discriminate]. cbn.
  destruct (r !! j) as [w|] eqn:E; [|discriminate]. intros [= <-]. eauto.
Qed.

Lemma at2_Raise (arr : array) (i j : nat) (e : exn) : at2 arr i j = Raise e -> e = IndexError.
Proof.
  unfold at2. destruct (arr !! i ≫= (.!! j)); [discriminate|]. cbn. congruence.
Qed.

(** A row of a rectangular array, inside its bounds. *)
Lemma row_of_width (k : nat) (arr : array) (i : nat) :
  rows_of_width k arr -> (i < length arr)%nat ->
  exists r, arr !! i = Some r /\ length r = k.
Proof.
  intros Hw Hi. destruct (lookup_lt_is_Some_2 arr i Hi) as [r Hr].
  exists r. split; [assumption|].
  eapply (proj1 (Forall_lookup _ _) Hw); eassumption.
Qed.

Lemma row_of_width_3 (arr : array) (i : nat) :
  rows_of_width 3 arr -> (i < length arr)%nat ->
  exists a b c, arr !! i = Some [a; b; c].
Proof.
  intros Hw Hi. destruct (row_of_width _ _ _ Hw Hi) as ([|a [|b [|c [|? ?]]]] & Hr & Hl);
    try discriminate. eauto.
Qed.

Lemma row_of_width_2 (arr : array) (i : nat) :
  rows_of_width 2 arr -> (i < length arr)%nat ->
  exists a b, arr !! i = Some [a; b].
Proof.
  intros Hw Hi. destruct (row_of_width _ _ _ Hw Hi) as ([|a [|b [|? ?]]] & Hr & Hl);
    try discriminate. eauto.
Qed.

Lemma row_of_width_1 (arr : array) (i : nat) :
  rows_of_width 1 arr -> (i < length arr)%nat ->
  exists a, arr !! i = Some [a].
Proof.
  intros Hw Hi. destruct (row_of_width _ _ _ Hw Hi) as ([|a [|? ?]] & Hr & Hl);
    try discriminate. eauto.
Qed.

(** ** The measurement composer *)

(** The composer on the rows of one timestep. *)
Lemma fuse_readings_rows (self : Kalman_filter) (index : nat)
    (ox oy ot it ict gx gy gcx gcy : R) :
  odometry self !! index = Some [ox; oy; ot] ->
  imu self !! index = Some [it] ->
  imu_cov self !! index = Some [ict] ->
  gps self !! index = Some [gx; gy] ->
  gps_cov self !! index = Some [gcx; gcy] ->
  fuse_readings self index
  = Ok (composed_mean self ox oy ot it gx gy gcx gcy ict,
        composed_cov self ox oy ot it gx gy gcx gcy ict).
Proof.
  intros Ho Hi Hic Hg Hgc. unfold fuse_readings.
  rewrite (at2_Ok _ index 0 _ ox Ho), (at2_Ok _ index 1 _ oy Ho), (at2_Ok _ index 2 _ ot Ho)
    by reflexivity.
  rewrite (at2_Ok _ index 0 _ gx Hg), (at2_Ok _ index 1 _ gy Hg) by reflexivity.
  rewrite (at2_Ok _ index 0 _ gcx Hgc), (at2_Ok _ index 1 _ gcy Hgc) by reflexivity.
  rewrite (at2_Ok _ index 0 _ it Hi), (at2_Ok _ index 0 _ ict Hic) by reflexivity.
  reflexivity.
Qed.

(** On a loaded object the composer succeeds at every timestep. *)
Lemma fuse_readings_loaded (self : Kalman_filter) (index : nat) :
  loaded self -> (index < length (time self))%nat ->
  exists ox oy ot it ict gx gy gcx gcy,
    odometry self !! index = Some [ox; oy; ot] /\
    imu self !! index = Some [it] /\
    imu_cov self !! index = Some [ict] /\
    gps self !! index = Some [gx; gy] /\
    gps_cov self !! index = Some [gcx; gcy] /\
    fuse_readings self index
    = Ok (composed_mean self ox oy ot it gx gy gcx gcy ict,
          composed_cov self ox oy ot it gx gy gcx gcy ict).
Proof.
  intros ((Wo & Lo) & (Wi & Li) & (Wic & Lic) & (Wg & Lg) & (Wgc & Lgc) & _) Hi.
  destruct (row_of_width_3 _ index Wo) as (ox & oy & ot & Ho); [lia|].
  destruct (row_of_width_1 _ index Wi) as (it & Hit); [lia|].
  destruct (row_of_width_1 _ index Wic) as (ict & Hict); [lia|].
  destruct (row_of_width_2 _ index Wg) as (gx & gy & Hg); [lia|].
  destruct (row_of_width_2 _ index Wgc) as (gcx & gcy & Hgc); [lia|].
  exists ox, oy, ot, it, ict, gx, gy, gcx, gcy.
  repeat (split; [assumption|]). apply fuse_readings_rows; assumption.
Qed.

(** ** The prediction step *)

Lemma constructed_control_effect (self : Kalman_filter) :
  constructed self -> dotv (input_effect self) (control_input self) = vzero.
Proof. intros (-> & -> & _). apply dotv_vzero. Qed.

Lemma diagonal_mscale_identity (val : R) : diagonal (mscale identity val).
Proof. intros i j H. destruct i, j; try discriminate H; mat_unfold; ring. Qed.

Lemma symmetric_mscale_identity (val : R) : symmetric (mscale identity val).
Proof. reflexivity. Qed.

Lemma constructed_diagonal (self : Kalman_filter) :
  constructed self -> diagonal (process_noise self) /\ diagonal (measurement_cov self).
Proof.
  intros (_ & _ & _ & (q & ->) & (m & ->)). split; apply diagonal_mscale_identity.
Qed.

(** The heading of the odometry and the latest state exist on a loaded object. *)
Lemma loaded_heading (self : Kalman_filter) (index : nat) :
  loaded self -> (index < length (time self))%nat ->
  exists theta previous_state,
    at2 (odometry self) index 2 = Ok theta /\ last (state self) = Some previous_state.
Proof.
  intros ((Wo & Lo) & _ & _ & _ & _ & Hs) Hi.
  destruct (row_of_width_3 _ index Wo) as (ox & oy & ot & Ho); [lia|].
  destruct (last (state self)) as [x|] eqn:E.
  - exists ot, x. split; [|reflexivity]. eapply at2_Ok; [eassumption|reflexivity].
  - apply last_None in E. contradiction.
Qed.

(** [model_predict] changes [previous_cov] at most. *)
Lemma model_predict_frame (self self' : Kalman_filter) (index : nat) (r : result vec5) :
  model_predict index self = (self', r) ->
  same_configuration self self' /\ state self' = state self.
Proof.
  rewrite model_predict_eq.
  destruct (at2 (odometry self) index 2) as [theta|e].
  - cbv zeta. destruct (last (state self)); intros [= <- <-]; (split; [repeat split|reflexivity]).
  - intros [= <- <-]. split; [apply same_configuration_refl|reflexivity].
Qed.

(** C2. At every timestep of a loaded filter, [model_predict] returns
    [F * previous_state + control_effect], where the control input and so the
    control effect are zero, and replaces the covariance with
    [F * previous_cov * F^T + Q], where [Q] is the diagonal process noise and
    [F] is the displayed matrix, whose x-row and y-row both hold
    [delta_t * cos (radians theta)] for the heading [theta] of the odometry. *)
Theorem model_predict_correct (self : Kalman_filter) (index : nat) :
  constructed self -> loaded self -> (index < length (time self))%nat ->
  exists theta previous_state,
    at2 (odometry self) index 2 = Ok theta /\
    last (state self) = Some previous_state /\
    let dt := delta_t self in
    let F := Mat5 (Vec5 1 0 (dt * cos (radians theta)) 0 0)
                  (Vec5 0 1 (dt * cos (radians theta)) 0 0)
                  (Vec5 0 0 1 0 0)
                  (Vec5 0 0 0 1 dt)
                  (Vec5 0 0 0 0 1) in
    let Q := process_noise self in
    let control_effect := dotv (input_effect self) (control_input self) in
    control_input self = vzero /\ control_effect = vzero /\ diagonal Q /\
    model_predict index self
    = (with_previous_cov self (madd (dot F (dot (previous_cov self) (transpose F))) Q),
       Ok (vadd (dotv F previous_state) control_effect)).
Proof.
  intros Hc Hl Hi.
  destruct (loaded_heading self index Hl Hi) as (theta & x & Ht & Hx).
  exists theta, x. split; [assumption|]. split; [assumption|]. cbv zeta.
  split; [apply Hc|]. split; [apply constructed_control_effect, Hc|].
  split; [apply constructed_diagonal, Hc|].
  rewrite model_predict_eq, Ht. cbv zeta. rewrite Hx. reflexivity.
Qed.

(** ** Loading the three-timestep file *)

Lemma decimal_value_int (m : Z) : decimal_value (Decimal m 0) = IZR m.
Proof. unfold decimal_value. cbn. ring. Qed.

Lemma decimal_value_hundredth : decimal_value (Decimal 1 (-2)) = 0.01.
Proof. unfold decimal_value. cbn. simpl. lra. Qed.

Lemma get_data_scenario :
  get_data scenario_file
  = Ok (SensorData [[0]; [1]; [2]] [[0; 0; 0]; [1; 0; 0]; [2; 0; 0]] [[0]; [0]; [0]]
          [[0.01]; [0.01]; [0.01]] [[0; 0]; [1; 0]; [2; 0]]
          [[0.01; 0.01]; [0.01; 0.01]; [0.01; 0.01]]).
Proof.
  assert (get_data scenario_file
          = Ok (SensorData
                  [[decimal_value (Decimal 0 0)]; [decimal_value (Decimal 1 0)];
                   [decimal_value (Decimal 2 0)]]
                  [[decimal_value (Decimal 0 0); decimal_value (Decimal 0 0);
                    decimal_value (Decimal 0 0)];
                   [decimal_value (Decimal 1 0); decimal_value (Decimal 0 0);
                    decimal_value (Decimal 0 0)];
                   [decimal_value (Decimal 2 0); decimal_value (Decimal 0 0);
                    decimal_value (Decimal 0 0)]]
                  [[decimal_value (Decimal 0 0)]; [decimal_value (Decimal 0 0)];
                   [decimal_value (Decimal 0 0)]]
                  [[decimal_value (Decimal 1 (-2))]; [decimal_value (Decimal 1 (-2))];
                   [decimal_value (Decimal 1 (-2))]]
                  [[decimal_value (Decimal 0 0); decimal_value (Decimal 0 0)];
                   [decimal_value (Decimal 1 0); decimal_value (Decimal 0 0)];
                   [decimal_value (Decimal 2 0); decimal_value (Decimal 0 0)]]
                  [[decimal_value (Decimal 1 (-2)); decimal_value (Decimal 1 (-2))];
                   [decimal_value (Decimal 1 (-2)); decimal_value (Decimal 1 (-2))];
                   [decimal_value (Decimal 1 (-2)); decimal_value (Decimal 1 (-2))]])) as E
    by reflexivity.
  rewrite E, !decimal_value_int, decimal_value_hundredth. reflexivity.
Qed.

(** ** The loader *)

Lemma field_Ok_iff (line : csv_line) (key : string) :
  (exists v, field line key = Ok v) <-> ~ malformed_field line key.
Proof.
  unfold field, malformed_field, float.
  destruct (line !! key) as [[text|]|]; cbn.
  - destruct (float_literal text); [split; [intros _ [H _]; discriminate H|eauto]|].
    destruct (nonfinite_literal text).
    + split; [intros _ [_ H]; discriminate H|eauto].
    + split; [intros [v Hv]; discriminate|intros H; exfalso; apply H; split; reflexivity].
  - split; [intros [v Hv]; discriminate|tauto].
  - split; [intros [v Hv]; discriminate|tauto].
Qed.

Lemma field_Raise (line : csv_line) (key : string) (e : exn) :
  field line key = Raise e -> load_error e /\ malformed_field line key.
Proof.
  unfold field, malformed_field, float.
  destruct (line !! key) as [[text|]|]; cbn.
  - destruct (float_literal text); [discriminate|].
    destruct (nonfinite_literal text); [discriminate|].
    intros [= <-]. split; [exact I|split; reflexivity].
  - intros [= <-]. split; exact I.
  - intros [= <-]. split; exact I.
Qed.

(** The case where the field just read raised [e], with [E] its equation. *)
Ltac field_raised E :=
  right; eexists; split; [reflexivity|];
  apply field_Raise in E as [? ?]; split; [assumption|];
  eexists; split; [|eassumption]; unfold field_names; set_solver.

Ltac field_cases line key :=
  let v := fresh "v" in let e := fresh "e" in let E := fresh "E" in
  destruct (field line key) as [v|e] eqn:E; cbn; [|field_raised E].

(** A line is read when none of its ten fields is malformed, and raises the
    exception of its first malformed field otherwise. *)
Lemma read_line_cases (line : csv_line) :
  (exists t ox oy ot it ict gx gy gcx gcy,
     read_line line = Ok ([t], [ox; oy; ot], [it], [ict], [gx; gy], [gcx; gcy]) /\
     field line time_index = Ok t /\ field line gps_cov_x = Ok gcx /\
     field line gps_cov_y = Ok gcy /\ ~ malformed_line line)
  \/ (exists e, read_line line = Raise e /\ load_error e /\ malformed_line line).
Proof.
  unfold read_line.
  field_cases line time_index. field_cases line odometer_x.
  field_cases line odometer_y. field_cases line odometer_theta.
  field_cases line imu_theta. field_cases line imu_cov_theta.
  field_cases line gps_x. field_cases line gps_y.
  field_cases line gps_cov_x. field_cases line gps_cov_y.
  left. exists v, v0, v1, v2, v3, v4, v5, v6, v7, v8.
  split; [reflexivity|]. repeat (split; [reflexivity|]).
  intros (key & Hk & Hm). unfold field_names in Hk.
  assert (exists w, field line key = Ok w) as Hw.
  { repeat (apply elem_of_cons in Hk as [->|Hk]; [eauto|]). inversion Hk. }
  apply field_Ok_iff in Hw. contradiction.
Qed.

(** The loop over the lines: every line is read, in the order of the file,
    or the first malformed line raises. *)
Lemma read_lines_cases (file : list csv_line) :
  (exists t o i ic g gc,
     read_lines file = Ok (t, o, i, ic, g, gc) /\ read_from file t o i ic g gc /\
     Forall (fun line => ~ malformed_line line) file)
  \/ (exists e, read_lines file = Raise e /\ load_error e /\ Exists malformed_line file).
Proof.
  induction file as [|line rest IH].
  - left. exists [], [], [], [], [], []. split; [reflexivity|].
    split; [|constructor]. unfold read_from, rows_of_width. repeat split; constructor.
  - cbn [read_lines].
    destruct (read_line_cases line)
      as [(t & ox & oy & ot & it & ict & gx & gy & gcx & gcy & -> & Ht & Hgcx & Hgcy & Hok)
         |(e & -> & He & Hbad)].
    + destruct IH as [(lt & lo & li & lic & lg & lgc & -> & Hfrom & Hall)|(e & -> & He & Hbad)].
      * left. eexists _, _, _, _, _, _. split; [reflexivity|]. split; [|constructor; assumption].
        destruct Hfrom as (Ft & Fgc & (Wo & Lo) & (Wi & Li) & (Wic & Lic) & (Wg & Lg)).
        unfold read_from, rows_of_width. cbn [length].
        repeat split; try (constructor; eauto); try lia; eauto.
      * right. exists e. split; [reflexivity|]. split; [assumption|].
        apply Exists_cons_tl. assumption.
    + right. exists e. split; [reflexivity|]. split; [assumption|].
      apply Exists_cons_hd. assumption.
Qed.

Lemma np_matrix_nonempty (rows : array) : (0 < length rows)%nat -> np_matrix rows = rows.
Proof. destruct rows; cbn; [lia|reflexivity]. Qed.

(** [get_data]: the six arrays of a file without malformed line, or the
    exception of its first malformed line. *)
Lemma get_data_cases (file : list csv_line) :
  (exists t o i ic g gc,
     get_data file
     = Ok (SensorData (np_matrix t) (np_matrix o) (np_matrix i) (np_matrix ic)
             (np_matrix g) (np_matrix gc)) /\
     read_from file t o i ic g gc /\
     Forall (fun line => ~ malformed_line line) file)
  \/ (exists e, get_data file = Raise e /\ load_error e /\ Exists malformed_line file).
Proof.
  unfold get_data.
  destruct (read_lines_cases file)
    as [(t & o & i & ic & g & gc & -> & Hfrom & Hall)|(e & -> & He & Hbad)].
  - left. exists t, o, i, ic, g, gc. split; [reflexivity|]. split; assumption.
  - right. exists e. split; [reflexivity|]. split; assumption.
Qed.

Ltac field_read line key :=
  let v := fresh "v" in let e := fresh "e" in let E := fresh "E" in
  destruct (field line key) as [v|e] eqn:E; cbn [mbind result_bind]; [|discriminate].

(** What a line that is read holds. *)
Lemma read_line_Ok (line : csv_line) (rt ro ri ric rg rgc : list R) :
  read_line line = Ok (rt, ro, ri, ric, rg, rgc) ->
  exists t ox oy ot it ict gx gy gcx gcy,
    field line time_index = Ok t /\
    field line odometer_x = Ok ox /\ field line odometer_y = Ok oy /\
    field line odometer_theta = Ok ot /\
    field line imu_theta = Ok it /\ field line imu_cov_theta = Ok ict /\
    field line gps_x = Ok gx /\ field line gps_y = Ok gy /\
    field line gps_cov_x = Ok gcx /\ field line gps_cov_y = Ok gcy /\
    rt = [t] /\ ro = [ox; oy; ot] /\ ri = [it] /\ ric = [ict] /\
    rg = [gx; gy] /\ rgc = [gcx; gcy].
Proof.
  unfold read_line.
  field_read line time_index. field_read line odometer_x.
  field_read line odometer_y. field_read line odometer_theta.
  field_read line imu_theta. field_read line imu_cov_theta.
  field_read line gps_x. field_read line gps_y.
  field_read line gps_cov_x. field_read line gps_cov_y.
  intros [= <- <- <- <- <- <-].
  exists v, v0, v1, v2, v3, v4, v5, v6, v7, v8. repeat (split; [reflexivity|]). reflexivity.
Qed.

(** Row [n] of each list is what line [n] of the file gave. *)
Lemma read_lines_lookup (file : list csv_line) :
  forall (t o i ic g gc : array) (n : nat) (line : csv_line),
    read_lines file = Ok (t, o, i, ic, g, gc) -> file !! n = Some line ->
    exists rt ro ri ric rg rgc,
      read_line line = Ok (rt, ro, ri, ric, rg, rgc) /\
      t !! n = Some rt /\ o !! n = Some ro /\ i !! n = Some ri /\
      ic !! n = Some ric /\ g !! n = Some rg /\ gc !! n = Some rgc.
Proof.
  induction file as [|first rest IH]; intros t o i ic g gc n line; [discriminate 2|].
  cbn [read_lines].
  destruct (read_line first) as [[[[[[rt ro] ri] ric] rg] rgc]|e] eqn:Efirst; [|discriminate].
  cbn [mbind result_bind].
  destruct (read_lines rest) as [[[[[[lt lo] li] lic] lg] lgc]|e] eqn:Erest; [|discriminate].
  cbn [mbind result_bind]. intros [= <- <- <- <- <- <-] Hn.
  destruct n as [|n].
  - injection Hn as <-. exists rt, ro, ri, ric, rg, rgc. repeat split; assumption.
  - apply (IH _ _ _ _ _ _ n line eq_refl Hn).
Qed.

Lemma np_matrix_lookup (rows : array) (n : nat) (r : list R) :
  rows !! n = Some r -> np_matrix rows !! n = Some r.
Proof. destruct rows; [discriminate|]. intros H. exact H. Qed.

(** ** The covariance override *)

Lemma set_column_cases (arr : array) (index : nat) (value : R) :
  ((index < width arr)%nat /\
   set_column arr index value = Ok ((fun r => <[index := value]> r) <$> arr))
  \/ ((width arr <= index)%nat /\ set_column arr index value = Raise IndexError).
Proof.
  unfold set_column. destruct (decide (index < width arr)%nat); [left|right]; split;
    first [reflexivity | lia].
Qed.

Lemma set_column_shape (k : nat) (arr arr' : array) (index : nat) (value : R) :
  set_column arr index value = Ok arr' ->
  rows_of_width k arr -> rows_of_width k arr' /\ length arr' = length arr.
Proof.
  destruct (set_column_cases arr index value) as [[_ ->]|[_ ->]]; [|discriminate].
  intros [= <-] Hw. split; [|apply length_fmap].
  unfold rows_of_width in *. apply Forall_fmap. eapply Forall_impl; [exact Hw|].
  intros r Hr. cbn. rewrite length_insert. exact Hr.
Qed.

Lemma override_cov_from_shape (k : nat) (override_value : list R) :
  forall (arr arr' : array) (index : nat),
    override_cov_from arr index override_value = Ok arr' ->
    rows_of_width k arr -> rows_of_width k arr' /\ length arr' = length arr.
Proof.
  induction override_value as [|value rest IH]; intros arr arr' index.
  - intros [= <-] Hw. split; [assumption|reflexivity].
  - cbn [override_cov_from].
    destruct (set_column arr index value) as [arr1|e] eqn:E; [|discriminate]. cbn.
    intros H Hw. destruct (set_column_shape k _ _ _ _ E Hw) as [Hw1 Hl1].
    destruct (IH _ _ _ H Hw1) as [Hw' Hl']. split; [assumption|lia].
Qed.

(** A pair of values overrides both columns of every row of a two-column
    array. *)
Lemma override_cov_pair (arr : array) (a b : R) :
  rows_of_width 2 arr -> (0 < length arr)%nat ->
  override_cov arr [a; b] = Ok (replicate (length arr) [a; b]).
Proof.
  intros Hw Hl. unfold override_cov. cbn [override_cov_from].
  assert (width arr = 2%nat) as Hwidth.
  { destruct arr as [|r arr]; [cbn in Hl; lia|]. cbn. apply (Forall_inv Hw). }
  destruct (set_column_cases arr 0 a) as [[_ ->]|[H _]]; [|lia]. cbn.
  destruct (set_column_cases ((fun r => <[0%nat := a]> r) <$> arr) 1 b) as [[_ ->]|[H _]].
  - cbn. f_equal. clear Hl Hwidth. induction Hw as [|r arr Hr Hw IH]; [reflexivity|].
    cbn. rewrite IH. f_equal.
    destruct r as [|x [|y [|? ?]]]; try discriminate Hr. reflexivity.
  - exfalso. revert H. destruct arr as [|r arr]; [cbn in Hl; lia|]. cbn.
    rewrite length_insert. cbn in Hwidth. lia.
Qed.

(** On the (1,0) array of an empty file the override raises. *)
Lemma override_cov_empty (value : R) (rest : list R) :
  override_cov (np_matrix []) (value :: rest) = Raise IndexError.
Proof. reflexivity. Qed.

(** ** The constructor *)

(** What a constructor that returns has done. *)
Lemma init_Ok (file : list csv_line) (pn mc pc : R) (go io : option (list R))
    (noise : option array) (self : Kalman_filter) :
  __init__ file pn mc pc go io noise = Ok self ->
  exists data,
    get_data file = Ok data /\
    (if truthy go then override_cov (data_gps_cov data) (default [] go)
     else Ok (data_gps_cov data)) = Ok (gps_cov self) /\
    (if truthy io then override_cov (data_imu_cov data) (default [] io)
     else Ok (data_imu_cov data)) = Ok (imu_cov self) /\
    gps self = match noise with
               | Some sample => noise_gps (data_gps data) sample
               | None => data_gps data
               end /\
    time self = data_time data /\ odometry self = data_odometry data /\
    imu self = data_imu data /\
    process_noise self = mscale identity pn /\
    measurement_cov self = mscale identity mc /\
    previous_cov self = mscale identity pc /\
    wheel_distance self = 1 /\ delta_t self = 0.001 /\ velocity self = 0.14 /\
    state self = [vzero] /\ constructed self.
Proof.
  unfold __init__. destruct (get_data file) as [data|e]; [|discriminate]. cbn.
  destruct (if truthy go then _ else _) as [gc|e] eqn:Egc; [|discriminate]. cbn.
  destruct (if truthy io then _ else _) as [ic|e] eqn:Eic; [|discriminate]. cbn.
  intros [= <-]. exists data. cbn.
  split; [reflexivity|]. split; [exact Egc|]. split; [exact Eic|].
  repeat (split; [reflexivity|]).
  unfold constructed. cbn. repeat (split; [reflexivity|]). split; eexists; reflexivity.
Qed.

(** The constructor raises what [get_data] raises. *)
Lemma init_Raise (file : list csv_line) (pn mc pc : R) (go io : option (list R))
    (noise : option array) (e : exn) :
  get_data file = Raise e -> __init__ file pn mc pc go io noise = Raise e.
Proof. intros E. unfold __init__. rewrite E. reflexivity. Qed.

Lemma read_from_shapes (file : list csv_line) (t o i ic g gc : array) :
  read_from file t o i ic g gc ->
  (rows_of_width 1 t /\ length t = length file) /\
  (rows_of_width 2 gc /\ length gc = length file).
Proof.
  intros (Ft & Fgc & _). split; split.
  - clear Fgc. induction Ft as [|line r file t (v & _ & ->) _ IH]; constructor; [reflexivity|exact IH].
  - symmetry. eapply Forall2_length, Ft.
  - clear Ft. induction Fgc as [|line r file gc (a & b & _ & _ & ->) _ IH]; constructor;
      [reflexivity|exact IH].
  - symmetry. eapply Forall2_length, Fgc.
Qed.

Lemma optional_override_shape (k : nat) (o : option (list R)) (arr arr' : array) :
  (if truthy o then override_cov arr (default [] o) else Ok arr) = Ok arr' ->
  rows_of_width k arr -> rows_of_width k arr' /\ length arr' = length arr.
Proof.
  destruct (truthy o).
  - apply override_cov_from_shape.
  - intros [= <-] Hw. split; [assumption|reflexivity].
Qed.

(** A filter constructed without noise from a file of at least one line is
    loaded, with one row per line. *)
Lemma init_loaded (file : list csv_line) (pn mc pc : R) (go io : option (list R))
    (self : Kalman_filter) :
  __init__ file pn mc pc go io None = Ok self -> (0 < length file)%nat ->
  loaded self /\ length (time self) = length file.
Proof.
  intros Hinit Hfile.
  destruct (init_Ok _ _ _ _ _ _ _ _ Hinit)
    as (data & Hdata & Hgc & Hic & Hg & Ht & Ho & Hi & _ & _ & _ & _ & _ & _ & Hs & _).
  destruct (get_data_cases file)
    as [(t & o & i & ic & g & gc & E & Hfrom & _)|(e & E & _)];
    rewrite E in Hdata; [|discriminate].
  injection Hdata as <-. cbn in *.
  destruct (read_from_shapes _ _ _ _ _ _ _ Hfrom) as [[Wt Lt] [Wgc Lgc]].
  destruct Hfrom as (_ & _ & (Wo & Lo) & (Wi & Li) & (Wic & Lic) & (Wg & Lg)).
  rewrite np_matrix_nonempty in * by lia.
  destruct (optional_override_shape 2 _ _ _ Hgc Wgc) as [Wgc' Lgc'].
  destruct (optional_override_shape 1 _ _ _ Hic Wic) as [Wic' Lic'].
  unfold loaded. rewrite Ht, Ho, Hi, Hg, Hs.
  repeat split; try assumption; try lia. discriminate.
Qed.

(** The constructor does not return on a file with a malformed line. *)
Lemma init_malformed (file : list csv_line) (pn mc pc : R) (go io : option (list R))
    (noise : option array) :
  Exists malformed_line file ->
  exists e, get_data file = Raise e /\ load_error e /\
            __init__ file pn mc pc go io noise = Raise e.
Proof.
  intros Hbad.
  destruct (get_data_cases file)
    as [(t & o & i & ic & g & gc & _ & _ & Hall)|(e & E & He & _)].
  - exfalso. apply Exists_exists in Hbad as (line & Hin & Hline).
    rewrite Forall_forall in Hall. exact (Hall line Hin Hline).
  - exists e. split; [assumption|]. split; [assumption|]. apply init_Raise, E.
Qed.

Lemma get_data_unordered :
  get_data unordered_file
  = Ok (SensorData [[2]; [0]] [[2; 0; 0]; [0; 0; 0]] [[0]; [0]] [[0.01]; [0.01]]
          [[2; 0]; [0; 0]] [[0.01; 0.01]; [0.01; 0.01]]).
Proof.
  assert (get_data unordered_file
          = Ok (SensorData
                  [[decimal_value (Decimal 2 0)]; [decimal_value (Decimal 0 0)]]
                  [[decimal_value (Decimal 2 0); decimal_value (Decimal 0 0);
                    decimal_value (Decimal 0 0)];
                   [decimal_value (Decimal 0 0); decimal_value (Decimal 0 0);
                    decimal_value (Decimal 0 0)]]
                  [[decimal_value (Decimal 0 0)]; [decimal_value (Decimal 0 0)]]
                  [[decimal_value (Decimal 1 (-2))]; [decimal_value (Decimal 1 (-2))]]
                  [[decimal_value (Decimal 2 0); decimal_value (Decimal 0 0)];
                   [decimal_value (Decimal 0 0); decimal_value (Decimal 0 0)]]
                  [[decimal_value (Decimal 1 (-2)); decimal_value (Decimal 1 (-2))];
                   [decimal_value (Decimal 1 (-2)); decimal_value (Decimal 1 (-2))]])) as E
    by reflexivity.
  rewrite E, !decimal_value_int, decimal_value_hundredth. reflexivity.
Qed.

Lemma malformed_file_malformed : Exists malformed_line malformed_file.
Proof.
  apply Exists_cons_tl, Exists_cons_hd. exists odometer_x. split.
  - unfold field_names. set_solver.
  - split; reflexivity.
Qed.

(** The constructor on the three-timestep file, without override or noise. *)
Lemma init_scenario (pn mc pc : R) :
  __init__ scenario_file pn mc pc None None None = Ok (scenario_filter pn mc pc 0.01 0.01).
Proof. unfold __init__. rewrite get_data_scenario. reflexivity. Qed.

(** The same with a GPS covariance override. *)
Lemma init_scenario_override (pn mc pc a b : R) :
  __init__ scenario_file pn mc pc (Some [a; b]) None None = Ok (scenario_filter pn mc pc a b).
Proof.
  unfold __init__. rewrite get_data_scenario. cbn [mbind result_bind truthy default data_gps_cov].
  change (Datatypes.id [a; b]) with [a; b].
  rewrite override_cov_pair; [reflexivity| |cbn; lia].
  repeat constructor.
Qed.

Lemma scenario_constructed (pn mc pc a b : R) : constructed (scenario_filter pn mc pc a b).
Proof. unfold constructed. cbn. repeat (split; [reflexivity|]). split; eexists; reflexivity. Qed.

Lemma scenario_loaded (pn mc pc a b : R) : loaded (scenario_filter pn mc pc a b).
Proof. unfold loaded, rows_of_width. cbn. repeat split; repeat constructor. discriminate. Qed.

Lemma unordered_file_wellformed : Forall (fun line => ~ malformed_line line) unordered_file.
Proof.
  destruct (get_data_cases unordered_file)
    as [(t & o & i & ic & g & gc & _ & _ & Hall)|(e & E & _)]; [exact Hall|].
  rewrite get_data_unordered in E. discriminate.
Qed.

(** ** The composed covariance *)

Ltac at2_cases arr index j :=
  let v := fresh "v" in let e := fresh "e" in let E := fresh "E" in
  destruct (at2 arr index j) as [v|e] eqn:E; cbn [mbind result_bind]; [|discriminate].

(** What a composer that returns has read. *)
Lemma fuse_readings_Ok (self : Kalman_filter) (index : nat) (z : vec5) (Rm : mat5) :
  fuse_readings self index = Ok (z, Rm) ->
  exists ox oy ot it ict gx gy gcx gcy,
    at2 (odometry self) index 0 = Ok ox /\ at2 (odometry self) index 1 = Ok oy /\
    at2 (odometry self) index 2 = Ok ot /\
    at2 (imu self) index 0 = Ok it /\ at2 (imu_cov self) index 0 = Ok ict /\
    at2 (gps self) index 0 = Ok gx /\ at2 (gps self) index 1 = Ok gy /\
    at2 (gps_cov self) index 0 = Ok gcx /\ at2 (gps_cov self) index 1 = Ok gcy /\
    z = composed_mean self ox oy ot it gx gy gcx gcy ict /\
    Rm = composed_cov self ox oy ot it gx gy gcx gcy ict.
Proof.
  unfold fuse_readings.
  at2_cases (odometry self) index 0%nat. at2_cases (gps self) index 0%nat.
  at2_cases (gps_cov self) index 0%nat. at2_cases (odometry self) index 1%nat.
  at2_cases (gps self) index 1%nat. at2_cases (gps_cov self) index 1%nat.
  at2_cases (odometry self) index 2%nat. at2_cases (imu self) index 0%nat.
  at2_cases (imu_cov self) index 0%nat.
  intros [= <- <-]. exists v, v2, v5, v6, v7, v0, v3, v1, v4.
  repeat (split; [reflexivity|]). split; reflexivity.
Qed.

Lemma fuse_deviation (m1 m2 sigma1 sigma2 : R) :
  snd (fuse m1 m2 sigma1 sigma2)
  = sqrt (/ (1 / Rmax (sigma1 ^ 2) float32_eps + 1 / Rmax (sigma2 ^ 2) float32_eps)).
Proof. rewrite fuse_floored_eps. reflexivity. Qed.

Lemma floor_hundredth : Rmax (0.01 ^ 2) float32_eps = 0.0001.
Proof. unfold float32_eps. rewrite Rmax_left; lra. Qed.

Lemma sqrt_inv_10000 : sqrt (/ 10000) = 0.01.
Proof. replace (/ 10000) with (0.01 ^ 2) by lra. apply sqrt_pow2. lra. Qed.

(** A deviation fused with a deviation of 0.01 is below 0.01. *)
Lemma fused_with_hundredth_lt (v : R) : 0 < v -> sqrt (/ (1 / v + 1 / 0.0001)) < 0.01.
Proof.
  intros Hv. rewrite <- sqrt_inv_10000.
  assert (0 < / v) by (apply Rinv_0_lt_compat; assumption).
  apply sqrt_lt_1_alt. split.
  - left. apply Rinv_0_lt_compat. lra.
  - apply Rinv_0_lt_contravar; lra.
Qed.

Lemma mget_mscale_identity_diag (val : R) (i : ix) : mget (mscale identity val) i i = val.
Proof. destruct i; mat_unfold; ring. Qed.

(** The two GPS entries of the composed covariance, from the measurement
    scale and the GPS covariances of the row. *)
Lemma composed_gps_entries (self : Kalman_filter) (mc : R) (index : nat) (z : vec5) (Rm : mat5) :
  measurement_cov self = mscale identity mc ->
  fuse_readings self index = Ok (z, Rm) ->
  exists gcx gcy,
    at2 (gps_cov self) index 0 = Ok gcx /\ at2 (gps_cov self) index 1 = Ok gcy /\
    mget Rm I0 I0
    = sqrt (/ (1 / Rmax (mc ^ 2) float32_eps + 1 / Rmax (gcx ^ 2) float32_eps)) /\
    mget Rm I1 I1
    = sqrt (/ (1 / Rmax (mc ^ 2) float32_eps + 1 / Rmax (gcy ^ 2) float32_eps)).
Proof.
  intros Hmc Hf.
  destruct (fuse_readings_Ok _ _ _ _ Hf)
    as (ox & oy & ot & it & ict & gx & gy & gcx & gcy & _ & _ & _ & _ & _ & _ & _
        & Hgcx & Hgcy & _ & ->).
  exists gcx, gcy. split; [assumption|]. split; [assumption|].
  unfold composed_cov. rewrite Hmc, !mget_mscale_identity_diag.
  split; cbn [mget row vget r0 r1 c0 c1]; apply fuse_deviation.
Qed.

(** With the override the GPS covariance array holds the pair on every row. *)
Lemma init_gps_override (file : list csv_line) (pn mc pc a b : R) (io : option (list R))
    (noise : option array) (self : Kalman_filter) :
  __init__ file pn mc pc (Some [a; b]) io noise = Ok self ->
  gps_cov self = replicate (length file) [a; b].
Proof.
  intros Hinit.
  destruct (init_Ok _ _ _ _ _ _ _ _ Hinit) as (data & Hdata & Hgc & _).
  destruct (get_data_cases file)
    as [(t & o & i & ic & g & gc & E & Hfrom & _)|(e & E & _)];
    rewrite E in Hdata; [|discriminate].
  injection Hdata as <-. cbn [truthy default data_gps_cov] in Hgc.
  change (Datatypes.id [a; b]) with [a; b] in Hgc.
  destruct (read_from_shapes _ _ _ _ _ _ _ Hfrom) as [_ [Wgc Lgc]].
  destruct gc as [|r gc].
  - rewrite override_cov_empty in Hgc. discriminate.
  - change (np_matrix (r :: gc)) with (r :: gc) in Hgc.
    rewrite override_cov_pair in Hgc; [|assumption|cbn; lia].
    injection Hgc as <-. rewrite <- Lgc. reflexivity.
Qed.

Lemma at2_replicate (n : nat) (r : list R) (index j : nat) (v : R) :
  at2 (replicate n r) index j = Ok v -> r !! j = Some v.
Proof.
  intros H. apply at2_inv in H as (r' & Hr & Hv).
  apply lookup_replicate in Hr as [-> _]. exact Hv.
Qed.

(** C5 (as amended). With the GPS variance override (0.01, 0.01) the GPS
    covariance array holds 0.01 on every row, and at every timestep the
    entries [R[0,0]] and [R[1,1]] of the covariance composed by
    [fuse_readings] are the fused deviation
    [sqrt (1 / (1 / max (m^2) eps + 1 / 0.0001))], for the measurement scale
    [m]: a value below 0.01, the same at every timestep. Without the override
    the entries are the same formula on the GPS variances of the row of the
    file. *)
Theorem gps_override_composed_cov (file : list csv_line) (pn mc pc : R)
    (io : option (list R)) (noise : option array) (index : nat) :
  (forall self z Rm,
     __init__ file pn mc pc (Some [0.01; 0.01]) io noise = Ok self ->
     fuse_readings self index = Ok (z, Rm) ->
     gps_cov self = replicate (length file) [0.01; 0.01] /\
     mget Rm I0 I0 = sqrt (/ (1 / Rmax (mc ^ 2) float32_eps + 1 / 0.0001)) /\
     mget Rm I1 I1 = sqrt (/ (1 / Rmax (mc ^ 2) float32_eps + 1 / 0.0001)) /\
     mget Rm I0 I0 < 0.01 /\ mget Rm I1 I1 < 0.01) /\
  (forall self z Rm,
     __init__ file pn mc pc None io noise = Ok self ->
     fuse_readings self index = Ok (z, Rm) ->
     exists data gcx gcy,
       get_data file = Ok data /\
       at2 (data_gps_cov data) index 0 = Ok gcx /\
       at2 (data_gps_cov data) index 1 = Ok gcy /\
       mget Rm I0 I0
       = sqrt (/ (1 / Rmax (mc ^ 2) float32_eps + 1 / Rmax (gcx ^ 2) float32_eps)) /\
       mget Rm I1 I1
       = sqrt (/ (1 / Rmax (mc ^ 2) float32_eps + 1 / Rmax (gcy ^ 2) float32_eps))).
Proof.
  split; intros self z Rm Hinit Hf.
  - pose proof (init_gps_override _ _ _ _ _ _ _ _ _ Hinit) as Hgc.
    destruct (init_Ok _ _ _ _ _ _ _ _ Hinit) as (_ & _ & _ & _ & _ & _ & _ & _ & _ & Hmc & _).
    destruct (composed_gps_entries _ _ _ _ _ Hmc Hf) as (gcx & gcy & Hx & Hy & E0 & E1).
    rewrite Hgc in Hx, Hy.
    apply at2_replicate in Hx. apply at2_replicate in Hy.
    injection Hx as <-. injection Hy as <-.
    rewrite floor_hundredth in E0, E1.
    split; [assumption|]. split; [assumption|]. split; [assumption|].
    rewrite E0, E1. split; apply fused_with_hundredth_lt, floor_pos.
  - destruct (init_Ok _ _ _ _ _ _ _ _ Hinit)
      as (data & Hdata & Hgc & _ & _ & _ & _ & _ & _ & Hmc & _).
    cbn in Hgc. injection Hgc as Hgc.
    destruct (composed_gps_entries _ _ _ _ _ Hmc Hf) as (gcx & gcy & Hx & Hy & E0 & E1).
    exists data, gcx, gcy. rewrite Hgc. repeat (split; [assumption|]). assumption.
Qed.

Lemma fuse_readings_scenario (pn mc pc a b : R) :
  fuse_readings (scenario_filter pn mc pc a b) 0
  = Ok (composed_mean (scenario_filter pn mc pc a b) 0 0 0 0 0 0 a b 0.01,
        composed_cov (scenario_filter pn mc pc a b) 0 0 0 0 0 0 a b 0.01).
Proof. apply fuse_readings_rows; reflexivity. Qed.

Lemma gps_override_composed_cov_witness :
  __init__ scenario_file 0.0001 0.01 0.01 (Some [0.01; 0.01]) None None
  = Ok (scenario_filter 0.0001 0.01 0.01 0.01 0.01) /\
  fuse_readings (scenario_filter 0.0001 0.01 0.01 0.01 0.01) 0
  = Ok (composed_mean (scenario_filter 0.0001 0.01 0.01 0.01 0.01) 0 0 0 0 0 0 0.01 0.01 0.01,
        composed_cov (scenario_filter 0.0001 0.01 0.01 0.01 0.01) 0 0 0 0 0 0 0.01 0.01 0.01) /\
  mget (composed_cov (scenario_filter 0.0001 0.01 0.01 0.01 0.01) 0 0 0 0 0 0 0.01 0.01 0.01)
    I0 I0 < 0.01.
Proof.
  split; [apply init_scenario_override|]. split; [apply fuse_readings_scenario|].
  apply (proj1 (gps_override_composed_cov scenario_file 0.0001 0.01 0.01 None None 0)
           _ _ _ (init_scenario_override _ _ _ _ _) (fuse_readings_scenario _ _ _ _ _)).
Defined.

(** C5 (counterexample). On the three-timestep file with the default scales
    and the override (0.01, 0.01), the composed [R[0,0]] of the first
    timestep is [0.01 / sqrt 2], not 0.01. *)
Lemma gps_override_not_hundredth :
  exists self z Rm,
    __init__ scenario_file 0.0001 0.01 0.01 (Some [0.01; 0.01]) None None = Ok self /\
    fuse_readings self 0 = Ok (z, Rm) /\
    mget Rm I0 I0 = 0.01 / sqrt 2 /\ mget Rm I0 I0 <> 0.01.
Proof.
  eexists _, _, _. split; [apply init_scenario_override|].
  split; [apply fuse_readings_scenario|].
  assert (mget (composed_cov (scenario_filter 0.0001 0.01 0.01 0.01 0.01)
                  0 0 0 0 0 0 0.01 0.01 0.01) I0 I0 = 0.01 / sqrt 2) as E.
  { change (snd (fuse 0 0 (mget (mscale identity 0.01) I0 I0) 0.01) = 0.01 / sqrt 2).
    rewrite mget_mscale_identity_diag, fuse_deviation, floor_hundredth.
    replace (/ (1 / 0.0001 + 1 / 0.0001)) with (/ 10000 * / 2) by lra.
    rewrite sqrt_mult_alt by lra. rewrite sqrt_inv_10000, sqrt_inv. reflexivity. }
  split; [exact E|]. rewrite E.
  pose proof Rlt_sqrt2_0 as Hpos. pose proof (sqrt_sqrt 2 ltac:(lra)) as Hsq.
  intros H. apply (f_equal (fun x => x * sqrt 2)) in H.
  unfold Rdiv in H. rewrite Rmult_assoc, Rinv_l in H by lra.
  assert (sqrt 2 = 1) as H1 by lra.
  rewrite H1 in Hsq. lra.
Qed.

(** ** The update step *)

Lemma mget_madd (a b : mat5) (i j : ix) : mget (madd a b) i j = mget a i j + mget b i j.
Proof. destruct i, j; reflexivity. Qed.

Lemma with_previous_cov_id (self : Kalman_filter) :
  with_previous_cov self (previous_cov self) = self.
Proof. destruct self. reflexivity. Qed.

(** The covariance [model_predict] stores, for the heading [theta]. *)
Lemma innovation_cov_identity (self : Kalman_filter) :
  measurement_effect self = identity ->
  innovation_cov self = madd (measurement_cov self) (previous_cov self).
Proof.
  intros H. unfold innovation_cov. rewrite H, transpose_identity, dot_identity_r, dot_identity_l.
  reflexivity.
Qed.

(** [state_update] on a constructed and loaded object, at a timestep of the
    file: it succeeds or fails with the inversion of the innovation
    covariance. *)
Lemma state_update_with_loaded (linalg_inv : mat5 -> result mat5) (self : Kalman_filter)
    (index : nat) :
  constructed self -> loaded self -> (index < length (time self))%nat ->
  exists theta previous_state z Rm,
    at2 (odometry self) index 2 = Ok theta /\
    last (state self) = Some previous_state /\
    fuse_readings self index = Ok (z, Rm) /\
    let F := transition (delta_t self) theta in
    let state_pred := dotv F previous_state in
    let cov_pred :=
      madd (dot F (dot (previous_cov self) (transpose F))) (process_noise self) in
    let self1 := with_previous_cov self cov_pred in
    model_predict index self = (self1, Ok state_pred) /\
    state_update_with linalg_inv index self =
    match linalg_inv (innovation_cov self1) with
    | Ok cov_Y_inv =>
        let K := gain self1 cov_Y_inv in
        (with_previous_cov
           (with_state self
              (state self ++
               [vadd state_pred (dotv K (vsub z (dotv (measurement_effect self) state_pred)))]))
           (msub cov_pred (dot K (dot (innovation_cov self1) (transpose K)))),
         Ok ())
    | Raise e => (self1, Raise e)
    end.
Proof.
  intros Hc Hl Hi.
  destruct (loaded_heading self index Hl Hi) as (theta & x & Ht & Hx).
  destruct (fuse_readings_loaded self index Hl Hi)
    as (ox & oy & ot & it & ict & gx & gy & gcx & gcy & _ & _ & _ & _ & _ & Hf).
  eexists theta, x, _, _. split; [assumption|]. split; [assumption|]. split; [exact Hf|].
  cbv zeta.
  assert (model_predict index self
          = (with_previous_cov self
               (madd (dot (transition (delta_t self) theta)
                        (dot (previous_cov self) (transpose (transition (delta_t self) theta))))
                     (process_noise self)),
             Ok (dotv (transition (delta_t self) theta) x))) as Hp.
  { rewrite model_predict_eq, Ht. cbv zeta. rewrite Hx.
    rewrite (constructed_control_effect self Hc), vadd_vzero_r. reflexivity. }
  split; [exact Hp|].
  rewrite (state_update_with_eq _ _ _ _ _ Hp), fuse_readings_with_previous_cov, Hf.
  destruct (linalg_inv _); reflexivity.
Qed.

Lemma state_update_loaded (self : Kalman_filter) (index : nat) :
  constructed self -> loaded self -> (index < length (time self))%nat ->
  exists theta previous_state z Rm,
    at2 (odometry self) index 2 = Ok theta /\
    last (state self) = Some previous_state /\
    fuse_readings self index = Ok (z, Rm) /\
    let F := transition (delta_t self) theta in
    let state_pred := dotv F previous_state in
    let cov_pred :=
      madd (dot F (dot (previous_cov self) (transpose F))) (process_noise self) in
    let self1 := with_previous_cov self cov_pred in
    model_predict index self = (self1, Ok state_pred) /\
    state_update index self =
    match inv (innovation_cov self1) with
    | Ok cov_Y_inv =>
        let K := gain self1 cov_Y_inv in
        (with_previous_cov
           (with_state self
              (state self ++
               [vadd state_pred (dotv K (vsub z (dotv (measurement_effect self) state_pred)))]))
           (msub cov_pred (dot K (dot (innovation_cov self1) (transpose K)))),
         Ok ())
    | Raise e => (self1, Raise e)
    end.
Proof. apply state_update_with_loaded. Qed.

(** [state_update] assigns [previous_cov] and [state] only, and appends at
    most one state. *)
Lemma state_update_with_frame (linalg_inv : mat5 -> result mat5) (self self' : Kalman_filter)
    (index : nat) (r : result unit) :
  state_update_with linalg_inv index self = (self', r) ->
  same_configuration self self' /\
  match r with
  | Ok _ => exists x, state self' = state self ++ [x]
  | Raise _ => state self' = state self
  end.
Proof.
  destruct (model_predict index self) as [self1 [x_pred|e]] eqn:Hp.
  - destruct (model_predict_frame _ _ _ _ Hp) as [Hcfg Hst].
    rewrite (state_update_with_eq _ _ _ _ _ Hp).
    destruct (fuse_readings self1 index) as [[z Rm]|e].
    + destruct (linalg_inv (innovation_cov self1)) as [cov_Y_inv|e]; intros [= <- <-].
      * split; [exact Hcfg|]. cbn. rewrite Hst. eexists. reflexivity.
      * split; assumption.
    + intros [= <- <-]. split; assumption.
  - rewrite (state_update_with_predict_fails _ _ _ _ _ Hp). intros [= <- <-].
    apply (model_predict_frame _ _ _ _ Hp).
Qed.

Lemma state_update_frame (self self' : Kalman_filter) (index : nat) (r : result unit) :
  state_update index self = (self', r) ->
  same_configuration self self' /\
  match r with
  | Ok _ => exists x, state self' = state self ++ [x]
  | Raise _ => state self' = state self
  end.
Proof. apply state_update_with_frame. Qed.

Lemma loaded_same_configuration (self self' : Kalman_filter) :
  same_configuration self self' -> state self' <> [] -> loaded self ->
  loaded self' /\ length (time self') = length (time self).
Proof.
  unfold same_configuration, loaded.
  intros (_ & _ & _ & _ & _ & _ & _ & _ & -> & -> & -> & -> & -> & ->) Hs H.
  split; [|reflexivity]. tauto.
Qed.

(** What [state_update] computes at a timestep of a loaded filter: the
    innovation covariance is [R + H * cov_pred * H^T] with [H] the identity
    and [R] the value of [self.measurement_cov], a multiple of the identity;
    the gain is [K = cov_pred * H^T * S^(-1)], and the step appends
    [state_pred + K * (z - H * state_pred)] and stores
    [cov_pred - K * S * K^T]. *)
Lemma state_update_gain (self : Kalman_filter) (index : nat) :
  constructed self -> loaded self -> (index < length (time self))%nat ->
  exists theta previous_state z composed,
    at2 (odometry self) index 2 = Ok theta /\
    last (state self) = Some previous_state /\
    fuse_readings self index = Ok (z, composed) /\
    let F := transition (delta_t self) theta in
    let state_pred := dotv F previous_state in
    let cov_pred :=
      madd (dot F (dot (previous_cov self) (transpose F))) (process_noise self) in
    let H := measurement_effect self in
    let R := measurement_cov self in
    let S := madd R (dot H (dot cov_pred (transpose H))) in
    H = identity /\ (exists m, R = mscale identity m) /\ diagonal R /\
    S = madd R cov_pred /\
    state_update index self =
    match inv S with
    | Ok S_inv =>
        let K := dot cov_pred (dot (transpose H) S_inv) in
        (with_previous_cov
           (with_state self
              (state self ++ [vadd state_pred (dotv K (vsub z (dotv H state_pred)))]))
           (msub cov_pred (dot K (dot S (transpose K)))),
         Ok ())
    | Raise e => (with_previous_cov self cov_pred, Raise e)
    end.
Proof.
  intros Hc Hl Hi.
  destruct (state_update_loaded self index Hc Hl Hi)
    as (theta & x & z & Rm & Ht & Hx & Hf & _ & Hu).
  exists theta, x, z, Rm. repeat (split; [assumption|]). cbv zeta.
  split; [apply Hc|]. split; [apply Hc|]. split; [apply constructed_diagonal, Hc|].
  split.
  - destruct Hc as (_ & _ & -> & _).
    rewrite transpose_identity, dot_identity_r, dot_identity_l. reflexivity.
  - exact Hu.
Qed.

Lemma state_update_gain_witness :
  constructed (scenario_filter 0.0001 0.01 0.01 0.01 0.01) /\
  loaded (scenario_filter 0.0001 0.01 0.01 0.01 0.01) /\
  (1 < length (time (scenario_filter 0.0001 0.01 0.01 0.01 0.01)))%nat /\
  exists theta previous_state z composed,
    at2 (odometry (scenario_filter 0.0001 0.01 0.01 0.01 0.01)) 1 2 = Ok theta /\
    last (state (scenario_filter 0.0001 0.01 0.01 0.01 0.01)) = Some previous_state /\
    fuse_readings (scenario_filter 0.0001 0.01 0.01 0.01 0.01) 1 = Ok (z, composed).
Proof.
  split; [apply scenario_constructed|]. split; [apply scenario_loaded|].
  split; [cbn; lia|].
  destruct (state_update_gain (scenario_filter 0.0001 0.01 0.01 0.01 0.01) 1
              (scenario_constructed _ _ _ _ _) (scenario_loaded _ _ _ _ _) ltac:(cbn; lia))
    as (theta & x & z & Rm & Ht & Hx & Hf & _).
  exists theta, x, z, Rm. repeat split; assumption.
Defined.

(** C1. The code misses what the claim states: [fuse_readings] returns the
    covariance it composes for the timestep and [state_update] binds it as
    [measurement_variance], but the sum it inverts is built on
    [self.measurement_cov]. On the three-timestep file with the default
    scales, the innovation covariance of the first timestep is the static
    measurement covariance plus the predicted covariance, and differs from
    the composed covariance plus the predicted covariance: its entry [0,0]
    holds 0.01 where the composed covariance holds a fused deviation below
    0.01. *)
Lemma innovation_cov_not_composed :
  exists self self1 state_pred z composed,
    __init__ scenario_file 0.0001 0.01 0.01 None None None = Ok self /\
    model_predict 0 self = (self1, Ok state_pred) /\
    fuse_readings self1 0 = Ok (z, composed) /\
    innovation_cov self1 = madd (measurement_cov self1) (previous_cov self1) /\
    mget (measurement_cov self1) I0 I0 = 0.01 /\
    mget composed I0 I0 < 0.01 /\
    innovation_cov self1 <> composed_innovation_cov self1 composed.
Proof.
  set (self := scenario_filter 0.0001 0.01 0.01 0.01 0.01).
  destruct (state_update_loaded self 0 (scenario_constructed _ _ _ _ _)
              (scenario_loaded _ _ _ _ _) ltac:(cbn; lia))
    as (theta & x & z & Rm & Ht & Hx & Hf & Hp & _).
  cbv zeta in Hp.
  eexists self, _, _, _, _. split; [apply init_scenario|].
  split; [exact Hp|]. split; [rewrite fuse_readings_with_previous_cov; exact Hf|].
  assert (mget Rm I0 I0 < 0.01) as Hlt.
  { destruct (composed_gps_entries self 0.01 0 z Rm eq_refl Hf)
      as (gcx & gcy & Hx0 & _ & E0 & _).
    injection Hx0 as <-. rewrite E0, floor_hundredth.
    apply fused_with_hundredth_lt. lra. }
  split; [apply innovation_cov_identity; reflexivity|].
  split; [apply (mget_mscale_identity_diag 0.01 I0)|].
  split; [exact Hlt|].
  intros E. apply (f_equal (fun m => mget m I0 I0)) in E.
  unfold innovation_cov, composed_innovation_cov in E. rewrite !mget_madd in E.
  change (mget (measurement_cov (with_previous_cov self _)) I0 I0)
    with (mget (mscale identity 0.01) I0 I0) in E.
  rewrite mget_mscale_identity_diag in E. lra.
Qed.

(** C10. When the inversion of the innovation covariance fails at timestep
    [index], whatever the routine and the exception, [state_update] fails
    with that exception and leaves the history as it was, but [previous_cov]
    already holds the predicted covariance [F * P * F^T + Q] that
    [model_predict] stored: the failed step is not atomic. *)
Theorem singular_update_keeps_prediction (linalg_inv : mat5 -> result mat5)
    (self : Kalman_filter) (index : nat) (theta : R) (e : exn) :
  constructed self -> loaded self -> (index < length (time self))%nat ->
  at2 (odometry self) index 2 = Ok theta ->
  let F := transition (delta_t self) theta in
  let cov_pred :=
    madd (dot F (dot (previous_cov self) (transpose F))) (process_noise self) in
  let H := measurement_effect self in
  linalg_inv (madd (measurement_cov self) (dot H (dot cov_pred (transpose H)))) = Raise e ->
  exists self',
    state_update_with linalg_inv index self = (self', Raise e) /\
    state self' = state self /\
    previous_cov self' = cov_pred /\
    same_configuration self self'.
Proof.
  intros Hc Hl Hi Ht F cov_pred H Hfail.
  destruct (state_update_with_loaded linalg_inv self index Hc Hl Hi)
    as (theta' & x & z & Rm & Ht' & Hx & Hf & _ & Hu).
  rewrite Ht in Ht'. injection Ht' as <-. cbv zeta in Hu.
  fold F in Hu. fold cov_pred in Hu.
  change (innovation_cov (with_previous_cov self cov_pred))
    with (madd (measurement_cov self) (dot H (dot cov_pred (transpose H)))) in Hu.
  rewrite Hfail in Hu.
  exists (with_previous_cov self cov_pred). split; [exact Hu|].
  split; [reflexivity|]. split; [reflexivity|]. repeat split.
Qed.

Lemma zero_row_not_invertible (m : mat5) :
  (forall j, mget m I0 j = 0) -> ~ invertible m.
Proof.
  intros Hz (b & Hr & _). apply (f_equal (fun x => mget x I0 I0)) in Hr.
  pose proof (Hz I0) as H0. pose proof (Hz I1) as H1. pose proof (Hz I2) as H2.
  pose proof (Hz I3) as H3. pose proof (Hz I4) as H4.
  destruct_mat m. destruct_mat b.
  cbv [dot identity mk_mat mk_vec sum5 mget vget row ix_eqb r0 c0 c1 c2 c3 c4] in *.
  subst. lra.
Qed.



(** With process noise 1, measurement covariance -1 and a zero initial
    covariance, the innovation covariance of the first timestep is the zero
    matrix, which the routine rejects in floating point too. *)
Lemma scenario_singular (j : ix) :
  mget (madd (measurement_cov (scenario_filter 1 (-1) 0 0.01 0.01))
          (dot (measurement_effect (scenario_filter 1 (-1) 0 0.01 0.01))
             (dot (madd (dot (transition 0.001 0)
                           (dot (previous_cov (scenario_filter 1 (-1) 0 0.01 0.01))
                              (transpose (transition 0.001 0))))
                        (process_noise (scenario_filter 1 (-1) 0 0.01 0.01)))
                  (transpose (measurement_effect (scenario_filter 1 (-1) 0 0.01 0.01))))))
       I0 j = 0.
Proof.
  destruct j;
    cbv [scenario_filter measurement_cov previous_cov process_noise measurement_effect];
    mat_unfold; ring.
Qed.

Lemma singular_update_keeps_prediction_witness :
  constructed (scenario_filter 1 (-1) 0 0.01 0.01) /\
  loaded (scenario_filter 1 (-1) 0 0.01 0.01) /\
  (0 < length (time (scenario_filter 1 (-1) 0 0.01 0.01)))%nat /\
  at2 (odometry (scenario_filter 1 (-1) 0 0.01 0.01)) 0 2 = Ok 0 /\
  exists self',
    state_update 0 (scenario_filter 1 (-1) 0 0.01 0.01) = (self', Raise LinAlgError) /\
    state self' = [vzero] /\
    previous_cov (scenario_filter 1 (-1) 0 0.01 0.01) = mscale identity 0 /\
    mget (previous_cov self') I0 I0 = 1.
Proof.
  split; [apply scenario_constructed|]. split; [apply scenario_loaded|].
  split; [cbn; lia|]. split; [reflexivity|].
  destruct (singular_update_keeps_prediction inv (scenario_filter 1 (-1) 0 0.01 0.01) 0 0
              LinAlgError
              (scenario_constructed _ _ _ _ _) (scenario_loaded _ _ _ _ _)
              ltac:(cbn; lia) eq_refl
              (inv_singular _ (zero_row_not_invertible _ scenario_singular)))
    as (self' & Hu & Hs & Hp & _).
  exists self'. split; [exact Hu|]. split; [exact Hs|]. split; [reflexivity|].
  rewrite Hp. cbv [scenario_filter previous_cov process_noise delta_t]. mat_unfold. ring.
Defined.

Lemma model_predict_correct_witness :
  constructed (scenario_filter 0.0001 0.01 0.01 0.01 0.01) /\
  loaded (scenario_filter 0.0001 0.01 0.01 0.01 0.01) /\
  (2 < length (time (scenario_filter 0.0001 0.01 0.01 0.01 0.01)))%nat /\
  exists theta previous_state,
    at2 (odometry (scenario_filter 0.0001 0.01 0.01 0.01 0.01)) 2 2 = Ok theta /\
    last (state (scenario_filter 0.0001 0.01 0.01 0.01 0.01)) = Some previous_state /\
    control_input (scenario_filter 0.0001 0.01 0.01 0.01 0.01) = vzero.
Proof.
  split; [apply scenario_constructed|]. split; [apply scenario_loaded|].
  split; [cbn; lia|].
  destruct (model_predict_correct (scenario_filter 0.0001 0.01 0.01 0.01 0.01) 2
              (scenario_constructed _ _ _ _ _) (scenario_loaded _ _ _ _ _) ltac:(cbn; lia))
    as (theta & x & Ht & Hx & Hc & _).
  exists theta, x. repeat split; assumption.
Defined.

(** ** The loop of [run] *)

Lemma for_each_app (l1 l2 : list nat) (body : nat -> Method unit) :
  forall self,
    for_each (l1 ++ l2) body self
    = match for_each l1 body self with
      | (self1, Ok _) => for_each l2 body self1
      | (self1, Raise e) => (self1, Raise e)
      end.
Proof.
  induction l1 as [|index l1 IH]; intros self; [reflexivity|].
  cbn [for_each app]. unfold mbind, method_bind.
  destruct (body index self) as [self1 [[]|e]]; [apply IH|reflexivity].
Qed.

Lemma for_each_cons (index : nat) (rest : list nat) (body : nat -> Method unit)
    (self : Kalman_filter) :
  for_each (index :: rest) body self
  = match body index self with
    | (self1, Ok _) => for_each rest body self1
    | (self1, Raise e) => (self1, Raise e)
    end.
Proof. reflexivity. Qed.

(** The loop assigns [previous_cov] and [state] only, keeps the history it
    found as a prefix, and appends one state per index when it returns and
    fewer when it raises. *)
Lemma for_each_with_frame (linalg_inv : mat5 -> result mat5) (indices : list nat) :
  forall (self self' : Kalman_filter) (r : result unit),
    for_each indices (state_update_with linalg_inv) self = (self', r) ->
    same_configuration self self' /\
    exists history,
      state self' = state self ++ history /\
      match r with
      | Ok _ => length history = length indices
      | Raise _ => (length history < length indices)%nat
      end.
Proof.
  induction indices as [|index rest IH]; intros self self' r.
  - intros [= <- <-]. split; [apply same_configuration_refl|].
    exists []. split; [symmetry; apply app_nil_r|reflexivity].
  - rewrite for_each_cons.
    destruct (state_update_with linalg_inv index self) as [self1 [[]|e]] eqn:Hu;
      destruct (state_update_with_frame _ _ _ _ _ Hu) as [Hcfg Hst].
    + intros Hrest. destruct (IH _ _ _ Hrest) as (Hcfg' & history & Hh & Hlen).
      split; [eapply same_configuration_trans; eassumption|].
      destruct Hst as [x Hx]. exists (x :: history). split.
      * rewrite Hh, Hx, <- app_assoc. reflexivity.
      * destruct r; cbn [length]; lia.
    + intros [= <- <-]. split; [assumption|].
      exists []. split; [rewrite app_nil_r; assumption|cbn; lia].
Qed.

Lemma for_each_frame (indices : list nat) :
  forall (self self' : Kalman_filter) (r : result unit),
    for_each indices state_update self = (self', r) ->
    same_configuration self self' /\
    exists history,
      state self' = state self ++ history /\
      match r with
      | Ok _ => length history = length indices
      | Raise _ => (length history < length indices)%nat
      end.
Proof. exact (for_each_with_frame inv indices). Qed.

Lemma run_with_eq (linalg_inv : mat5 -> result mat5) (self : Kalman_filter) :
  run_with linalg_inv self
  = for_each (seq 0 (length (time self))) (state_update_with linalg_inv) self.
Proof. reflexivity. Qed.

Lemma run_eq (self : Kalman_filter) :
  run self = for_each (seq 0 (length (time self))) state_update self.
Proof. reflexivity. Qed.

Lemma seq_split (n i : nat) :
  (i < n)%nat -> seq 0 n = seq 0 i ++ i :: seq (S i) (n - S i).
Proof.
  intros Hi. replace n with (i + S (n - S i))%nat at 1 by lia.
  rewrite seq_app. reflexivity.
Qed.

(** The loop keeps a constructed and loaded object constructed and loaded. *)
Lemma for_each_with_invariant (linalg_inv : mat5 -> result mat5) (indices : list nat)
    (self self' : Kalman_filter) (r : result unit) :
  for_each indices (state_update_with linalg_inv) self = (self', r) ->
  constructed self -> loaded self ->
  constructed self' /\ loaded self' /\ length (time self') = length (time self) /\
  odometry self' = odometry self.
Proof.
  intros Hloop Hc Hl.
  destruct (for_each_with_frame _ _ _ _ _ Hloop) as (Hcfg & history & Hh & _).
  assert (state self' <> []) as Hne.
  { rewrite Hh. destruct Hl as (_ & _ & _ & _ & _ & Hs).
    destruct (state self); [contradiction|discriminate]. }
  destruct (loaded_same_configuration _ _ Hcfg Hne Hl) as [Hl' Ht].
  split; [eapply constructed_same_configuration; eassumption|].
  split; [assumption|]. split; [assumption|]. apply Hcfg.
Qed.

Lemma for_each_invariant (indices : list nat) (self self' : Kalman_filter) (r : result unit) :
  for_each indices state_update self = (self', r) ->
  constructed self -> loaded self ->
  constructed self' /\ loaded self' /\ length (time self') = length (time self) /\
  odometry self' = odometry self.
Proof. exact (for_each_with_invariant inv indices self self' r). Qed.

(** A loop that returns has returned on every prefix of its indices. *)
Lemma for_each_prefix (l1 l2 : list nat) (body : nat -> Method unit)
    (self self' : Kalman_filter) :
  for_each (l1 ++ l2) body self = (self', Ok ()) ->
  exists self1,
    for_each l1 body self = (self1, Ok ()) /\ for_each l2 body self1 = (self', Ok ()).
Proof.
  rewrite for_each_app. destruct (for_each l1 body self) as [self1 [[]|e]]; [|discriminate].
  intros H. exists self1. split; [reflexivity|exact H].
Qed.

(** The history after the first [k] of [n] steps that return is a prefix of
    the history after the [n] steps. *)
Lemma for_each_with_take (linalg_inv : mat5 -> result mat5) (n k : nat)
    (self self_n : Kalman_filter) :
  for_each (seq 0 n) (state_update_with linalg_inv) self = (self_n, Ok ()) ->
  (k <= n)%nat ->
  exists self_k,
    for_each (seq 0 k) (state_update_with linalg_inv) self = (self_k, Ok ()) /\
    for_each (seq k (n - k)) (state_update_with linalg_inv) self_k = (self_n, Ok ()) /\
    state self_k = take (length (state self) + k) (state self_n).
Proof.
  intros Hrun Hk.
  replace n with (k + (n - k))%nat in Hrun at 1 by lia.
  rewrite seq_app in Hrun.
  destruct (for_each_prefix _ _ _ _ _ Hrun) as (self_k & Hk1 & Hk2).
  exists self_k. split; [exact Hk1|]. split; [exact Hk2|].
  destruct (for_each_with_frame _ _ _ _ _ Hk1) as (_ & h1 & Hh1 & Hl1).
  destruct (for_each_with_frame _ _ _ _ _ Hk2) as (_ & h2 & Hh2 & _).
  rewrite length_seq in Hl1. rewrite Hh2, Hh1.
  symmetry. apply take_app_length'. rewrite length_app. lia.
Qed.


Lemma scenario_zero_row (j : ix) :
  mget (madd (measurement_cov (scenario_filter 0 0 0 0.01 0.01))
          (dot (measurement_effect (scenario_filter 0 0 0 0.01 0.01))
             (dot (madd (dot (transition 0.001 0)
                           (dot (previous_cov (scenario_filter 0 0 0 0.01 0.01))
                              (transpose (transition 0.001 0))))
                        (process_noise (scenario_filter 0 0 0 0.01 0.01)))
                  (transpose (measurement_effect (scenario_filter 0 0 0 0.01 0.01))))))
       I0 j = 0.
Proof.
  destruct j;
    cbv [scenario_filter measurement_cov previous_cov process_noise measurement_effect];
    mat_unfold; ring.
Qed.





















(** ** The history *)

(** The time array has one row per line of the file, except for the (1,0)
    arrays of an empty file. *)
Lemma init_time_length (file : list csv_line) (pn mc pc : R) (go io : option (list R))
    (noise : option array) (self : Kalman_filter) :
  __init__ file pn mc pc go io noise = Ok self ->
  (file = [] /\ time self = [[]] /\ odometry self = [[]])
  \/ ((0 < length file)%nat /\ length (time self) = length file).
Proof.
  intros Hinit.
  destruct (init_Ok _ _ _ _ _ _ _ _ Hinit) as (data & Hdata & _ & _ & _ & Ht & Ho & _).
  destruct file as [|line rest].
  - left. injection Hdata as <-. repeat split; assumption.
  - right. split; [cbn; lia|].
    destruct (get_data_cases (line :: rest))
      as [(t & o & i & ic & g & gc & E & Hfrom & _)|(e & E & _)];
      rewrite E in Hdata; [|discriminate].
    injection Hdata as <-. destruct (read_from_shapes _ _ _ _ _ _ _ Hfrom) as [[_ Lt] _].
    rewrite Ht. cbn [data_time]. rewrite np_matrix_nonempty; [exact Lt|].
    rewrite Lt. cbn. lia.
Qed.

(** On the arrays of an empty file the only step of [run] raises. *)
Lemma run_empty_file (self : Kalman_filter) :
  time self = [[]] -> odometry self = [[]] -> run self = (self, Raise IndexError).
Proof.
  intros Ht Ho. rewrite run_eq, Ht. cbn [length seq]. rewrite for_each_cons.
  rewrite (state_update_predict_fails self self 0 IndexError); [reflexivity|].
  rewrite model_predict_eq, Ho. reflexivity.
Qed.

(** The composer reads the configuration and the arrays only. *)
Lemma fuse_readings_same_configuration (self self' : Kalman_filter) (index : nat) :
  same_configuration self self' -> fuse_readings self' index = fuse_readings self index.
Proof.
  intros (Hw & _ & Hv & _ & _ & _ & _ & Hmc & _ & Ho & Hi & Hic & Hg & Hgc).
  unfold fuse_readings. rewrite Hw, Hv, Hmc, Ho, Hi, Hic, Hg, Hgc. reflexivity.
Qed.

(** A step that returns, on a constructed object: the reads and the
    inversion have returned, and the state appended is the predicted state
    corrected by the gain. *)
Lemma state_update_with_Ok (linalg_inv : mat5 -> result mat5) (self self' : Kalman_filter)
    (index : nat) :
  constructed self ->
  state_update_with linalg_inv index self = (self', Ok ()) ->
  exists theta previous_state z composed cov_Y_inv,
    at2 (odometry self) index 2 = Ok theta /\
    last (state self) = Some previous_state /\
    fuse_readings self index = Ok (z, composed) /\
    let F := transition (delta_t self) theta in
    let state_pred := dotv F previous_state in
    let cov_pred :=
      madd (dot F (dot (previous_cov self) (transpose F))) (process_noise self) in
    let cov_Y := madd (measurement_cov self) cov_pred in
    let K := dot cov_pred cov_Y_inv in
    linalg_inv cov_Y = Ok cov_Y_inv /\
    state self' = state self ++ [vadd state_pred (dotv K (vsub z state_pred))] /\
    previous_cov self' = msub cov_pred (dot K (dot cov_Y (transpose K))).
Proof.
  intros Hc.
  destruct (model_predict index self) as [self1 [x_pred|e]] eqn:Hp;
    [|rewrite (state_update_with_predict_fails _ _ _ _ _ Hp); discriminate].
  rewrite (state_update_with_eq _ _ _ _ _ Hp).
  rewrite model_predict_eq in Hp.
  destruct (at2 (odometry self) index 2) as [theta|e] eqn:Ht; [|discriminate].
  cbv zeta in Hp. destruct (last (state self)) as [x|] eqn:Hx; [|discriminate].
  injection Hp as <- <-.
  rewrite fuse_readings_with_previous_cov, (constructed_control_effect self Hc), vadd_vzero_r.
  destruct (fuse_readings self index) as [[z Rm]|e]; [|discriminate].
  rewrite innovation_cov_identity by apply Hc.
  cbn [measurement_cov previous_cov with_previous_cov].
  destruct (linalg_inv _) as [cov_Y_inv|e] eqn:E; [|discriminate].
  intros [= <-]. exists theta, x, z, Rm, cov_Y_inv.
  split; [reflexivity|]. split; [reflexivity|]. split; [reflexivity|]. cbv zeta.
  split; [exact E|].
  unfold gain. cbn [measurement_effect previous_cov state with_previous_cov with_state].
  destruct Hc as (_ & _ & -> & _).
  rewrite transpose_identity, dot_identity_l, dotv_identity. split; reflexivity.
Qed.

(** C8. After a run that completes on a file of N timesteps, whatever the
    routine that inverts, the history holds exactly N+1 states: the initial
    zero state and then one posterior state per timestep, in order. Entry
    [k+1] is the posterior state of timestep [k]: the state predicted from
    entry [k] at the heading of line [k], corrected by the gain of that
    timestep applied to the measurement composed from line [k], that is
    [state_pred + K * (z - H * state_pred)] with
    [K = cov_pred * H^T * cov_Y_inv]. The history
    is append-only: the history after the first [k] timesteps is the prefix
    of length [k+1] of the final history. *)
Theorem run_history (linalg_inv : mat5 -> result mat5) (file : list csv_line) (pn mc pc : R)
    (go io : option (list R)) (noise : option array) (self self' : Kalman_filter) :
  __init__ file pn mc pc go io noise = Ok self ->
  run_with linalg_inv self = (self', Ok ()) ->
  length (state self') = (length file + 1)%nat /\
  (exists posterior, state self' = vzero :: posterior /\ length posterior = length file) /\
  (forall k, (k <= length file)%nat ->
     exists self_k,
       for_each (seq 0 k) (state_update_with linalg_inv) self = (self_k, Ok ()) /\
       state self_k = take (S k) (state self')) /\
  forall k, (k < length file)%nat ->
    exists self_k previous_state theta z composed cov_Y_inv,
      for_each (seq 0 k) (state_update_with linalg_inv) self = (self_k, Ok ()) /\
      state self' !! k = Some previous_state /\
      at2 (odometry self) k 2 = Ok theta /\
      fuse_readings self k = Ok (z, composed) /\
      let F := transition (delta_t self) theta in
      let state_pred := dotv F previous_state in
      let cov_pred :=
        madd (dot F (dot (previous_cov self_k) (transpose F))) (process_noise self) in
      let H := measurement_effect self in
      let cov_Y := madd (measurement_cov self) (dot H (dot cov_pred (transpose H))) in
      let K := dot cov_pred (dot (transpose H) cov_Y_inv) in
      linalg_inv cov_Y = Ok cov_Y_inv /\
      state self' !! S k = Some (vadd state_pred (dotv K (vsub z (dotv H state_pred)))).
Proof.
  intros Hinit Hrun.
  destruct (init_Ok _ _ _ _ _ _ _ _ Hinit)
    as (data & _ & _ & _ & _ & _ & _ & _ & _ & _ & _ & _ & _ & _ & Hs0 & Hc).
  destruct (init_time_length _ _ _ _ _ _ _ _ Hinit) as [(_ & Ht & Ho)|[Hfile Hlen]].
  { rewrite run_with_eq, Ht in Hrun. cbn [length seq] in Hrun. rewrite for_each_cons in Hrun.
    rewrite (state_update_with_predict_fails linalg_inv self self 0 IndexError) in Hrun;
      [discriminate|].
    rewrite model_predict_eq, Ho. reflexivity. }
  rewrite run_with_eq, Hlen in Hrun.
  destruct (for_each_with_frame _ _ _ _ _ Hrun) as (_ & posterior & Hh & Hpl).
  rewrite length_seq in Hpl. rewrite Hs0 in Hh.
  split; [rewrite Hh; cbn; lia|]. split; [exists posterior; split; assumption|].
  split.
  - intros k Hk.
    destruct (for_each_with_take _ _ _ _ _ Hrun Hk) as (self_k & Hk1 & _ & Hk2).
    exists self_k. split; [exact Hk1|]. rewrite Hk2, Hs0. reflexivity.
  - intros k Hk.
    destruct (for_each_with_take _ _ _ _ _ Hrun (Nat.lt_le_incl _ _ Hk))
      as (self_k & Hk1 & Hrest & Hk2).
    destruct (for_each_with_frame _ _ _ _ _ Hk1) as (Hcfg & h1 & Hh1 & Hl1).
    pose proof (constructed_same_configuration _ _ Hcfg Hc) as Hc_k.
    rewrite length_seq in Hl1.
    replace (length file - k)%nat with (S (length file - S k)) in Hrest by lia.
    cbn [seq] in Hrest. rewrite for_each_cons in Hrest.
    destruct (state_update_with linalg_inv k self_k) as [self_k1 [[]|e]] eqn:Hu;
      [|discriminate].
    destruct (state_update_with_Ok _ _ _ _ Hc_k Hu)
      as (theta & x & z & Rm & cov_Y_inv & Hth & Hx & Hf & Hinv & Hst & _).
    cbv zeta in Hinv, Hst.
    destruct (for_each_with_frame _ _ _ _ _ Hrest) as (_ & h2 & Hh2 & _).
    rewrite (fuse_readings_same_configuration _ _ _ Hcfg) in Hf.
    destruct Hcfg as (_ & Hdt & _ & _ & _ & Hq & _ & Hmc & _ & Hodo & _).
    rewrite Hodo in Hth.
    rewrite Hdt, Hq, Hmc in Hinv. rewrite Hdt, Hq in Hst.
    exists self_k, x, theta, z, Rm, cov_Y_inv.
    split; [exact Hk1|].
    assert (length (state self_k) = S k) as Hlk by (rewrite Hh1, Hs0, length_app; cbn; lia).
    split.
    { rewrite Hh2, Hst, <- app_assoc, lookup_app_l by lia.
      rewrite <- Hx, last_lookup, Hlk. reflexivity. }
    split; [exact Hth|]. split; [exact Hf|]. cbv zeta.
    destruct Hc as (_ & _ & -> & _).
    rewrite transpose_identity, dot_identity_r, !dot_identity_l, dotv_identity.
    split; [exact Hinv|].
    rewrite Hh2, Hst, <- app_assoc, lookup_app_r by lia.
    rewrite Hlk, Nat.sub_diag. reflexivity.
Qed.

(** ** Symmetry of the covariance *)

Lemma symmetric_sandwich (a p : mat5) : symmetric p -> symmetric (dot a (dot p (transpose a))).
Proof.
  unfold symmetric. intros Hp.
  rewrite !transpose_dot, transpose_involutive, Hp. apply dot_assoc.
Qed.

Lemma symmetric_madd (a b : mat5) : symmetric a -> symmetric b -> symmetric (madd a b).
Proof. unfold symmetric. intros Ha Hb. rewrite transpose_madd, Ha, Hb. reflexivity. Qed.

Lemma symmetric_msub (a b : mat5) : symmetric a -> symmetric b -> symmetric (msub a b).
Proof. unfold symmetric. intros Ha Hb. rewrite transpose_msub, Ha, Hb. reflexivity. Qed.

(** The prediction keeps the covariance symmetric. *)
Lemma model_predict_symmetric (self self' : Kalman_filter) (index : nat) (r : result vec5) :
  symmetric (previous_cov self) -> symmetric (process_noise self) ->
  model_predict index self = (self', r) -> symmetric (previous_cov self').
Proof.
  intros Hp Hq. rewrite model_predict_eq.
  destruct (at2 (odometry self) index 2) as [theta|e].
  - cbv zeta. destruct (last (state self)); intros [= <- <-];
      apply symmetric_madd; try assumption; apply symmetric_sandwich; assumption.
  - intros [= <- <-]. assumption.
Qed.

(** The update keeps the covariance symmetric, whether it returns or raises. *)
Lemma state_update_symmetric (self self' : Kalman_filter) (index : nat) (r : result unit) :
  symmetric (previous_cov self) -> symmetric (process_noise self) ->
  symmetric (measurement_cov self) ->
  state_update index self = (self', r) -> symmetric (previous_cov self').
Proof.
  intros Hp Hq Hm.
  destruct (model_predict index self) as [self1 [x_pred|e]] eqn:Hpred.
  - pose proof (model_predict_symmetric _ _ _ _ Hp Hq Hpred) as Hp1.
    destruct (model_predict_frame _ _ _ _ Hpred) as [Hcfg _].
    assert (symmetric (measurement_cov self1)) as Hm1
      by (destruct Hcfg as (_ & _ & _ & _ & _ & _ & _ & -> & _); exact Hm).
    rewrite (state_update_eq _ _ _ _ Hpred).
    destruct (fuse_readings self1 index) as [[z Rm]|e]; [|intros [= <- <-]; exact Hp1].
    destruct (inv (innovation_cov self1)) as [cov_Y_inv|e]; intros [= <- <-]; [|exact Hp1].
    cbn [previous_cov with_previous_cov].
    apply symmetric_msub; [exact Hp1|]. apply symmetric_sandwich.
    unfold innovation_cov. apply symmetric_madd; [exact Hm1|].
    apply symmetric_sandwich, Hp1.
  - rewrite (state_update_predict_fails _ _ _ _ Hpred). intros [= <- <-].
    eapply model_predict_symmetric; eassumption.
Qed.

Lemma for_each_symmetric (indices : list nat) :
  forall (self self' : Kalman_filter) (r : result unit),
    symmetric (previous_cov self) -> symmetric (process_noise self) ->
    symmetric (measurement_cov self) ->
    for_each indices state_update self = (self', r) ->
    symmetric (previous_cov self').
Proof.
  induction indices as [|index rest IH]; intros self self' r Hp Hq Hm.
  - intros [= <- <-]. exact Hp.
  - rewrite for_each_cons.
    destruct (state_update index self) as [self1 [[]|e]] eqn:Hu.
    + destruct (state_update_frame _ _ _ _ Hu) as [(_ & _ & _ & _ & _ & Eq & _ & Em & _) _].
      apply IH; [eapply state_update_symmetric; eassumption| |].
      * rewrite Eq. exact Hq.
      * rewrite Em. exact Hm.
    + intros [= <- <-]. eapply state_update_symmetric; eassumption.
Qed.

(** C9. The covariance a constructor stores is symmetric, and it is
    symmetric after every prediction and after every update of every
    timestep of the run, and when [run] ends. (The entries are real numbers
    here, so the symmetry is exact.) *)
Theorem covariance_stays_symmetric (file : list csv_line) (pn mc pc : R)
    (go io : option (list R)) (noise : option array) (self : Kalman_filter) :
  __init__ file pn mc pc go io noise = Ok self ->
  symmetric (previous_cov self) /\
  (forall k self_k r,
     for_each (seq 0 k) state_update self = (self_k, r) ->
     symmetric (previous_cov self_k) /\
     (forall self_p r_p,
        model_predict k self_k = (self_p, r_p) -> symmetric (previous_cov self_p)) /\
     (forall self_u r_u,
        state_update k self_k = (self_u, r_u) -> symmetric (previous_cov self_u))) /\
  (forall self' r, run self = (self', r) -> symmetric (previous_cov self')).
Proof.
  intros Hinit.
  destruct (init_Ok _ _ _ _ _ _ _ _ Hinit)
    as (_ & _ & _ & _ & _ & _ & _ & _ & Hq & Hm & Hp & _).
  assert (symmetric (previous_cov self)) as Sp by (rewrite Hp; reflexivity).
  assert (symmetric (process_noise self)) as Sq by (rewrite Hq; reflexivity).
  assert (symmetric (measurement_cov self)) as Sm by (rewrite Hm; reflexivity).
  split; [exact Sp|]. split.
  - intros k self_k r Hk.
    pose proof (for_each_symmetric _ _ _ _ Sp Sq Sm Hk) as Sk.
    destruct (for_each_frame _ _ _ _ Hk) as ((_ & _ & _ & _ & _ & Eq & _ & Em & _) & _).
    rewrite <- Eq in Sq. rewrite <- Em in Sm.
    split; [exact Sk|]. split.
    + intros self_p r_p. apply model_predict_symmetric; assumption.
    + intros self_u r_u. apply state_update_symmetric; assumption.
  - intros self' r. rewrite run_eq. apply for_each_symmetric; assumption.
Qed.

Lemma covariance_stays_symmetric_witness :
  __init__ scenario_file 0.0001 0.01 0.01 None None None
  = Ok (scenario_filter 0.0001 0.01 0.01 0.01 0.01) /\
  symmetric (previous_cov (scenario_filter 0.0001 0.01 0.01 0.01 0.01)) /\
  symmetric (previous_cov (fst (run (scenario_filter 0.0001 0.01 0.01 0.01 0.01)))).
Proof.
  split; [apply init_scenario|].
  destruct (covariance_stays_symmetric scenario_file 0.0001 0.01 0.01 None None None _
              (init_scenario _ _ _)) as (H0 & _ & Hrun).
  split; [exact H0|]. eapply Hrun. apply surjective_pairing.
Defined.

(** ** A run that completes *)

(** With no process noise, a zero covariance and a unit measurement
    covariance the covariance stays zero and every step returns. *)
Lemma static_prediction (F : mat5) :
  madd (dot F (dot (mscale identity 0) (transpose F))) (mscale identity 0) = mscale identity 0.
Proof. destruct_mat F. mat_eq. Qed.

Lemma dot_zero_l (m : mat5) : dot (mscale identity 0) m = mscale identity 0.
Proof. destruct_mat m. mat_eq. Qed.

Lemma static_innovation : madd (mscale identity 1) (mscale identity 0) = identity.
Proof. mat_eq. Qed.

Lemma static_posterior :
  msub (mscale identity 0)
       (dot (dot (mscale identity 0) (dot (transpose identity) identity))
            (dot identity (transpose (dot (mscale identity 0) (dot (transpose identity) identity)))))
  = mscale identity 0.
Proof. rewrite !dot_zero_l. mat_eq. Qed.

Lemma inv_identity : inv identity = Ok identity.
Proof. apply inv_unique; apply dot_identity_l. Qed.

Lemma with_state_previous_cov (self : Kalman_filter) (history : list vec5) :
  with_previous_cov (with_state self history) (previous_cov self) = with_state self history.
Proof. reflexivity. Qed.

Lemma static_step (self : Kalman_filter) (index : nat) :
  constructed self -> loaded self -> (index < length (time self))%nat ->
  previous_cov self = mscale identity 0 ->
  process_noise self = mscale identity 0 ->
  measurement_cov self = mscale identity 1 ->
  exists x, state_update index self = (with_state self (state self ++ [x]), Ok ()).
Proof.
  intros Hc Hl Hi Hp Hq Hm.
  destruct (state_update_loaded self index Hc Hl Hi)
    as (theta & x & z & Rm & _ & _ & _ & _ & Hu).
  cbv zeta in Hu. rewrite innovation_cov_identity in Hu by apply Hc.
  cbn [measurement_cov previous_cov with_previous_cov] in Hu.
  rewrite Hp, Hq, Hm, static_prediction, static_innovation, inv_identity in Hu.
  unfold gain in Hu. cbn [measurement_effect previous_cov with_previous_cov] in Hu.
  destruct Hc as (_ & _ & Hme & _). rewrite Hme, static_posterior, <- Hp in Hu.
  rewrite with_state_previous_cov in Hu. eexists. exact Hu.
Qed.

Lemma static_run (indices : list nat) :
  forall self,
    constructed self -> loaded self ->
    Forall (fun index => (index < length (time self))%nat) indices ->
    previous_cov self = mscale identity 0 ->
    process_noise self = mscale identity 0 ->
    measurement_cov self = mscale identity 1 ->
    exists self', for_each indices state_update self = (self', Ok ()).
Proof.
  induction indices as [|index rest IH]; intros self Hc Hl Hall Hp Hq Hm.
  - exists self. reflexivity.
  - apply Forall_cons in Hall as [Hi Hall].
    destruct (static_step self index Hc Hl Hi Hp Hq Hm) as [x Hu].
    rewrite for_each_cons, Hu. apply IH; try assumption.
    destruct Hl as (Ho & Him & Hic & Hg & Hgc & _).
    unfold loaded. cbn. repeat (split; [assumption|]).
    destruct (state self); discriminate.
Qed.

(** ** A run that follows the measurements *)

(** With the process noise scale 1 and no measurement or initial covariance
    every step has the identity for predicted covariance, innovation
    covariance and gain: it appends the composed measurement and leaves the
    covariance zero. *)
Lemma unit_step (self : Kalman_filter) (index : nat) :
  constructed self -> loaded self -> (index < length (time self))%nat ->
  previous_cov self = mscale identity 0 ->
  process_noise self = mscale identity 1 ->
  measurement_cov self = mscale identity 0 ->
  exists z composed,
    fuse_readings self index = Ok (z, composed) /\
    state_update index self
    = (with_previous_cov (with_state self (state self ++ [z])) (mscale identity 0), Ok ()).
Proof.
  intros Hc Hl Hi Hp Hq Hm.
  destruct (state_update_loaded self index Hc Hl Hi)
    as (theta & x & z & Rm & _ & _ & Hf & _ & Hu).
  exists z, Rm. split; [assumption|].
  cbv zeta in Hu. rewrite innovation_cov_identity in Hu by apply Hc.
  unfold gain in Hu. cbn [measurement_cov measurement_effect previous_cov with_previous_cov] in Hu.
  destruct Hc as (_ & _ & Hme & _).
  rewrite Hp, Hq, Hm, Hme, unit_prediction, madd_zero_l, inv_identity in Hu.
  rewrite transpose_identity, !dot_identity_l, !dotv_identity, vadd_vsub, msub_self in Hu.
  exact Hu.
Qed.

Lemma unit_run (indices : list nat) :
  forall self,
    constructed self -> loaded self ->
    Forall (fun index => (index < length (time self))%nat) indices ->
    previous_cov self = mscale identity 0 ->
    process_noise self = mscale identity 1 ->
    measurement_cov self = mscale identity 0 ->
    exists self', for_each indices state_update self = (self', Ok ()).
Proof.
  induction indices as [|index rest IH]; intros self Hc Hl Hall Hp Hq Hm.
  - exists self. reflexivity.
  - apply Forall_cons in Hall as [Hi Hall].
    destruct (unit_step self index Hc Hl Hi Hp Hq Hm) as (z & Rm & _ & Hu).
    rewrite for_each_cons, Hu. apply IH; try assumption; try reflexivity.
    destruct Hl as (Ho & Him & Hic & Hg & Hgc & _).
    unfold loaded. cbn. repeat (split; [assumption|]).
    destruct (state self); discriminate.
Qed.

(** On the three-timestep file that run returns, and the first state it
    appends is the measurement composed from the first line: the velocity
    0.14 of the constructor, at the position and heading 0 of the sensors. *)
Lemma run_history_witness :
  exists self' z composed,
    __init__ scenario_file 1 0 0 None None None = Ok (scenario_filter 1 0 0 0.01 0.01) /\
    run (scenario_filter 1 0 0 0.01 0.01) = (self', Ok ()) /\
    length (state self') = 4%nat /\
    fuse_readings (scenario_filter 1 0 0 0.01 0.01) 0 = Ok (z, composed) /\
    state self' !! 1%nat = Some z /\
    vget z I2 = 0.14.
Proof.
  destruct (unit_run (seq 0 3) (scenario_filter 1 0 0 0.01 0.01)
              (scenario_constructed _ _ _ _ _) (scenario_loaded _ _ _ _ _)
              ltac:(repeat constructor) eq_refl eq_refl eq_refl) as [self' Hrun].
  destruct (run_history inv scenario_file 1 0 0 None None None _ _ (init_scenario _ _ _) Hrun)
    as (Hlen & _ & _ & Hpost).
  destruct (Hpost 0%nat ltac:(cbn; lia))
    as (self_0 & x & theta & z & Rm & cov_Y_inv & H0 & Hx & Ht & Hf & Hinv & Hz).
  injection H0 as <-. injection Ht as <-. cbv zeta in Hinv, Hz.
  change (delta_t (scenario_filter 1 0 0 0.01 0.01)) with 0.001 in Hinv, Hz.
  change (previous_cov (scenario_filter 1 0 0 0.01 0.01)) with (mscale identity 0) in Hinv, Hz.
  change (process_noise (scenario_filter 1 0 0 0.01 0.01)) with (mscale identity 1) in Hinv, Hz.
  change (measurement_cov (scenario_filter 1 0 0 0.01 0.01)) with (mscale identity 0) in Hinv.
  change (measurement_effect (scenario_filter 1 0 0 0.01 0.01)) with identity in Hinv, Hz.
  rewrite unit_prediction, transpose_identity in Hinv, Hz.
  rewrite !dot_identity_l, madd_zero_l, inv_identity in Hinv.
  injection Hinv as <-. rewrite !dot_identity_l, !dotv_identity, vadd_vsub in Hz.
  exists self', z, Rm. split; [apply init_scenario|]. split; [exact Hrun|].
  split; [exact Hlen|]. split; [exact Hf|]. split; [exact Hz|].
  apply fuse_readings_Ok in Hf
    as (ox & oy & ot & it & ict & gx & gy & gcx & gcy & _ & _ & _ & _ & _ & _ & _ & _ & _ & -> & _).
  reflexivity.
Defined.

(** ** Loading and the order of the timesteps *)

(** Row [n] of the arrays of a filter constructed without noise holds the
    fields of line [n] of the file; the covariances too, where they are not
    overridden. *)
Lemma init_lookup (file : list csv_line) (pn mc pc : R) (go io : option (list R))
    (self : Kalman_filter) (n : nat) (line : csv_line) :
  __init__ file pn mc pc go io None = Ok self -> file !! n = Some line ->
  exists t ox oy ot it ict gx gy gcx gcy,
    (field line time_index = Ok t /\
     field line odometer_x = Ok ox /\ field line odometer_y = Ok oy /\
     field line odometer_theta = Ok ot /\
     field line imu_theta = Ok it /\ field line imu_cov_theta = Ok ict /\
     field line gps_x = Ok gx /\ field line gps_y = Ok gy /\
     field line gps_cov_x = Ok gcx /\ field line gps_cov_y = Ok gcy) /\
    time self !! n = Some [t] /\
    odometry self !! n = Some [ox; oy; ot] /\
    imu self !! n = Some [it] /\
    gps self !! n = Some [gx; gy] /\
    (truthy io = false -> imu_cov self !! n = Some [ict]) /\
    (truthy go = false -> gps_cov self !! n = Some [gcx; gcy]).
Proof.
  intros Hinit Hn.
  destruct (init_Ok _ _ _ _ _ _ _ _ Hinit)
    as (data & Hdata & Hgc & Hic & Hg & Ht & Ho & Hi & _).
  unfold get_data in Hdata.
  destruct (read_lines file) as [[[[[[lt lo] li] lic] lg] lgc]|e] eqn:E; [|discriminate].
  cbn [mbind result_bind] in Hdata. injection Hdata as <-.
  cbn [data_time data_odometry data_imu data_imu_cov data_gps data_gps_cov] in *.
  destruct (read_lines_lookup _ _ _ _ _ _ _ _ _ E Hn)
    as (rt & ro & ri & ric & rg & rgc & Hline & Lt & Lo & Li & Lic & Lg & Lgc).
  destruct (read_line_Ok _ _ _ _ _ _ _ Hline)
    as (t & ox & oy & ot & it & ict & gx & gy & gcx & gcy & F1 & F2 & F3 & F4 & F5 & F6
        & F7 & F8 & F9 & F10 & -> & -> & -> & -> & -> & ->).
  exists t, ox, oy, ot, it, ict, gx, gy, gcx, gcy.
  split; [repeat split; assumption|].
  rewrite Ht, Ho, Hi, Hg.
  repeat (split; [apply np_matrix_lookup; assumption|]).
  split; intros Hnone; [rewrite Hnone in Hic; injection Hic as <-
                       |rewrite Hnone in Hgc; injection Hgc as <-];
    apply np_matrix_lookup; assumption.
Qed.

(** A file without malformed line is loaded by the constructor. *)
Lemma init_wellformed (file : list csv_line) (pn mc pc : R) :
  Forall (fun line => ~ malformed_line line) file ->
  exists self, __init__ file pn mc pc None None None = Ok self.
Proof.
  intros Hall.
  destruct (get_data_cases file)
    as [(t & o & i & ic & g & gc & E & _)|(e & _ & _ & Hbad)].
  - eexists. unfold __init__. rewrite E. reflexivity.
  - exfalso. apply Exists_exists in Hbad as (line & Hin & Hline).
    rewrite Forall_forall in Hall. exact (Hall line Hin Hline).
Qed.

(** C7 (as amended). A file with a line that has a missing or non-numeric
    field makes [get_data], and so the constructor, raise [KeyError],
    [TypeError] or [ValueError]: no filter object exists and no filtering
    step runs. The time values are not looked at: a file without such a line
    is loaded whatever they are, row [n] of every array holding the fields
    of line [n]. And filtering follows the order of the file: [run] makes
    the steps 0 to [k-1], then step [k], then the later ones, and step [k]
    predicts with the heading of line [k] and composes the readings of
    line [k]. *)
Theorem load_malformed (file : list csv_line) (pn mc pc : R) (go io : option (list R))
    (noise : option array) :
  (Exists malformed_line file ->
   exists e, load_error e /\ get_data file = Raise e /\
             __init__ file pn mc pc go io noise = Raise e) /\
  (Forall (fun line => ~ malformed_line line) file ->
   exists self,
     __init__ file pn mc pc None None None = Ok self /\
     forall n line, file !! n = Some line ->
       exists t ox oy ot it ict gx gy gcx gcy,
         (field line time_index = Ok t /\
          field line odometer_x = Ok ox /\ field line odometer_y = Ok oy /\
          field line odometer_theta = Ok ot /\
          field line imu_theta = Ok it /\ field line imu_cov_theta = Ok ict /\
          field line gps_x = Ok gx /\ field line gps_y = Ok gy /\
          field line gps_cov_x = Ok gcx /\ field line gps_cov_y = Ok gcy) /\
         time self !! n = Some [t] /\
         odometry self !! n = Some [ox; oy; ot] /\
         imu self !! n = Some [it] /\
         imu_cov self !! n = Some [ict] /\
         gps self !! n = Some [gx; gy] /\
         gps_cov self !! n = Some [gcx; gcy]) /\
  (forall (linalg_inv : mat5 -> result mat5) (self : Kalman_filter) (k : nat) (line : csv_line),
     __init__ file pn mc pc go io None = Ok self -> file !! k = Some line ->
     run_with linalg_inv self
     = match for_each (seq 0 k) (state_update_with linalg_inv) self with
       | (self_k, Ok _) =>
           match state_update_with linalg_inv k self_k with
           | (self_k', Ok _) =>
               for_each (seq (S k) (length file - S k)) (state_update_with linalg_inv) self_k'
           | (self_k', Raise e) => (self_k', Raise e)
           end
       | (self_k, Raise e) => (self_k, Raise e)
       end /\
     forall self_k,
       for_each (seq 0 k) (state_update_with linalg_inv) self = (self_k, Ok ()) ->
       exists ox oy ot it gx gy gcx gcy ict,
         (field line odometer_x = Ok ox /\ field line odometer_y = Ok oy /\
          field line odometer_theta = Ok ot /\ field line imu_theta = Ok it /\
          field line gps_x = Ok gx /\ field line gps_y = Ok gy) /\
         gps_cov self !! k = Some [gcx; gcy] /\ imu_cov self !! k = Some [ict] /\
         at2 (odometry self_k) k 2 = Ok ot /\
         fuse_readings self_k k
         = Ok (composed_mean self ox oy ot it gx gy gcx gcy ict,
               composed_cov self ox oy ot it gx gy gcx gcy ict)).
Proof.
  split; [|split].
  - intros Hbad. destruct (init_malformed file pn mc pc go io noise Hbad) as (e & E & He & Hi).
    exists e. repeat split; assumption.
  - intros Hall. destruct (init_wellformed file pn mc pc Hall) as [self Hinit].
    exists self. split; [exact Hinit|]. intros n line Hn.
    destruct (init_lookup _ _ _ _ _ _ _ _ _ Hinit Hn)
      as (t & ox & oy & ot & it & ict & gx & gy & gcx & gcy & Hf & Ht & Ho & Hi & Hg & Hic & Hgc).
    exists t, ox, oy, ot, it, ict, gx, gy, gcx, gcy.
    repeat (split; [assumption|]). split; [apply Hic; reflexivity|].
    split; [assumption|apply Hgc; reflexivity].
  - intros linalg_inv self k line Hinit Hk.
    assert (k < length file)%nat as Hlt by (apply lookup_lt_is_Some; eauto).
    destruct (init_loaded _ _ _ _ _ _ _ Hinit ltac:(lia)) as [Hl Hlen].
    destruct (init_Ok _ _ _ _ _ _ _ _ Hinit)
      as (_ & _ & _ & _ & _ & _ & _ & _ & _ & _ & _ & _ & _ & _ & _ & Hc).
    split.
    + rewrite run_with_eq, Hlen, (seq_split _ k Hlt), for_each_app.
      destruct (for_each (seq 0 k) _ self) as [self_k [[]|e]]; reflexivity.
    + intros self_k Hloop.
      destruct (for_each_with_invariant _ _ _ _ _ Hloop Hc Hl) as (_ & Hl_k & Hlen_k & _).
      destruct (for_each_with_frame _ _ _ _ _ Hloop) as (Hcfg & _).
      destruct (fuse_readings_loaded self_k k Hl_k ltac:(lia))
        as (ox & oy & ot & it & ict & gx & gy & gcx & gcy & Ro & Ri & Ric & Rg & Rgc & Hf).
      destruct (init_lookup _ _ _ _ _ _ _ _ _ Hinit Hk)
        as (t' & ox' & oy' & ot' & it' & ict' & gx' & gy' & gcx' & gcy' & Hfields
            & _ & Ho & Hi & Hg & _).
      destruct Hfields as (_ & F2 & F3 & F4 & F5 & _ & F7 & F8 & _).
      assert (at2 (odometry self_k) k 2 = Ok ot) as Hth
        by (unfold at2; rewrite Ro; reflexivity).
      destruct Hcfg as (Hw & _ & Hv & _ & _ & _ & _ & Hmc & _ & Eo & Ei & Eic & Eg & Egc).
      rewrite Eo, Ho in Ro. rewrite Ei, Hi in Ri. rewrite Eg, Hg in Rg.
      injection Ro as <- <- <-. injection Ri as <-. injection Rg as <- <-.
      rewrite Eic in Ric. rewrite Egc in Rgc.
      exists ox', oy', ot', it', gx', gy', gcx, gcy, ict.
      split; [repeat split; assumption|]. split; [assumption|]. split; [assumption|].
      split; [exact Hth|]. rewrite Hf. unfold composed_mean, composed_cov.
      rewrite Hw, Hv, Hmc. reflexivity.
Qed.

Lemma load_malformed_witness :
  Exists malformed_line malformed_file /\
  (exists e, load_error e /\ get_data malformed_file = Raise e /\
             __init__ malformed_file 1 0 0 None None None = Raise e) /\
  Forall (fun line => ~ malformed_line line) unordered_file /\
  exists self self_1 t ot,
    __init__ unordered_file 1 0 0 None None None = Ok self /\
    field (scenario_line "2" "2" "0" "0" "0" "0.01" "2" "0" "0.01" "0.01") time_index = Ok t /\
    time self !! 0%nat = Some [t] /\
    for_each (seq 0 1) state_update self = (self_1, Ok ()) /\
    field (scenario_line "0" "0" "0" "0" "0" "0.01" "0" "0" "0.01" "0.01") odometer_theta
    = Ok ot /\
    at2 (odometry self_1) 1 2 = Ok ot.
Proof.
  split; [exact malformed_file_malformed|].
  split; [exact (proj1 (load_malformed malformed_file 1 0 0 None None None)
                   malformed_file_malformed)|].
  split; [exact unordered_file_wellformed|].
  destruct (proj1 (proj2 (load_malformed unordered_file 1 0 0 None None None))
              unordered_file_wellformed) as (self & Hinit & Hrows).
  destruct (Hrows 0%nat _ eq_refl)
    as (t & ox & oy & ot0 & it & ict & gx & gy & gcx & gcy & (Ft & _) & Ht & _).
  destruct (init_Ok _ _ _ _ _ _ _ _ Hinit)
    as (_ & _ & _ & _ & _ & _ & _ & _ & Hq & Hm & Hp & _ & _ & _ & _ & Hc).
  destruct (init_loaded _ _ _ _ _ _ _ Hinit ltac:(cbn; lia)) as [Hl Hlen].
  destruct (unit_step self 0 Hc Hl ltac:(rewrite Hlen; cbn; lia) Hp Hq Hm)
    as (z & composed & _ & Hu).
  assert (for_each (seq 0 1) (state_update_with inv) self
          = (with_previous_cov (with_state self (state self ++ [z])) (mscale identity 0),
             Ok ())) as Hloop.
  { cbn [seq]. rewrite for_each_cons. change (state_update_with inv 0) with (state_update 0).
    rewrite Hu. reflexivity. }
  destruct (proj2 (proj2 (load_malformed unordered_file 1 0 0 None None None))
              inv self 1%nat _ Hinit eq_refl) as [_ Hstep].
  destruct (Hstep _ Hloop)
    as (ox1 & oy1 & ot & it1 & gx1 & gy1 & gcx1 & gcy1 & ict1 & (_ & _ & Fot & _) & _ & _ & Hth & _).
  eexists self, _, t, ot. split; [exact Hinit|]. split; [exact Ft|]. split; [exact Ht|].
  split; [exact Hloop|]. split; [exact Fot|exact Hth].
Defined.

(** C7 (counterexample). A file whose timesteps are 2 then 0, out of order
    and with index 1 missing, is loaded without any exception: the
    constructor returns a filter whose time array is that of the file. *)
Lemma unordered_file_loads :
  exists self,
    __init__ unordered_file 0.0001 0.01 0.01 None None None = Ok self /\
    time self = [[2]; [0]].
Proof.
  eexists. unfold __init__. rewrite get_data_unordered. split; reflexivity.
Qed.

(** ** Worked examples *)

Example float_literal_hundredth : float_literal "0.01" = Some (Decimal 1 (-2)).
Proof. reflexivity. Qed.

Example float_literal_exponent : float_literal " -2.5e3 " = Some (Decimal (-25) 2).
Proof. reflexivity. Qed.

Example float_literal_text : float_literal "abc" = None.
Proof. reflexivity. Qed.

Example float_missing_cell : float None = Raise TypeError.
Proof. reflexivity. Qed.

Example nonfinite_literal_infinity : nonfinite_literal " -Infinity " = true.
Proof. reflexivity. Qed.

Example nonfinite_literal_text : nonfinite_literal "info" = false.
Proof. reflexivity. Qed.

Example float_nan : float (Some "nan") = Ok (nonfinite_value "nan").
Proof. reflexivity. Qed.

Example np_matrix_no_row : np_matrix [] = [[]].
Proof. reflexivity. Qed.

Example set_column_out_of_range : set_column [[1; 2]] 2 0 = Raise IndexError.
Proof. reflexivity. Qed.

(** Two sources of equal deviation that disagree are fused half way. *)
Example fuse_half_way : fst (fuse 1 3 0.1 0.1) = 2.
Proof.
  unfold fuse, fst. replace (0.1 ^ 2) with 0.01 by lra.
  rewrite Rmax_left by (unfold float32_eps; lra). lra.
Qed.

(** A zero deviation is floored, and the fused mean stays finite. *)
Example fuse_zero_deviation : fst (fuse 1 3 0 0) = 2.
Proof.
  unfold fuse, fst. replace (0 ^ 2) with 0 by lra.
  rewrite Rmax_right by (unfold float32_eps; lra). unfold float32_eps. lra.
Qed.

(** The prediction of the motion model at heading 0: [x] and [y] both move
    by [delta_t * v], the heading by [delta_t * omega]. *)
Example transition_heading_zero (dt x y v h w : R) :
  dotv (transition dt 0) (Vec5 x y v h w) = Vec5 (x + dt * v) (y + dt * v) v (h + dt * w) w.
Proof.
  unfold transition, radians. rewrite Rmult_0_l, cos_0. mat_eq.
Qed.

(** * Further properties of the code *)

(** ** More on the fusion primitive *)

(** X1. [fuse] treats its two sources alike: swapping the two means together
    with their deviations gives the same mean and the same deviation. *)
Theorem fuse_swap (m1 m2 sigma1 sigma2 : R) :
  fuse m1 m2 sigma1 sigma2 = fuse m2 m1 sigma2 sigma1.
Proof.
  unfold fuse.
  rewrite (Rplus_comm (m1 / _)), (Rplus_comm (1 / Rmax (sigma1 ^ 2) _)). reflexivity.
Qed.

(** X2. Two sources that report the same mean are fused to that mean,
    whatever their deviations, zero included. *)
Theorem fuse_agreeing_means (m sigma1 sigma2 : R) :
  fst (fuse m m sigma1 sigma2) = m.
Proof.
  unfold fuse, fst.
  pose proof (floor_pos (sigma1 ^ 2)). pose proof (floor_pos (sigma2 ^ 2)).
  field. repeat split; lra.
Qed.

(** X3. Fusing two sources of the same deviation [sigma >= 0] divides the
    floored deviation by [sqrt 2]: the result is [max sigma (sqrt eps) / sqrt 2],
    so [sigma / sqrt 2] when [sigma^2 >= eps]. *)
Theorem fuse_equal_deviations (m1 m2 sigma : R) :
  0 <= sigma ->
  snd (fuse m1 m2 sigma sigma) = Rmax sigma (sqrt float32_eps) / sqrt 2 /\
  (float32_eps <= sigma ^ 2 -> snd (fuse m1 m2 sigma sigma) = sigma / sqrt 2).
Proof.
  intros Hs.
  assert (snd (fuse m1 m2 sigma sigma) = Rmax sigma (sqrt float32_eps) / sqrt 2) as E.
  { rewrite fuse_deviation, <- sqrt_floor by assumption.
    pose proof (floor_pos (sigma ^ 2)) as Hv.
    rewrite <- sqrt_div_alt by lra. f_equal. field. lra. }
  split; [exact E|]. intros Hle. rewrite E. f_equal.
  apply Rmax_left. rewrite <- (sqrt_pow2 sigma Hs) at 1. apply sqrt_le_1_alt, Hle.
Qed.

Lemma fuse_equal_deviations_witness :
  0 <= 1 /\ snd (fuse 0 3 1 1) = Rmax 1 (sqrt float32_eps) / sqrt 2.
Proof. split; [lra|]. apply (fuse_equal_deviations 0 3 1); lra. Defined.

(** X4. Deviations whose square is at most [eps] cannot be told apart: any
    two of them, zero included, give the same fused mean and deviation. *)
Theorem fuse_below_floor (m1 m2 sigma1 sigma1' sigma2 : R) :
  sigma1 ^ 2 <= float32_eps -> sigma1' ^ 2 <= float32_eps ->
  fuse m1 m2 sigma1 sigma2 = fuse m1 m2 sigma1' sigma2 /\
  fuse m2 m1 sigma2 sigma1 = fuse m2 m1 sigma2 sigma1'.
Proof.
  intros H1 H1'. unfold fuse.
  rewrite (Rmax_right (sigma1 ^ 2) float32_eps H1), (Rmax_right (sigma1' ^ 2) float32_eps H1').
  split; reflexivity.
Qed.

Lemma fuse_below_floor_witness :
  1e-6 ^ 2 <= float32_eps /\ 0 ^ 2 <= float32_eps /\
  fuse 1 3 1e-6 0.01 = fuse 1 3 0 0.01.
Proof.
  assert (1e-6 ^ 2 <= float32_eps) as H1 by (unfold float32_eps; lra).
  assert (0 ^ 2 <= float32_eps) as H0 by (unfold float32_eps; lra).
  split; [exact H1|]. split; [exact H0|].
  exact (proj1 (fuse_below_floor 1 3 1e-6 0 0.01 H1 H0)).
Defined.

(** X5. The fused deviation is never zero and never below [2^(-12)], the
    value reached when both variances sit on the floor [eps = 2^(-23)]. *)
Theorem fuse_deviation_floor (m1 m2 sigma1 sigma2 : R) :
  0 < / 2 ^ 12 <= snd (fuse m1 m2 sigma1 sigma2).
Proof.
  split; [lra|]. rewrite fuse_deviation.
  replace (/ 2 ^ 12) with (sqrt ((/ 2 ^ 12) ^ 2)) by (apply sqrt_pow2; lra).
  apply sqrt_le_1_alt.
  pose proof (precision_pos (sigma1 ^ 2)) as P1. pose proof (precision_pos (sigma2 ^ 2)) as P2.
  assert (forall x, 1 / Rmax x float32_eps <= 2 ^ 23) as Hb.
  { intros x. unfold Rdiv. rewrite Rmult_1_l.
    replace (2 ^ 23) with (/ float32_eps) by (unfold float32_eps; rewrite Rinv_inv; reflexivity).
    apply Rinv_le_contravar; [apply float32_eps_pos|apply Rmax_r]. }
  pose proof (Hb (sigma1 ^ 2)). pose proof (Hb (sigma2 ^ 2)).
  replace ((/ 2 ^ 12) ^ 2) with (/ 2 ^ 24) by lra.
  apply Rinv_le_contravar; lra.
Qed.

(** ** More on the covariance override *)

Lemma width_of_rows (k : nat) (arr : array) :
  rows_of_width k arr -> (0 < length arr)%nat -> width arr = k.
Proof.
  intros Hw Hl. destruct arr as [|r arr]; [cbn in Hl; lia|]. exact (Forall_inv Hw).
Qed.

(** One more column overridden in a row already overridden from [index] on. *)
Lemma override_row (r : list R) (index : nat) (value : R) (rest : list R) :
  (index < length r)%nat ->
  take (S index) (<[index := value]> r) ++ rest
    ++ drop (S index + length rest) (<[index := value]> r)
  = take index r ++ (value :: rest) ++ drop (index + length (value :: rest)) r.
Proof.
  intros Hi.
  rewrite (take_S_r _ _ value) by (apply list_lookup_insert_eq; assumption).
  rewrite take_insert_ge by lia. rewrite drop_insert_lt by lia.
  rewrite <- app_assoc. cbn [app length].
  replace (index + S (length rest))%nat with (S index + length rest)%nat by lia. reflexivity.
Qed.

Lemma override_cov_from_columns (k : nat) (values : list R) :
  forall (arr : array) (index : nat),
    rows_of_width k arr -> (0 < length arr)%nat -> (index + length values <= k)%nat ->
    override_cov_from arr index values
    = Ok ((fun r => take index r ++ values ++ drop (index + length values) r) <$> arr).
Proof.
  induction values as [|value rest IH]; intros arr index Hw Hl Hk.
  - cbn [override_cov_from]. f_equal. rewrite <- (list_fmap_id arr) at 1.
    apply Forall_fmap_ext, Forall_forall. intros r _. cbn.
    rewrite Nat.add_0_r. symmetry. apply take_drop.
  - cbn [override_cov_from]. cbn [length] in Hk.
    destruct (set_column_cases arr index value) as [[_ ->]|[H _]];
      [|exfalso; rewrite (width_of_rows k) in H by assumption; lia].
    cbn [mbind result_bind].
    assert (rows_of_width k ((fun r => <[index := value]> r) <$> arr)) as Hw'.
    { apply Forall_fmap. eapply Forall_impl; [exact Hw|].
      intros r Hr. cbn in Hr. cbn. rewrite length_insert. exact Hr. }
    rewrite IH; [|exact Hw'|rewrite length_fmap; exact Hl|lia].
    f_equal. rewrite <- list_fmap_compose.
    apply Forall_fmap_ext. eapply Forall_impl; [exact Hw|].
    intros r Hr. cbn in Hr. cbn. apply override_row. lia.
Qed.

Lemma override_cov_from_too_many (k : nat) (values : list R) :
  forall (arr : array) (index : nat),
    rows_of_width k arr -> (0 < length arr)%nat ->
    (index <= k)%nat -> (k < index + length values)%nat ->
    override_cov_from arr index values = Raise IndexError.
Proof.
  induction values as [|value rest IH]; intros arr index Hw Hl Hi Hk.
  - cbn [length] in Hk. lia.
  - cbn [override_cov_from].
    destruct (set_column_cases arr index value) as [[Hlt ->]|[_ ->]]; [|reflexivity].
    cbn [mbind result_bind]. rewrite (width_of_rows k) in Hlt by assumption.
    apply IH.
    + apply Forall_fmap. eapply Forall_impl; [exact Hw|].
      intros r Hr. cbn in Hr. cbn. rewrite length_insert. exact Hr.
    + rewrite length_fmap. exact Hl.
    + lia.
    + cbn [length] in Hk. lia.
Qed.

Lemma override_cov_within (k : nat) (arr : array) (values : list R) :
  rows_of_width k arr -> (0 < length arr)%nat -> (length values <= k)%nat ->
  override_cov arr values = Ok ((fun r => values ++ drop (length values) r) <$> arr).
Proof.
  intros Hw Hl Hk. unfold override_cov.
  rewrite (override_cov_from_columns k) by (assumption || lia). reflexivity.
Qed.

Lemma override_cov_beyond (k : nat) (arr : array) (values : list R) :
  rows_of_width k arr -> (0 < length arr)%nat -> (k < length values)%nat ->
  override_cov arr values = Raise IndexError.
Proof.
  intros Hw Hl Hk. unfold override_cov.
  apply (override_cov_from_too_many k); (assumption || lia).
Qed.

(** X6. [override_cov] with at most as many values as the array has columns
    replaces the first columns of every row by the values and keeps the
    other columns; with more values than columns it raises [IndexError]. *)
Theorem override_cov_columns (k : nat) (arr : array) (values : list R) :
  rows_of_width k arr -> (0 < length arr)%nat ->
  ((length values <= k)%nat ->
   override_cov arr values = Ok ((fun r => values ++ drop (length values) r) <$> arr)) /\
  ((k < length values)%nat -> override_cov arr values = Raise IndexError).
Proof.
  intros Hw Hl. split; intros Hk.
  - apply (override_cov_within k); assumption.
  - apply (override_cov_beyond k); assumption.
Qed.

Lemma override_cov_columns_witness :
  rows_of_width 2 [[1; 2]; [3; 4]] /\ (0 < length [[1; 2]; [3; 4]])%nat /\
  override_cov [[1; 2]; [3; 4]] [9] = Ok [[9; 2]; [9; 4]] /\
  override_cov [[1; 2]; [3; 4]] [9; 8; 7] = Raise IndexError.
Proof.
  assert (rows_of_width 2 [[1; 2]; [3; 4]]) as Hw by (repeat constructor).
  assert (0 < length [[1; 2]; [3; 4]])%nat as Hl by (cbn; lia).
  split; [exact Hw|]. split; [exact Hl|].
  destruct (override_cov_columns 2 [[1; 2]; [3; 4]] [9] Hw Hl) as [H1 _].
  destruct (override_cov_columns 2 [[1; 2]; [3; 4]] [9; 8; 7] Hw Hl) as [_ H2].
  split; [exact (H1 ltac:(cbn; lia))|exact (H2 ltac:(cbn; lia))].
Defined.

(** X7. Overriding twice with the same values is the same as overriding
    once, and a later override of all the columns wins over an earlier one. *)
Theorem override_cov_again (k : nat) (arr arr' : array) (values values' : list R) :
  rows_of_width k arr -> (0 < length arr)%nat ->
  override_cov arr values = Ok arr' ->
  override_cov arr' values = Ok arr' /\
  (length values' = k -> override_cov arr' values' = override_cov arr values').
Proof.
  intros Hw Hl H.
  destruct (Nat.le_gt_cases (length values) k) as [Hle|Hgt];
    [|rewrite (override_cov_beyond k _ _ Hw Hl Hgt) in H; discriminate].
  rewrite (override_cov_within k _ _ Hw Hl Hle) in H. injection H as <-.
  assert (rows_of_width k ((fun r => values ++ drop (length values) r) <$> arr)) as Hw'.
  { apply Forall_fmap. eapply Forall_impl; [exact Hw|].
    intros r Hr. cbn in Hr. cbn. rewrite length_app, length_drop. lia. }
  assert (0 < length ((fun r => values ++ drop (length values) r) <$> arr))%nat as Hl'
    by (rewrite length_fmap; exact Hl).
  split.
  - rewrite (override_cov_within k _ values Hw' Hl' Hle). f_equal.
    rewrite <- list_fmap_compose. apply Forall_fmap_ext, Forall_forall.
    intros r _. cbn. rewrite drop_app_length. reflexivity.
  - intros Hk.
    rewrite (override_cov_within k _ values' Hw' Hl') by lia.
    rewrite (override_cov_within k _ values' Hw Hl) by lia.
    f_equal. rewrite <- list_fmap_compose. apply Forall_fmap_ext.
    eapply Forall_impl; [exact Hw|]. intros r Hr. cbn in Hr. cbn.
    rewrite !drop_ge; [reflexivity|lia|rewrite length_app, length_drop; lia].
Qed.

Lemma override_cov_again_witness :
  rows_of_width 2 [[1; 2]; [3; 4]] /\ (0 < length [[1; 2]; [3; 4]])%nat /\
  override_cov [[1; 2]; [3; 4]] [9] = Ok [[9; 2]; [9; 4]] /\
  override_cov [[9; 2]; [9; 4]] [9] = Ok [[9; 2]; [9; 4]].
Proof.
  assert (rows_of_width 2 [[1; 2]; [3; 4]]) as Hw by (repeat constructor).
  assert (0 < length [[1; 2]; [3; 4]])%nat as Hl by (cbn; lia).
  assert (override_cov [[1; 2]; [3; 4]] [9] = Ok [[9; 2]; [9; 4]]) as H by reflexivity.
  split; [exact Hw|]. split; [exact Hl|]. split; [exact H|].
  exact (proj1 (override_cov_again 2 _ _ [9] [] Hw Hl H)).
Defined.

(** ** More on the loader *)

(** X8. Loading then reading back: when [get_data] returns, row [n] of each
    of the six arrays holds the numbers that [float] reads in the fields of
    line [n] of the file, in the columns the filter later indexes. *)
Theorem get_data_rows (file : list csv_line) (data : sensor_data) (n : nat) (line : csv_line) :
  get_data file = Ok data -> file !! n = Some line ->
  exists t ox oy ot it ict gx gy gcx gcy,
    (field line time_index = Ok t /\
     field line odometer_x = Ok ox /\ field line odometer_y = Ok oy /\
     field line odometer_theta = Ok ot /\
     field line imu_theta = Ok it /\ field line imu_cov_theta = Ok ict /\
     field line gps_x = Ok gx /\ field line gps_y = Ok gy /\
     field line gps_cov_x = Ok gcx /\ field line gps_cov_y = Ok gcy) /\
    data_time data !! n = Some [t] /\
    data_odometry data !! n = Some [ox; oy; ot] /\
    data_imu data !! n = Some [it] /\
    data_imu_cov data !! n = Some [ict] /\
    data_gps data !! n = Some [gx; gy] /\
    data_gps_cov data !! n = Some [gcx; gcy].
Proof.
  unfold get_data.
  destruct (read_lines file) as [[[[[[lt lo] li] lic] lg] lgc]|e] eqn:E; [|discriminate].
  cbn [mbind result_bind]. intros [= <-] Hn.
  destruct (read_lines_lookup _ _ _ _ _ _ _ _ _ E Hn)
    as (rt & ro & ri & ric & rg & rgc & Hline & Ht & Ho & Hi & Hic & Hg & Hgc).
  destruct (read_line_Ok _ _ _ _ _ _ _ Hline)
    as (t & ox & oy & ot & it & ict & gx & gy & gcx & gcy & F1 & F2 & F3 & F4 & F5 & F6
        & F7 & F8 & F9 & F10 & -> & -> & -> & -> & -> & ->).
  exists t, ox, oy, ot, it, ict, gx, gy, gcx, gcy.
  split; [repeat split; assumption|].
  cbn [data_time data_odometry data_imu data_imu_cov data_gps data_gps_cov].
  repeat split; apply np_matrix_lookup; assumption.
Qed.

Lemma get_data_rows_witness :
  get_data unordered_file
  = Ok (SensorData [[2]; [0]] [[2; 0; 0]; [0; 0; 0]] [[0]; [0]] [[0.01]; [0.01]]
          [[2; 0]; [0; 0]] [[0.01; 0.01]; [0.01; 0.01]]) /\
  unordered_file !! 1%nat
  = Some (scenario_line "0" "0" "0" "0" "0" "0.01" "0" "0" "0.01" "0.01") /\
  exists t, field (scenario_line "0" "0" "0" "0" "0" "0.01" "0" "0" "0.01" "0.01") time_index
            = Ok t.
Proof.
  split; [exact get_data_unordered|]. split; [reflexivity|].
  destruct (get_data_rows unordered_file _ 1 _ get_data_unordered eq_refl)
    as (t & ox & oy & ot & it & ict & gx & gy & gcx & gcy & (F1 & _) & _).
  exists t. exact F1.
Defined.

(** The fields of a line are read in the order of [field_names], up to the
    first one that raises. *)
Lemma read_line_first_error (line : csv_line) (before after : list string) (key : string)
    (e : exn) :
  field_names = before ++ key :: after ->
  Forall (fun k => ~ malformed_field line k) before ->
  field line key = Raise e ->
  read_line line = Raise e.
Proof.
  intros Hsplit Hbefore He. unfold field_names in Hsplit. unfold read_line.
  repeat (destruct before as [|? before];
          [injection Hsplit as <- <-; rewrite He; reflexivity
          |injection Hsplit as <- Hsplit;
           apply Forall_cons in Hbefore as [Hk Hbefore];
           apply field_Ok_iff in Hk as [? ->]; cbn [mbind result_bind]]).
  destruct before; discriminate Hsplit.
Qed.

Lemma read_lines_first_error (good : list csv_line) (line : csv_line) (rest : list csv_line)
    (e : exn) :
  Forall (fun l => ~ malformed_line l) good ->
  read_line line = Raise e ->
  read_lines (good ++ line :: rest) = Raise e.
Proof.
  intros Hgood He. induction Hgood as [|first good Hfirst Hgood IH].
  - cbn [app read_lines]. rewrite He. reflexivity.
  - cbn [app read_lines].
    destruct (read_line_cases first)
      as [(t & ox & oy & ot & it & ict & gx & gy & gcx & gcy & -> & _)|(e' & _ & _ & Hbad)];
      [|contradiction].
    cbn [mbind result_bind]. rewrite IH. reflexivity.
Qed.

(** X9. The exception of a load is that of the first malformed field, in the
    order of the file and, within a line, in the order the fields are read:
    the lines after it are not read, and the constructor raises the same
    exception. *)
Theorem get_data_first_error (good : list csv_line) (line : csv_line) (rest : list csv_line)
    (before after : list string) (key : string) (e : exn)
    (pn mc pc : R) (go io : option (list R)) (noise : option array) :
  Forall (fun l => ~ malformed_line l) good ->
  field_names = before ++ key :: after ->
  Forall (fun k => ~ malformed_field line k) before ->
  field line key = Raise e ->
  get_data (good ++ line :: rest) = Raise e /\
  __init__ (good ++ line :: rest) pn mc pc go io noise = Raise e.
Proof.
  intros Hgood Hsplit Hbefore He.
  assert (get_data (good ++ line :: rest) = Raise e) as E.
  { unfold get_data.
    rewrite (read_lines_first_error good line rest e Hgood
               (read_line_first_error line before after key e Hsplit Hbefore He)).
    reflexivity. }
  split; [exact E|]. apply init_Raise, E.
Qed.

(** A line with the texts [inf] and [NaN] is read. *)
Lemma nonfinite_line_wellformed :
  ~ malformed_line (scenario_line "0" "0" "0" "0" "0" "0.01" "inf" "NaN" "0.01" "0.01").
Proof.
  destruct (read_line_cases (scenario_line "0" "0" "0" "0" "0" "0.01" "inf" "NaN" "0.01" "0.01"))
    as [(t & ox & oy & ot & it & ict & gx & gy & gcx & gcy & _ & _ & _ & _ & Hok)|(e & E & _)];
    [exact Hok|].
  assert (exists v, read_line (scenario_line "0" "0" "0" "0" "0" "0.01" "inf" "NaN" "0.01" "0.01")
                    = Ok v) as [v Hv] by (eexists; reflexivity).
  rewrite Hv in E. discriminate E.
Qed.

Lemma get_data_first_error_witness :
  Forall (fun l => ~ malformed_line l)
    [scenario_line "0" "0" "0" "0" "0" "0.01" "inf" "NaN" "0.01" "0.01"] /\
  field_names = [time_index] ++ odometer_x :: [odometer_y; odometer_theta; imu_theta;
                                               imu_cov_theta; gps_x; gps_y; gps_cov_x;
                                               gps_cov_y] /\
  field (scenario_line "1" "abc" "0" "0" "0" "0.01" "1" "0" "0.01" "0.01") odometer_x
  = Raise (ValueError "abc") /\
  get_data nonfinite_file = Raise (ValueError "abc").
Proof.
  assert (Forall (fun l => ~ malformed_line l)
            [scenario_line "0" "0" "0" "0" "0" "0.01" "inf" "NaN" "0.01" "0.01"]) as Hgood
    by (constructor; [exact nonfinite_line_wellformed|constructor]).
  assert (Forall (fun k => ~ malformed_field
                             (scenario_line "1" "abc" "0" "0" "0" "0.01" "1" "0" "0.01" "0.01") k)
            [time_index]) as Hbefore.
  { constructor; [|constructor]. intros [H _]. vm_compute in H. discriminate H. }
  split; [exact Hgood|]. split; [reflexivity|]. split; [reflexivity|].
  exact (proj1 (get_data_first_error _ _ [] [time_index] _ odometer_x (ValueError "abc")
                  0.0001 0.01 0.01 None None None Hgood eq_refl Hbefore eq_refl)).
Defined.

(** ** The empty file *)

(** X10. On a file without data line the constructor returns (the arrays are
    the (1,0) matrices of [np.matrix([])], so [len(self.time)] is 1), and
    [run] then raises [IndexError] at its only step, leaving the history and
    the covariance as the constructor set them. With a covariance override
    the constructor itself raises [IndexError] on such a file. *)
Theorem empty_file (pn mc pc : R) (value : R) (values : list R) (io : option (list R))
    (noise : option array) :
  (exists self,
     __init__ [] pn mc pc None None None = Ok self /\
     length (time self) = 1%nat /\
     run self = (self, Raise IndexError) /\
     state self = [vzero] /\ previous_cov self = mscale identity pc) /\
  __init__ [] pn mc pc (Some (value :: values)) io noise = Raise IndexError /\
  __init__ [] pn mc pc None (Some (value :: values)) noise = Raise IndexError.
Proof.
  split; [|split; reflexivity].
  eexists. split; [reflexivity|]. split; [reflexivity|].
  split; [apply run_empty_file; reflexivity|]. split; reflexivity.
Qed.

(** ** Indices outside the data *)

Lemma at2_out_of_range (arr : array) (i j : nat) :
  (length arr <= i)%nat -> at2 arr i j = Raise IndexError.
Proof. intros H. unfold at2. rewrite (lookup_ge_None_2 _ _ H). reflexivity. Qed.

(** X11. A step at an index past the last row of the odometry raises
    [IndexError] before anything is assigned: [model_predict] and
    [state_update] leave the object exactly as it was. *)
Theorem step_out_of_range (self : Kalman_filter) (index : nat) :
  (length (odometry self) <= index)%nat ->
  model_predict index self = (self, Raise IndexError) /\
  state_update index self = (self, Raise IndexError).
Proof.
  intros H.
  assert (model_predict index self = (self, Raise IndexError)) as E
    by (rewrite model_predict_eq, (at2_out_of_range _ _ _ H); reflexivity).
  split; [exact E|]. apply state_update_predict_fails, E.
Qed.

Lemma step_out_of_range_witness :
  (length (odometry (scenario_filter 0.0001 0.01 0.01 0.01 0.01)) <= 3)%nat /\
  state_update 3 (scenario_filter 0.0001 0.01 0.01 0.01 0.01)
  = (scenario_filter 0.0001 0.01 0.01 0.01 0.01, Raise IndexError).
Proof.
  assert (length (odometry (scenario_filter 0.0001 0.01 0.01 0.01 0.01)) <= 3)%nat as H
    by (cbn; lia).
  split; [exact H|]. exact (proj2 (step_out_of_range _ 3 H)).
Defined.

(** Inside the data a step of a constructed and loaded filter can only raise
    [LinAlgError]. *)
Lemma state_update_only_linalg (self self' : Kalman_filter) (index : nat) (e : exn) :
  constructed self -> loaded self -> (index < length (time self))%nat ->
  state_update index self = (self', Raise e) -> e = LinAlgError.
Proof.
  intros Hc Hl Hi.
  destruct (state_update_loaded self index Hc Hl Hi)
    as (theta & x & z & Rm & _ & _ & _ & _ & ->).
  cbv zeta. destruct (inv _) as [cov_Y_inv|e'] eqn:E; [discriminate|].
  intros [= _ <-]. apply inv_Raise in E as [-> _]. reflexivity.
Qed.

Lemma for_each_only_linalg (indices : list nat) :
  forall (self self' : Kalman_filter) (e : exn),
    constructed self -> loaded self ->
    Forall (fun index => (index < length (time self))%nat) indices ->
    for_each indices state_update self = (self', Raise e) -> e = LinAlgError.
Proof.
  induction indices as [|index rest IH]; intros self self' e Hc Hl Hall; [discriminate|].
  apply Forall_cons in Hall as [Hi Hall]. rewrite for_each_cons.
  destruct (state_update index self) as [self1 [[]|e1]] eqn:Hu.
  - assert (for_each [index] state_update self = (self1, Ok ())) as Hone
      by (rewrite for_each_cons, Hu; reflexivity).
    destruct (for_each_invariant _ _ _ _ Hone Hc Hl) as (Hc1 & Hl1 & Ht1 & _).
    apply IH; [assumption|assumption|]. rewrite Ht1. exact Hall.
  - intros [= _ <-]. eapply state_update_only_linalg; eassumption.
Qed.

(** X12. A filter constructed without noise from a file of at least one line
    never meets an [IndexError] in [run]: the only exception [run] can raise
    is the [LinAlgError] of a singular innovation covariance. *)
Theorem run_only_linalg (file : list csv_line) (pn mc pc : R) (go io : option (list R))
    (self self' : Kalman_filter) (e : exn) :
  __init__ file pn mc pc go io None = Ok self -> (0 < length file)%nat ->
  run self = (self', Raise e) -> e = LinAlgError.
Proof.
  intros Hinit Hfile. destruct (init_loaded _ _ _ _ _ _ _ Hinit Hfile) as [Hl _].
  destruct (init_Ok _ _ _ _ _ _ _ _ Hinit)
    as (_ & _ & _ & _ & _ & _ & _ & _ & _ & _ & _ & _ & _ & _ & _ & Hc).
  rewrite run_eq. apply for_each_only_linalg; [assumption|assumption|].
  apply Forall_forall. intros index Hin. apply elem_of_seq in Hin. lia.
Qed.

Lemma run_only_linalg_witness :
  __init__ scenario_file 0 0 0 None None None = Ok (scenario_filter 0 0 0 0.01 0.01) /\
  (0 < length scenario_file)%nat /\
  exists self', run (scenario_filter 0 0 0 0.01 0.01) = (self', Raise LinAlgError).
Proof.
  split; [apply init_scenario|]. split; [cbn; lia|].
  destruct (run (scenario_filter 0 0 0 0.01 0.01)) as [self' [[]|e]] eqn:Hrun.
  - exfalso. rewrite run_eq in Hrun. cbn [length time scenario_filter seq] in Hrun.
    rewrite for_each_cons in Hrun.
    destruct (state_update_loaded (scenario_filter 0 0 0 0.01 0.01) 0
                (scenario_constructed _ _ _ _ _) (scenario_loaded _ _ _ _ _) ltac:(cbn; lia))
      as (theta & x & z & Rm & Ht & _ & _ & _ & Hu).
    injection Ht as <-. cbv zeta in Hu. rewrite inv_singular in Hu.
    + rewrite Hu in Hrun. discriminate.
    + apply zero_row_not_invertible. exact scenario_zero_row.
  - exists self'. f_equal. f_equal.
    exact (run_only_linalg scenario_file 0 0 0 None None _ _ _ (init_scenario _ _ _)
             ltac:(cbn; lia) Hrun).
Defined.

(** ** More on the prediction and the update *)

(** X13. The prediction moves [x] and [y] by the same amount
    [delta_t * cos (radians theta) * v], advances the heading by
    [delta_t * omega], and keeps the speed and the yaw rate; it does not
    touch the history. *)
Theorem model_predict_components (self : Kalman_filter) (index : nat) (theta x y v h w : R) :
  constructed self ->
  at2 (odometry self) index 2 = Ok theta ->
  last (state self) = Some (Vec5 x y v h w) ->
  exists self',
    model_predict index self
    = (self', Ok (Vec5 (x + delta_t self * cos (radians theta) * v)
                       (y + delta_t self * cos (radians theta) * v)
                       v (h + delta_t self * w) w)) /\
    state self' = state self.
Proof.
  intros Hc Ht Hx. eexists. rewrite model_predict_eq, Ht. cbv zeta. rewrite Hx.
  rewrite (constructed_control_effect self Hc), vadd_vzero_r.
  split.
  - apply f_equal2; [reflexivity|]. apply f_equal. mat_eq.
  - reflexivity.
Qed.

Lemma model_predict_components_witness :
  constructed (scenario_filter 0.0001 0.01 0.01 0.01 0.01) /\
  at2 (odometry (scenario_filter 0.0001 0.01 0.01 0.01 0.01)) 0 2 = Ok 0 /\
  last (state (scenario_filter 0.0001 0.01 0.01 0.01 0.01)) = Some (Vec5 0 0 0 0 0) /\
  exists self' predicted,
    model_predict 0 (scenario_filter 0.0001 0.01 0.01 0.01 0.01) = (self', Ok predicted).
Proof.
  split; [apply scenario_constructed|]. split; [reflexivity|]. split; [reflexivity|].
  destruct (model_predict_components (scenario_filter 0.0001 0.01 0.01 0.01 0.01) 0 0 0 0 0 0 0
              (scenario_constructed _ _ _ _ _) eq_refl eq_refl) as (self' & H & _).
  eexists self', _. exact H.
Defined.

Lemma dotv_zero_l (v : vec5) : dotv (mscale identity 0) v = vzero.
Proof. destruct_vec v. mat_eq. Qed.

Lemma madd_zero_r (m : mat5) : madd m (mscale identity 0) = m.
Proof. destruct_mat m. mat_eq. Qed.

Lemma inv_mscale_identity (val : R) :
  val <> 0 -> inv (mscale identity val) = Ok (mscale identity (/ val)).
Proof.
  intros Hv. apply inv_unique; mat_unfold;
    repeat match goal with
      | |- Mat5 _ _ _ _ _ = Mat5 _ _ _ _ _ => f_equal
      | |- Vec5 _ _ _ _ _ = Vec5 _ _ _ _ _ => f_equal
      end; field; assumption.
Qed.

(** X14. With no process noise and a zero covariance the filter trusts its
    model entirely: whatever the sensors read and whatever the nonzero
    measurement scale, the update appends the predicted state itself and the
    covariance stays zero. *)
Theorem zero_covariance_ignores_measurement (self : Kalman_filter) (index : nat) (mc : R) :
  constructed self -> loaded self -> (index < length (time self))%nat ->
  previous_cov self = mscale identity 0 ->
  process_noise self = mscale identity 0 ->
  measurement_cov self = mscale identity mc -> mc <> 0 ->
  exists theta previous_state,
    at2 (odometry self) index 2 = Ok theta /\
    last (state self) = Some previous_state /\
    state_update index self
    = (with_state self
         (state self ++ [dotv (transition (delta_t self) theta) previous_state]),
       Ok ()).
Proof.
  intros Hc Hl Hi Hp Hq Hm Hmc.
  destruct (state_update_loaded self index Hc Hl Hi)
    as (theta & x & z & Rm & Ht & Hx & _ & _ & Hu).
  exists theta, x. split; [assumption|]. split; [assumption|].
  cbv zeta in Hu. rewrite innovation_cov_identity in Hu by apply Hc.
  cbn [measurement_cov previous_cov with_previous_cov] in Hu.
  rewrite Hp, Hq, Hm, static_prediction, madd_zero_r, (inv_mscale_identity mc Hmc) in Hu.
  unfold gain in Hu. cbn [measurement_effect previous_cov with_previous_cov] in Hu.
  rewrite !dot_zero_l, dotv_zero_l, vadd_vzero_r, msub_self, <- Hp in Hu.
  rewrite with_state_previous_cov in Hu. exact Hu.
Qed.

Lemma zero_covariance_ignores_measurement_witness :
  constructed (scenario_filter 0 0.01 0 0.01 0.01) /\
  loaded (scenario_filter 0 0.01 0 0.01 0.01) /\
  0.01 <> 0 /\
  exists theta previous_state,
    state_update 1 (scenario_filter 0 0.01 0 0.01 0.01)
    = (with_state (scenario_filter 0 0.01 0 0.01 0.01)
         ([vzero] ++ [dotv (transition 0.001 theta) previous_state]), Ok ()).
Proof.
  split; [apply scenario_constructed|]. split; [apply scenario_loaded|].
  split; [lra|].
  destruct (zero_covariance_ignores_measurement (scenario_filter 0 0.01 0 0.01 0.01) 1 0.01
              (scenario_constructed _ _ _ _ _) (scenario_loaded _ _ _ _ _)
              ltac:(cbn; lia) eq_refl eq_refl eq_refl ltac:(lra))
    as (theta & x & _ & _ & H).
  exists theta, x. exact H.
Defined.

(** X15. With a zero measurement covariance the filter trusts the composed
    measurement entirely: when the predicted covariance has an inverse, the
    update appends the mean composed by [fuse_readings] and the covariance
    collapses to zero. *)
Theorem zero_measurement_cov_follows_measurement (self : Kalman_filter) (index : nat)
    (theta : R) :
  constructed self -> loaded self -> (index < length (time self))%nat ->
  at2 (odometry self) index 2 = Ok theta ->
  measurement_cov self = mscale identity 0 ->
  let F := transition (delta_t self) theta in
  invertible (madd (dot F (dot (previous_cov self) (transpose F))) (process_noise self)) ->
  exists z composed,
    fuse_readings self index = Ok (z, composed) /\
    state_update index self
    = (with_previous_cov (with_state self (state self ++ [z])) (mscale identity 0), Ok ()).
Proof.
  intros Hc Hl Hi Ht Hm F Hinv.
  destruct (state_update_loaded self index Hc Hl Hi)
    as (theta' & x & z & Rm & Ht' & Hx & Hf & _ & Hu).
  rewrite Ht in Ht'. injection Ht' as <-.
  exists z, Rm. split; [assumption|].
  cbv zeta in Hu. rewrite innovation_cov_identity in Hu by apply Hc.
  cbn [measurement_cov previous_cov with_previous_cov] in Hu.
  fold F in Hu. rewrite Hm, madd_zero_l in Hu.
  destruct (inv_total (madd (dot F (dot (previous_cov self) (transpose F))) (process_noise self)))
    as [(b & Eb & Hr & _)|[_ Hn]]; [|contradiction].
  rewrite Eb in Hu. unfold gain in Hu.
  cbn [measurement_effect previous_cov with_previous_cov] in Hu.
  destruct Hc as (_ & _ & Hme & _).
  rewrite Hme, transpose_identity, dot_identity_l, Hr in Hu.
  rewrite dotv_identity, dotv_identity, vadd_vsub in Hu.
  rewrite transpose_identity, dot_identity_r, dot_identity_l, msub_self in Hu.
  exact Hu.
Qed.

Lemma zero_measurement_cov_follows_measurement_witness :
  constructed (scenario_filter 1 0 0 0.01 0.01) /\
  loaded (scenario_filter 1 0 0 0.01 0.01) /\
  at2 (odometry (scenario_filter 1 0 0 0.01 0.01)) 1 2 = Ok 0 /\
  invertible (madd (dot (transition 0.001 0)
                      (dot (mscale identity 0) (transpose (transition 0.001 0))))
                   (mscale identity 1)) /\
  exists z,
    state_update 1 (scenario_filter 1 0 0 0.01 0.01)
    = (with_previous_cov (with_state (scenario_filter 1 0 0 0.01 0.01) ([vzero] ++ [z]))
         (mscale identity 0), Ok ()).
Proof.
  assert (invertible (madd (dot (transition 0.001 0)
                              (dot (mscale identity 0) (transpose (transition 0.001 0))))
                           (mscale identity 1))) as Hinv.
  { rewrite unit_prediction. exists identity. split; apply dot_identity_l. }
  split; [apply scenario_constructed|]. split; [apply scenario_loaded|].
  split; [reflexivity|]. split; [exact Hinv|].
  destruct (zero_measurement_cov_follows_measurement (scenario_filter 1 0 0 0.01 0.01) 1 0
              (scenario_constructed _ _ _ _ _) (scenario_loaded _ _ _ _ _)
              ltac:(cbn; lia) eq_refl eq_refl Hinv)
    as (z & Rm & _ & H).
  exists z. exact H.
Defined.

(** The inverse of a symmetric matrix is symmetric. *)
Lemma inverse_symmetric (m b : mat5) :
  symmetric m -> dot m b = identity -> dot b m = identity -> symmetric b.
Proof.
  unfold symmetric. intros Hm Hr Hl.
  assert (dot (transpose b) m = identity) as Hl'.
  { rewrite <- Hm at 1. rewrite <- transpose_dot, Hr. apply transpose_identity. }
  rewrite <- (dot_identity_r (transpose b)), <- Hr, <- dot_assoc, Hl'. apply dot_identity_l.
Qed.

(** X16. The covariance the update stores, [cov_pred - K * S * K^T], is the
    textbook posterior [(I - K) * cov_pred]: the gain solves
    [K * S = cov_pred] and, the covariance being symmetric,
    [K * S * K^T = K * cov_pred]. *)
Theorem posterior_cov_standard_form (self self' : Kalman_filter) (index : nat) :
  constructed self -> loaded self -> (index < length (time self))%nat ->
  symmetric (previous_cov self) ->
  state_update index self = (self', Ok ()) ->
  exists theta K,
    at2 (odometry self) index 2 = Ok theta /\
    let F := transition (delta_t self) theta in
    let cov_pred :=
      madd (dot F (dot (previous_cov self) (transpose F))) (process_noise self) in
    dot K (madd (measurement_cov self) cov_pred) = cov_pred /\
    previous_cov self' = msub cov_pred (dot K cov_pred) /\
    previous_cov self' = dot (msub identity K) cov_pred.
Proof.
  intros Hc Hl Hi Hsym.
  destruct (state_update_loaded self index Hc Hl Hi)
    as (theta & x & z & Rm & Ht & _ & _ & _ & ->).
  cbv zeta. rewrite innovation_cov_identity by apply Hc.
  cbn [measurement_cov previous_cov with_previous_cov].
  set (cov_pred := madd _ (process_noise self)).
  destruct (inv (madd (measurement_cov self) cov_pred)) as [S_inv|e] eqn:E; [|discriminate].
  intros [= <-]. apply inv_Ok in E as [Hr Hleft].
  assert (symmetric cov_pred) as Hp.
  { apply symmetric_madd; [apply symmetric_sandwich, Hsym|].
    destruct Hc as (_ & _ & _ & (q & ->) & _). reflexivity. }
  assert (symmetric (madd (measurement_cov self) cov_pred)) as HS.
  { apply symmetric_madd; [|exact Hp].
    destruct Hc as (_ & _ & _ & _ & (m & ->)). reflexivity. }
  pose proof (inverse_symmetric _ _ HS Hr Hleft) as Hinv.
  assert (gain (with_previous_cov self cov_pred) S_inv = dot cov_pred S_inv) as HK.
  { unfold gain. cbn [measurement_effect previous_cov with_previous_cov].
    destruct Hc as (_ & _ & -> & _). rewrite transpose_identity, dot_identity_l. reflexivity. }
  exists theta, (dot cov_pred S_inv). split; [assumption|]. cbv zeta. fold cov_pred.
  assert (msub cov_pred
            (dot (dot cov_pred S_inv)
               (dot (madd (measurement_cov self) cov_pred) (transpose (dot cov_pred S_inv))))
          = msub cov_pred (dot (dot cov_pred S_inv) cov_pred)) as Ecov.
  { rewrite transpose_dot. unfold symmetric in Hinv, Hp. rewrite Hinv, Hp.
    rewrite <- (dot_assoc _ S_inv cov_pred), Hr, dot_identity_l. reflexivity. }
  split; [rewrite dot_assoc, Hleft; apply dot_identity_r|].
  cbn [previous_cov with_previous_cov]. rewrite HK, Ecov.
  split; [reflexivity|].
  generalize (dot cov_pred S_inv). generalize cov_pred. clear.
  intros p k. destruct_mat p. destruct_mat k. mat_eq.
Qed.

(** The static run again, with what it leaves behind. *)
Lemma static_run_state (indices : list nat) :
  forall self,
    constructed self -> loaded self ->
    Forall (fun index => (index < length (time self))%nat) indices ->
    previous_cov self = mscale identity 0 ->
    process_noise self = mscale identity 0 ->
    measurement_cov self = mscale identity 1 ->
    exists self',
      for_each indices state_update self = (self', Ok ()) /\
      constructed self' /\ loaded self' /\ time self' = time self /\
      previous_cov self' = mscale identity 0 /\
      process_noise self' = mscale identity 0 /\
      measurement_cov self' = mscale identity 1.
Proof.
  induction indices as [|index rest IH]; intros self Hc Hl Hall Hp Hq Hm.
  - exists self. split; [reflexivity|]. split; [assumption|]. split; [assumption|].
    split; [reflexivity|]. split; [assumption|]. split; assumption.
  - apply Forall_cons in Hall as [Hi Hall].
    destruct (static_step self index Hc Hl Hi Hp Hq Hm) as [x Hu].
    rewrite for_each_cons, Hu.
    destruct (IH (with_state self (state self ++ [x]))) as (self' & Hrun & H);
      try assumption.
    + destruct Hl as (Ho & Him & Hic & Hg & Hgc & _).
      unfold loaded. cbn. repeat (split; [assumption|]).
      destruct (state self); discriminate.
    + exists self'. split; [exact Hrun|]. exact H.
Qed.

Lemma posterior_cov_standard_form_witness :
  constructed (scenario_filter 0 1 0 0.01 0.01) /\
  loaded (scenario_filter 0 1 0 0.01 0.01) /\
  symmetric (previous_cov (scenario_filter 0 1 0 0.01 0.01)) /\
  exists self' K,
    state_update 0 (scenario_filter 0 1 0 0.01 0.01) = (self', Ok ()) /\
    previous_cov self'
    = dot (msub identity K)
        (madd (dot (transition 0.001 0)
                 (dot (mscale identity 0) (transpose (transition 0.001 0))))
              (mscale identity 0)).
Proof.
  split; [apply scenario_constructed|]. split; [apply scenario_loaded|].
  split; [reflexivity|].
  destruct (static_step (scenario_filter 0 1 0 0.01 0.01) 0
              (scenario_constructed _ _ _ _ _) (scenario_loaded _ _ _ _ _)
              ltac:(cbn; lia) eq_refl eq_refl eq_refl) as [x Hu].
  destruct (posterior_cov_standard_form _ _ 0
              (scenario_constructed _ _ _ _ _) (scenario_loaded _ _ _ _ _)
              ltac:(cbn; lia) eq_refl Hu) as (theta & K & Ht & _ & _ & H).
  injection Ht as <-. eexists _, K. split; [exact Hu|exact H].
Defined.

(** ** More on the measurement composer *)

Lemma fuse_deviation_pos (m1 m2 sigma1 sigma2 : R) : 0 < snd (fuse m1 m2 sigma1 sigma2).
Proof.
  rewrite fuse_deviation. apply sqrt_lt_R0, Rinv_0_lt_compat.
  pose proof (precision_pos (sigma1 ^ 2)). pose proof (precision_pos (sigma2 ^ 2)). lra.
Qed.

Lemma fuse_mean_between (m1 m2 sigma1 sigma2 : R) :
  Rmin m1 m2 <= fst (fuse m1 m2 sigma1 sigma2) <= Rmax m1 m2.
Proof.
  unfold fuse, fst.
  pose proof (floor_pos (sigma1 ^ 2)). pose proof (floor_pos (sigma2 ^ 2)).
  replace (m1 / Rmax (sigma1 ^ 2) float32_eps + m2 / Rmax (sigma2 ^ 2) float32_eps)
    with (m1 * (1 / Rmax (sigma1 ^ 2) float32_eps) + m2 * (1 / Rmax (sigma2 ^ 2) float32_eps))
    by (field; lra).
  apply weighted_mean_bounds; apply precision_pos.
Qed.

(** X17. The covariance [fuse_readings] returns is diagonal, so symmetric;
    its three fused entries are strictly positive, and its velocity and yaw
    rate entries are those of the static measurement covariance. *)
Theorem composed_cov_shape (self : Kalman_filter) (index : nat) (z : vec5) (composed : mat5) :
  fuse_readings self index = Ok (z, composed) ->
  diagonal composed /\ symmetric composed /\
  0 < mget composed I0 I0 /\ 0 < mget composed I1 I1 /\ 0 < mget composed I3 I3 /\
  mget composed I2 I2 = mget (measurement_cov self) I2 I2 /\
  mget composed I4 I4 = mget (measurement_cov self) I4 I4.
Proof.
  intros Hf.
  destruct (fuse_readings_Ok _ _ _ _ Hf)
    as (ox & oy & ot & it & ict & gx & gy & gcx & gcy & _ & _ & _ & _ & _ & _ & _ & _ & _
        & _ & ->).
  split; [intros i j Hij; destruct i, j; try discriminate Hij; reflexivity|].
  split; [reflexivity|].
  repeat split; try reflexivity; apply fuse_deviation_pos.
Qed.

Lemma composed_cov_shape_witness :
  fuse_readings (scenario_filter 0.0001 0.01 0.01 0.01 0.01) 0
  = Ok (composed_mean (scenario_filter 0.0001 0.01 0.01 0.01 0.01) 0 0 0 0 0 0 0.01 0.01 0.01,
        composed_cov (scenario_filter 0.0001 0.01 0.01 0.01 0.01) 0 0 0 0 0 0 0.01 0.01 0.01) /\
  diagonal (composed_cov (scenario_filter 0.0001 0.01 0.01 0.01 0.01)
              0 0 0 0 0 0 0.01 0.01 0.01).
Proof.
  split; [apply fuse_readings_scenario|].
  exact (proj1 (composed_cov_shape _ 0 _ _ (fuse_readings_scenario 0.0001 0.01 0.01 0.01 0.01))).
Defined.

(** X18. The composed measurement never leaves the interval of its two
    sensors: [x] and [y] lie between the odometry and the GPS, the heading
    between the odometry and the IMU, whatever the reported variances; the
    speed is the fixed velocity and the yaw rate is
    [velocity * tan (radians heading) / wheel_distance] of the odometry. *)
Theorem composed_mean_between (self : Kalman_filter) (index : nat) (z : vec5) (composed : mat5) :
  fuse_readings self index = Ok (z, composed) ->
  exists ox oy ot it gx gy,
    (at2 (odometry self) index 0 = Ok ox /\ at2 (odometry self) index 1 = Ok oy /\
     at2 (odometry self) index 2 = Ok ot /\ at2 (imu self) index 0 = Ok it /\
     at2 (gps self) index 0 = Ok gx /\ at2 (gps self) index 1 = Ok gy) /\
    Rmin ox gx <= vget z I0 <= Rmax ox gx /\
    Rmin oy gy <= vget z I1 <= Rmax oy gy /\
    Rmin ot it <= vget z I3 <= Rmax ot it /\
    vget z I2 = velocity self /\
    vget z I4 = velocity self * tan (radians ot) / wheel_distance self.
Proof.
  intros Hf.
  destruct (fuse_readings_Ok _ _ _ _ Hf)
    as (ox & oy & ot & it & ict & gx & gy & gcx & gcy & H1 & H2 & H3 & H4 & _ & H6 & H7 & _ & _
        & -> & _).
  exists ox, oy, ot, it, gx, gy. split; [repeat split; assumption|].
  unfold composed_mean. cbn [vget c0 c1 c2 c3 c4].
  split; [apply fuse_mean_between|]. split; [apply fuse_mean_between|].
  split; [apply fuse_mean_between|]. split; reflexivity.
Qed.

Lemma composed_mean_between_witness :
  fuse_readings (scenario_filter 0.0001 0.01 0.01 0.01 0.01) 0
  = Ok (composed_mean (scenario_filter 0.0001 0.01 0.01 0.01 0.01) 0 0 0 0 0 0 0.01 0.01 0.01,
        composed_cov (scenario_filter 0.0001 0.01 0.01 0.01 0.01) 0 0 0 0 0 0 0.01 0.01 0.01) /\
  vget (composed_mean (scenario_filter 0.0001 0.01 0.01 0.01 0.01) 0 0 0 0 0 0 0.01 0.01 0.01) I2
  = 0.14.
Proof.
  split; [apply fuse_readings_scenario|].
  destruct (composed_mean_between _ 0 _ _ (fuse_readings_scenario 0.0001 0.01 0.01 0.01 0.01))
    as (ox & oy & ot & it & gx & gy & _ & _ & _ & _ & H & _).
  exact H.
Defined.

(** ** More on [run] *)

(** X19. Whatever its outcome, [run] assigns nothing but the covariance and
    the history: the sensor arrays and the configuration are as before, the
    history it found is a prefix of the history it leaves, and it appends at
    most one state per row of [time]. *)
Theorem run_frame (self : Kalman_filter) :
  same_configuration self (fst (run self)) /\
  exists history,
    state (fst (run self)) = state self ++ history /\
    (length history <= length (time self))%nat /\
    (snd (run self) = Ok () -> length history = length (time self)).
Proof.
  destruct (run self) as [self' r] eqn:Hrun. rewrite run_eq in Hrun.
  destruct (for_each_frame _ _ _ _ Hrun) as (Hcfg & history & Hh & Hlen).
  rewrite length_seq in Hlen. split; [exact Hcfg|].
  exists history. split; [exact Hh|]. cbn [snd]. destruct r as [[]|e].
  - split; [lia|intros _; exact Hlen].
  - split; [lia|discriminate].
Qed.

(** X20. [run] does not start over: a second run on a filter whose first run
    completed resumes from the last state and covariance and, when it
    completes too, appends another state per timestep. *)
Theorem run_again (self self1 self2 : Kalman_filter) :
  run self = (self1, Ok ()) -> run self1 = (self2, Ok ()) ->
  exists first second,
    state self1 = state self ++ first /\
    state self2 = state self ++ first ++ second /\
    length first = length (time self) /\ length second = length (time self).
Proof.
  intros H1 H2. rewrite run_eq in H1, H2.
  destruct (for_each_frame _ _ _ _ H1) as (Hcfg & first & Hf & Lf).
  destruct (for_each_frame _ _ _ _ H2) as (_ & second & Hs & Ls).
  rewrite length_seq in Lf, Ls.
  destruct Hcfg as (_ & _ & _ & _ & _ & _ & _ & _ & Ht & _). rewrite Ht in Ls.
  exists first, second. split; [exact Hf|]. split; [|split; assumption].
  rewrite Hs, Hf, <- app_assoc. reflexivity.
Qed.

Lemma run_again_witness :
  exists self1 self2,
    run (scenario_filter 0 1 0 0.01 0.01) = (self1, Ok ()) /\
    run self1 = (self2, Ok ()) /\
    length (state self2) = 7%nat.
Proof.
  destruct (static_run_state (seq 0 3) (scenario_filter 0 1 0 0.01 0.01)
              (scenario_constructed _ _ _ _ _) (scenario_loaded _ _ _ _ _)
              ltac:(repeat constructor) eq_refl eq_refl eq_refl)
    as (self1 & Hrun1 & Hc1 & Hl1 & Ht1 & Hp1 & Hq1 & Hm1).
  change (run (scenario_filter 0 1 0 0.01 0.01) = (self1, Ok ())) in Hrun1.
  assert (run self1 = for_each (seq 0 3) state_update self1) as E1
    by (rewrite run_eq, Ht1; reflexivity).
  destruct (static_run_state (seq 0 3) self1 Hc1 Hl1
              ltac:(rewrite Ht1; repeat constructor) Hp1 Hq1 Hm1)
    as (self2 & Hrun2 & _).
  rewrite <- E1 in Hrun2.
  exists self1, self2. split; [exact Hrun1|]. split; [exact Hrun2|].
  destruct (run_again _ _ _ Hrun1 Hrun2) as (first & second & _ & Hs & Lf & Ls).
  rewrite Hs, !length_app, Lf, Ls. reflexivity.
Defined.

(** ** The options of the constructor *)

(** X21. The noise option touches the GPS positions only: the filter it
    builds is the one built without noise, except that every GPS entry has
    the entry of the sample added; the covariances, overridden or not, and
    the other arrays are the same. *)
Theorem noise_touches_gps_only (file : list csv_line) (pn mc pc : R)
    (go io : option (list R)) (sample : array) (self : Kalman_filter) :
  __init__ file pn mc pc go io (Some sample) = Ok self ->
  exists self0,
    __init__ file pn mc pc go io None = Ok self0 /\
    gps self = noise_gps (gps self0) sample /\
    (forall i j g n,
       at2 (gps self0) i j = Ok g -> at2 sample i j = Ok n ->
       at2 (gps self) i j = Ok (g + n)) /\
    process_noise self = process_noise self0 /\
    measurement_cov self = measurement_cov self0 /\
    time self = time self0 /\ odometry self = odometry self0 /\
    imu self = imu self0 /\ imu_cov self = imu_cov self0 /\
    gps_cov self = gps_cov self0 /\
    previous_cov self = previous_cov self0 /\ state self = state self0.
Proof.
  unfold __init__. destruct (get_data file) as [data|e]; [|discriminate].
  cbn [mbind result_bind].
  destruct (if truthy go then _ else _) as [gc|e]; [|discriminate]. cbn [mbind result_bind].
  destruct (if truthy io then _ else _) as [ic|e]; [|discriminate]. cbn [mbind result_bind].
  intros [= <-]. eexists. split; [reflexivity|]. cbn.
  split; [reflexivity|]. split; [|repeat split].
  intros i j g n Hg Hn.
  apply at2_inv in Hg as (rg & Hrg & Hg). apply at2_inv in Hn as (rn & Hrn & Hn).
  unfold noise_gps. eapply at2_Ok.
  - rewrite lookup_zip_with, Hrg. cbn. rewrite Hrn. reflexivity.
  - rewrite lookup_zip_with, Hg. cbn. rewrite Hn. reflexivity.
Qed.

Lemma noise_touches_gps_only_witness :
  exists self,
    __init__ scenario_file 0.0001 0.01 0.01 None None (Some [[1; 1]; [1; 1]; [1; 1]])
    = Ok self /\
    at2 (gps self) 1 0 = Ok (1 + 1) /\ odometry self = [[0; 0; 0]; [1; 0; 0]; [2; 0; 0]].
Proof.
  assert (exists self,
            __init__ scenario_file 0.0001 0.01 0.01 None None (Some [[1; 1]; [1; 1]; [1; 1]])
            = Ok self) as [self Hinit]
    by (eexists; unfold __init__; rewrite get_data_scenario; reflexivity).
  exists self. split; [exact Hinit|].
  destruct (noise_touches_gps_only _ _ _ _ _ _ _ _ Hinit)
    as (self0 & Hinit0 & _ & Hadd & _ & _ & _ & Ho & _).
  rewrite init_scenario in Hinit0. injection Hinit0 as <-.
  split; [apply Hadd; reflexivity|exact Ho].
Defined.

Lemma override_single_column (arr : array) (value : R) :
  rows_of_width 1 arr ->
  (fun r => take 0 r ++ [value] ++ drop (0 + length [value]) r) <$> arr
  = replicate (length arr) [value].
Proof.
  induction arr as [|r arr IH]; intros Hw; [reflexivity|].
  apply Forall_cons in Hw as [Hr Hw]. cbn [fmap list_fmap length replicate].
  f_equal; [|apply IH, Hw].
  destruct r as [|a [|? ?]]; try discriminate Hr. reflexivity.
Qed.

(** X22. The IMU variance override replaces the reported IMU variance of
    every timestep by its value and leaves the GPS variances as they are
    without it. *)
Theorem imu_override (file : list csv_line) (pn mc pc : R) (go : option (list R))
    (value : R) (noise : option array) (self : Kalman_filter) :
  __init__ file pn mc pc go (Some [value]) noise = Ok self ->
  imu_cov self = replicate (length file) [value] /\
  exists self0,
    __init__ file pn mc pc go None noise = Ok self0 /\
    gps_cov self = gps_cov self0 /\ gps self = gps self0 /\
    odometry self = odometry self0 /\ imu self = imu self0.
Proof.
  intros Hinit.
  destruct (init_Ok _ _ _ _ _ _ _ _ Hinit) as (data & Hdata & Hgc & Hic & _).
  split.
  - destruct (get_data_cases file)
      as [(t & o & i & ic & g & gc & E & Hfrom & _)|(e & E & _)];
      rewrite E in Hdata; [|discriminate].
    injection Hdata as <-. cbn [truthy default data_imu_cov] in Hic.
    change (Datatypes.id [value]) with [value] in Hic.
    destruct Hfrom as (_ & _ & _ & _ & (Wic & Lic) & _).
    destruct ic as [|r ic]; [rewrite override_cov_empty in Hic; discriminate|].
    change (np_matrix (r :: ic)) with (r :: ic) in Hic. unfold override_cov in Hic.
    rewrite (override_cov_from_columns 1) in Hic by (assumption || cbn; lia).
    injection Hic as Hic. rewrite <- Hic, <- Lic.
    exact (override_single_column (r :: ic) value Wic).
  - revert Hinit. unfold __init__. rewrite Hdata. cbn [mbind result_bind].
    destruct (if truthy go then _ else _) as [gc|e]; [|discriminate].
    cbn [mbind result_bind].
    destruct (if truthy (Some [value]) then _ else _) as [ic|e]; [|discriminate].
    cbn [mbind result_bind truthy]. intros [= <-].
    eexists. split; [reflexivity|]. repeat split.
Qed.

Lemma imu_override_witness :
  exists self,
    __init__ scenario_file 0.0001 0.01 0.01 None (Some [0.1]) None = Ok self /\
    imu_cov self = replicate (length scenario_file) [0.1].
Proof.
  assert (exists self,
            __init__ scenario_file 0.0001 0.01 0.01 None (Some [0.1]) None = Ok self)
    as [self Hinit]
    by (eexists; unfold __init__; rewrite get_data_scenario; reflexivity).
  exists self. split; [exact Hinit|].
  exact (proj1 (imu_override _ _ _ _ _ _ _ _ Hinit)).
Defined.

(** ** The figures *)

Lemma column_of_width (k : nat) (arr : array) (j : nat) :
  rows_of_width k arr -> (0 < length arr)%nat -> (j < k)%nat ->
  exists col, column arr j = Ok col /\ length col = length arr.
Proof.
  intros Hw Hl Hj. unfold column. rewrite (width_of_rows k) by assumption.
  destruct (decide (j < k)%nat); [|contradiction].
  eexists. split; [reflexivity|]. apply length_fmap.
Qed.

(** X23. After a run that completes, [show_plot] has all its series: the
    sensor series hold one point per timestep, while the three series of the
    filter hold one point more and start at the zero state, so that in the
    heading figure the filter's point [k+1] is the estimate for the sensor
    point [k]. *)
Theorem show_plot_series (file : list csv_line) (pn mc pc : R) (go io : option (list R))
    (self self' : Kalman_filter) :
  __init__ file pn mc pc go io None = Ok self ->
  run self = (self', Ok ()) ->
  exists figures,
    show_plot self' = Ok figures /\
    length (fst (plot_gps figures)) = length file /\
    length (snd (plot_gps figures)) = length file /\
    length (fst (plot_odometry figures)) = length file /\
    length (snd (plot_imu_heading figures)) = length file /\
    fst (plot_imu_heading figures) = seq 0 (length file) /\
    length (snd (plot_odometry_heading figures)) = length file /\
    length (fst (plot_kalman figures)) = S (length file) /\
    length (snd (plot_kalman figures)) = S (length file) /\
    fst (plot_kalman_heading figures) = seq 0 (S (length file)) /\
    length (snd (plot_kalman_heading figures)) = S (length file) /\
    head (fst (plot_kalman figures)) = Some 0 /\
    head (snd (plot_kalman_heading figures)) = Some 0.
Proof.
  intros Hinit Hrun.
  destruct (init_Ok _ _ _ _ _ _ _ _ Hinit)
    as (data & _ & _ & _ & _ & _ & _ & _ & _ & _ & _ & _ & _ & _ & Hs0 & Hc).
  destruct (init_time_length _ _ _ _ _ _ _ _ Hinit) as [(_ & Ht & Ho)|[Hfile Hlen]].
  { rewrite (run_empty_file _ Ht Ho) in Hrun. discriminate. }
  destruct (init_loaded _ _ _ _ _ _ _ Hinit Hfile) as [Hl _].
  rewrite run_eq in Hrun.
  destruct (for_each_invariant _ _ _ _ Hrun Hc Hl) as (_ & Hl' & Ht' & _).
  destruct (for_each_frame _ _ _ _ Hrun) as (_ & history & Hh & Lh).
  rewrite length_seq in Lh. rewrite Hs0 in Hh.
  destruct Hl' as ((Wo & Lo) & (Wi & Li) & _ & (Wg & Lg) & _).
  rewrite Ht', Hlen in Lo, Li, Lg.
  destruct (column_of_width 2 (gps self') 0 Wg ltac:(lia) ltac:(lia)) as (gx & Egx & Lgx).
  destruct (column_of_width 2 (gps self') 1 Wg ltac:(lia) ltac:(lia)) as (gy & Egy & Lgy).
  destruct (column_of_width 3 (odometry self') 0 Wo ltac:(lia) ltac:(lia)) as (ox & Eox & Lox).
  destruct (column_of_width 3 (odometry self') 1 Wo ltac:(lia) ltac:(lia)) as (oy & Eoy & Loy).
  destruct (column_of_width 3 (odometry self') 2 Wo ltac:(lia) ltac:(lia)) as (ot & Eot & Lot).
  destruct (column_of_width 1 (imu self') 0 Wi ltac:(lia) ltac:(lia)) as (it & Eit & Lit).
  unfold show_plot. rewrite Egx, Egy, Eox, Eoy, Eit, Eot. cbn [mbind result_bind].
  eexists. split; [reflexivity|].
  cbn [plot_gps plot_odometry plot_kalman plot_imu_heading plot_odometry_heading
       plot_kalman_heading fst snd].
  rewrite !length_fmap, Hh, Li. cbn [length app]. rewrite Hlen in Lh.
  repeat split; try lia; try (f_equal; lia).
Qed.

Lemma show_plot_series_witness :
  exists self' figures,
    __init__ scenario_file 0 1 0 None None None = Ok (scenario_filter 0 1 0 0.01 0.01) /\
    run (scenario_filter 0 1 0 0.01 0.01) = (self', Ok ()) /\
    show_plot self' = Ok figures /\
    length (snd (plot_kalman_heading figures)) = 4%nat.
Proof.
  destruct (static_run (seq 0 3) (scenario_filter 0 1 0 0.01 0.01)
              (scenario_constructed _ _ _ _ _) (scenario_loaded _ _ _ _ _)
              ltac:(repeat constructor) eq_refl eq_refl eq_refl) as [self' Hrun].
  change (run (scenario_filter 0 1 0 0.01 0.01) = (self', Ok ())) in Hrun.
  destruct (show_plot_series scenario_file 0 1 0 None None _ _ (init_scenario _ _ _) Hrun)
    as (figures & Hshow & H).
  exists self', figures. split; [apply init_scenario|]. split; [exact Hrun|].
  split; [exact Hshow|]. apply H.
Defined.

(** ** More on the weights of the fusion and on the transition *)

Lemma floor_monotone (sigma sigma' : R) :
  0 <= sigma <= sigma' -> Rmax (sigma ^ 2) float32_eps <= Rmax (sigma' ^ 2) float32_eps.
Proof. intros [H0 H1]. apply Rle_max_compat_r. nra. Qed.

Lemma precision_antitone (v v' : R) : 0 < v -> v <= v' -> 1 / v' <= 1 / v.
Proof.
  intros Hv Hle. unfold Rdiv. rewrite !Rmult_1_l. apply Rinv_le_contravar; assumption.
Qed.

(** X24. A noisier source never makes the fused estimate more confident: the
    fused deviation does not decrease when one of the two deviations grows. *)
Theorem fuse_deviation_monotone (m1 m2 m1' m2' sigma1 sigma2 sigma2' : R) :
  0 <= sigma2 <= sigma2' ->
  snd (fuse m1 m2 sigma1 sigma2) <= snd (fuse m1' m2' sigma1 sigma2') /\
  snd (fuse m2 m1 sigma2 sigma1) <= snd (fuse m2' m1' sigma2' sigma1).
Proof.
  intros H.
  pose proof (floor_monotone _ _ H) as Hv.
  pose proof (precision_antitone _ _ (floor_pos (sigma2 ^ 2)) Hv) as Hp.
  pose proof (precision_pos (sigma1 ^ 2)). pose proof (precision_pos (sigma2' ^ 2)).
  rewrite !fuse_deviation.
  split; apply sqrt_le_1_alt, Rinv_le_contravar; lra.
Qed.

Lemma fuse_deviation_monotone_witness :
  0 <= 1 <= 2 /\ snd (fuse 0 1 1 1) <= snd (fuse 0 1 1 2).
Proof.
  assert (0 <= 1 <= 2) as H by lra. split; [exact H|].
  exact (proj1 (fuse_deviation_monotone 0 1 0 1 1 1 2 H)).
Defined.

(** X25. The fused mean sides with the more precise source: when the first
    deviation is at most the second, the fused mean is at least as close to
    the first mean as to the second. *)
Theorem fuse_mean_closer_to_precise (m1 m2 sigma1 sigma2 : R) :
  0 <= sigma1 <= sigma2 ->
  Rabs (fst (fuse m1 m2 sigma1 sigma2) - m1) <= Rabs (fst (fuse m1 m2 sigma1 sigma2) - m2).
Proof.
  intros H.
  pose proof (floor_monotone _ _ H) as Hv.
  pose proof (precision_antitone _ _ (floor_pos (sigma1 ^ 2)) Hv) as Hp.
  pose proof (precision_pos (sigma1 ^ 2)) as Ha. pose proof (precision_pos (sigma2 ^ 2)) as Hb.
  pose proof (floor_pos (sigma1 ^ 2)) as Hv1. pose proof (floor_pos (sigma2 ^ 2)) as Hv2.
  unfold fuse, fst.
  set (a := 1 / Rmax (sigma1 ^ 2) float32_eps) in *.
  set (b := 1 / Rmax (sigma2 ^ 2) float32_eps) in *.
  replace (m1 / Rmax (sigma1 ^ 2) float32_eps) with (m1 * a) by (unfold a; field; lra).
  replace (m2 / Rmax (sigma2 ^ 2) float32_eps) with (m2 * b) by (unfold b; field; lra).
  replace ((m1 * a + m2 * b) / (a + b) - m1) with ((m2 - m1) * (b / (a + b))) by (field; lra).
  replace ((m1 * a + m2 * b) / (a + b) - m2) with (- (m2 - m1) * (a / (a + b))) by (field; lra).
  assert (0 <= b / (a + b)) as Hqb by (apply Rlt_le, Rdiv_lt_0_compat; lra).
  assert (b / (a + b) <= a / (a + b)) as Hq.
  { unfold Rdiv. apply Rmult_le_compat_r; [|exact Hp]. apply Rlt_le, Rinv_0_lt_compat. lra. }
  rewrite !Rabs_mult, Rabs_Ropp, (Rabs_pos_eq (b / (a + b))) by exact Hqb.
  rewrite (Rabs_pos_eq (a / (a + b))) by lra.
  apply Rmult_le_compat_l; [apply Rabs_pos|exact Hq].
Qed.

Lemma fuse_mean_closer_to_precise_witness :
  0 <= 1 <= 2 /\ Rabs (fst (fuse 0 1 1 2) - 0) <= Rabs (fst (fuse 0 1 1 2) - 1).
Proof.
  assert (0 <= 1 <= 2) as H by lra. split; [exact H|].
  exact (fuse_mean_closer_to_precise 0 1 1 2 H).
Defined.

(** X26. The transition matrix of [model_predict] always has an inverse, the
    transition for the opposite time step: [np.linalg.inv] returns it for
    every heading. *)
Theorem transition_invertible (dt theta : R) :
  inv (transition dt theta) = Ok (transition (- dt) theta) /\
  dot (transition (- dt) theta) (transition dt theta) = identity.
Proof.
  assert (dot (transition dt theta) (transition (- dt) theta) = identity) as Hr by mat_eq.
  assert (dot (transition (- dt) theta) (transition dt theta) = identity) as Hl by mat_eq.
  split; [apply inv_unique; assumption|exact Hl].
Qed.
